(** * aioinflux.serialization: line-protocol encoder and response decoder

    A shallow embedding of [aioinflux/serialization.py] and the properties
    of its specification that were checked against it.

    Conventions of the embedding.
    - A Python [str] is a [string] of code points below 256; every
      character the module inspects is ASCII.  [bytes] objects are
      [string]s as well, kept apart by the constructors that carry them.
    - A Python computation is a value of [py A]: the warnings it signalled
      through [warnings.warn], in order, and either the value it returned or
      the exception it raised.
    - A [dict] is an association list in insertion order. *)

From Stdlib Require Import ZArith List String Ascii Bool Lia DecimalString.
From Stdlib Require Import Sorting.Sorted Sorting.Permutation.
Import ListNotations.
Set Warnings "-register-all".
Local Open Scope list_scope.
Local Open Scope Z_scope.
Local Open Scope string_scope.

(* ================================================================== *)
(** ** Python runtime: exceptions, warnings, strings                  *)
(* ================================================================== *)

Inductive exn : Type :=
| KeyError (key : string)
| ValueError (msg : string)
| TypeError (msg : string)
| AttributeError (msg : string)
| IndexError (msg : string)
| OverflowError (msg : string).

(** How a run ends.  [Unmodelled] is no Python outcome: it marks a run
    that leaves the fragment of Python covered here (see [parse_df]). *)
Inductive outcome (A : Type) : Type :=
| Return (a : A)
| Raise (e : exn)
| Unmodelled.
Arguments Return {A} a.
Arguments Raise {A} e.
Arguments Unmodelled {A}.

Definition warning := string.

(** Warnings signalled so far, then how the computation ended. *)
Definition py (A : Type) : Type := (list warning * outcome A)%type.

Definition ret {A} (a : A) : py A := ([], Return a).
Definition raise {A} (e : exn) : py A := ([], Raise e).
Definition warn (w : warning) : py unit := ([w], Return tt).

Definition bind {A B} (m : py A) (f : A -> py B) : py B :=
  match m with
  | (w, Return a) => let (w', r) := f a in ((w ++ w')%list, r)
  | (w, Raise e) => (w, Raise e)
  | (w, Unmodelled) => (w, Unmodelled)
  end.

(** [try m except <handler>]: the handler answers [None] for the exceptions
    it does not catch. *)
Definition try_except {A} (m : py A) (handler : exn -> option (py A)) : py A :=
  match m with
  | (w, Return a) => (w, Return a)
  | (w, Raise e) =>
      match handler e with
      | Some h => let (w', r) := h in ((w ++ w')%list, r)
      | None => (w, Raise e)
      end
  | (w, Unmodelled) => (w, Unmodelled)
  end.

Declare Scope py_scope.
Delimit Scope py_scope with py.
Notation "x <- m ;; k" := (bind m (fun x => k))
  (at level 61, m at next level, right associativity) : py_scope.
Notation "m ;;; k" := (bind m (fun _ => k))
  (at level 61, right associativity) : py_scope.
Local Open Scope py_scope.

Definition dquote : ascii := "034"%char.
Definition newline : ascii := "010"%char.
Definition backslash : ascii := "092"%char.

Definition str1 (c : ascii) : string := String c EmptyString.

(** [str.join] *)
Definition join (sep : string) (items : list string) : string :=
  String.concat sep items.

(** Truth value of a [str]: the empty string is falsy. *)
Definition truthy (s : string) : bool :=
  match s with EmptyString => false | String _ _ => true end.

(** [str(n)] and [format(n)] of an [int]. *)
Definition str_of_int (z : Z) : string := NilZero.string_of_int (Z.to_int z).

(** *** Translation tables ([str.maketrans] over a dict) *)

Definition table := list (ascii * string).

Fixpoint table_get (t : table) (c : ascii) : option string :=
  match t with
  | [] => None
  | (k, v) :: t' => if Ascii.eqb k c then Some v else table_get t' c
  end.

(** [str.translate]: a character with an entry is replaced by the entry,
    any other character is kept. *)
Fixpoint translate (s : string) (t : table) : string :=
  match s with
  | EmptyString => EmptyString
  | String c s' =>
      match table_get t c with
      | Some r => r ++ translate s' t
      | None => String c (translate s' t)
      end
  end.

Definition esc (c : ascii) : string := String backslash (str1 c).

Definition key_escape : table :=
  [(backslash, esc backslash); (","%char, esc ","%char);
   (" "%char, esc " "%char); ("="%char, esc "="%char); (newline, "")].
Definition tag_escape : table :=
  [(backslash, esc backslash); (","%char, esc ","%char);
   (" "%char, esc " "%char); ("="%char, esc "="%char); (newline, "")].
Definition str_escape : table :=
  [(backslash, esc backslash); (dquote, esc dquote); (newline, "")].
Definition measurement_escape : table :=
  [(backslash, esc backslash); (","%char, esc ","%char);
   (" "%char, esc " "%char); (newline, "")].

(* ================================================================== *)
(** ** Python values that reach the encoder                           *)
(* ================================================================== *)

(** A [float] is carried with the text [str] gives for it; the encoder
    does nothing else with a float. *)
Inductive pyval : Type :=
| PNone
| PBool (b : bool)
| PInt (z : Z)
| PFloat (text : string)
| PStr (s : string)
| PBytes (raw : string).

Definition isinstance_bool (v : pyval) : bool :=
  match v with PBool _ => true | _ => false end.

(** [bool] is a subclass of [int]. *)
Definition isinstance_int (v : pyval) : bool :=
  match v with PBool _ | PInt _ => true | _ => false end.

Definition isinstance_str (v : pyval) : bool :=
  match v with PStr _ => true | _ => false end.

Definition is_None (v : pyval) : bool :=
  match v with PNone => true | _ => false end.

Definition hex_digit (n : nat) : ascii :=
  nth n (list_ascii_of_string "0123456789abcdef") "0"%char.

Fixpoint contains_char (c : ascii) (s : string) : bool :=
  match s with
  | EmptyString => false
  | String d s' => Ascii.eqb c d || contains_char c s'
  end.

(** [repr] of a [bytes] object, the body between the quotes. *)
Fixpoint bytes_repr_body (quote : ascii) (raw : string) : string :=
  match raw with
  | EmptyString => EmptyString
  | String c r =>
      let n := nat_of_ascii c in
      (if Ascii.eqb c quote || Ascii.eqb c backslash then esc c
       else if Ascii.eqb c "009"%char then "\t"
       else if Ascii.eqb c newline then "\n"
       else if Ascii.eqb c "013"%char then "\r"
       else if (n <? 32)%nat || (127 <=? n)%nat
            then "\x" ++ str1 (hex_digit (n / 16)) ++ str1 (hex_digit (n mod 16))
       else str1 c) ++ bytes_repr_body quote r
  end.

Definition bytes_repr (raw : string) : string :=
  let quote := if contains_char "'"%char raw && negb (contains_char dquote raw)
               then dquote else "'"%char in
  "b" ++ str1 quote ++ bytes_repr_body quote raw ++ str1 quote.

(** [str(v)], which is also what [format] puts for a bare replacement
    field. *)
Definition py_str (v : pyval) : string :=
  match v with
  | PNone => "None"
  | PBool true => "True"
  | PBool false => "False"
  | PInt z => str_of_int z
  | PFloat text => text
  | PStr s => s
  | PBytes raw => bytes_repr raw
  end.

(** [v.translate(t)] with [t] a [str.maketrans] table.  Only [str] and
    [bytes] have the attribute, and [bytes.translate] refuses a dict. *)
Definition method_translate (v : pyval) (t : table) : py string :=
  match v with
  | PStr s => ret (translate s t)
  | PBytes _ => raise (TypeError "a bytes-like object is required, not 'dict'")
  | _ => raise (AttributeError "object has no attribute 'translate'")
  end.

(* ================================================================== *)
(** ** [escape]                                                       *)
(* ================================================================== *)

Definition non_string_warning : warning :=
  "Non-string-like data passed. Attempting to convert to 'str'.".

Definition escape (v : pyval) (escape_pattern : table) : py string :=
  try_except (method_translate v escape_pattern)
    (fun e => match e with
              | AttributeError _ =>
                  Some (warn non_string_warning ;;;
                        ret (translate (py_str v) tag_escape))
              | _ => None
              end).

(* ================================================================== *)
(** ** Points                                                         *)
(* ================================================================== *)

(** [l.append(x)] *)
Definition list_append {A} (l : list A) (x : A) : list A := (l ++ [x])%list.

Definition dict (V : Type) : Type := list (string * V).

Fixpoint dict_get {V} (k : string) (d : dict V) : option V :=
  match d with
  | [] => None
  | (k', v) :: d' => if String.eqb k' k then Some v else dict_get k d'
  end.

(** [d[k] = v]: an existing key keeps its position, a new key goes last. *)
Fixpoint dict_set {V} (k : string) (v : V) (d : dict V) : dict V :=
  match d with
  | [] => [(k, v)]
  | (k', v') :: d' =>
      if String.eqb k' k then (k', v) :: d' else (k', v') :: dict_set k v d'
  end.

(** [{**a, **b}]: a new dict that receives the items of [a], then of [b]. *)
Definition dict_merge {V} (a b : dict V) : dict V :=
  fold_left (fun d kv => dict_set (fst kv) (snd kv) d) (a ++ b)%list [].

(** A [datetime.datetime].  [dt_wall] is the number of whole seconds from
    1970-01-01T00:00:00 to its calendar fields read on the clock they are
    written for; [dt_tzinfo] is the UTC offset of that clock in seconds
    east, absent for a naive value. *)
Record datetime : Type := {
  dt_wall : Z;
  dt_microsecond : Z;
  dt_tzinfo : option Z
}.

Inductive timeval : Type :=
| TDatetime (d : datetime)
| TText (s : string)
| TBinary (s : string)
| TInt (ns : Z).

(** The mapping given to [make_line]; an absent key is [None]. *)
Record point : Type := {
  p_measurement : option pyval;
  p_tags : option (dict pyval);
  p_fields : option (dict pyval);
  p_time : option timeval
}.

(** What the module finds around it: whether pandas could be imported,
    the parsers of the two datetime libraries, and the local time zone
    ([time.timezone] is the offset of the zone's standard time in seconds
    west of UTC; [local_utcoffset w] is the offset in force, in seconds
    east, when the local clock reads [w]), and the order in which a [set]
    holding the given strings is iterated, which the interpreter fixes
    per process; and whether [pandas.concat] sorts the joint columns of
    frames whose columns differ, as it does before pandas 1.0. *)
Record env : Type := {
  pd_available : bool;
  pd_parse : string -> option datetime;
  ciso8601_parse_datetime : string -> option datetime;
  time_timezone : Z;
  local_utcoffset : Z -> Z;
  set_iter : list string -> list string;
  pd_concat_sorts : bool
}.

(** Nanoseconds since the epoch of a datetime whose naive reading is
    taken as UTC. *)
Definition utc_nanoseconds (d : datetime) : Z :=
  (dt_wall d - match dt_tzinfo d with Some off => off | None => 0 end)
  * 1000000000 + dt_microsecond d * 1000.

(** A [Timestamp] holds its nanoseconds in a signed 64-bit integer, whose
    least value stands for [NaT]. *)
Definition iNaT : Z := -9223372036854775808.
Definition int64_max : Z := 9223372036854775807.

Definition in_int64 (z : Z) : bool :=
  ((iNaT <=? z) && (z <=? int64_max))%Z.

(** The nanoseconds of a time that a [Timestamp] can hold. *)
Definition in_bounds (ns : Z) : bool :=
  ((iNaT <? ns) && (ns <=? int64_max))%Z.

(** [OutOfBoundsDatetime] is a [ValueError]. *)
Definition OutOfBoundsDatetime : exn :=
  ValueError "Out of bounds nanosecond timestamp".

Definition timestamp_of (d : datetime) : py Z :=
  if in_bounds (utc_nanoseconds d) then ret (utc_nanoseconds d)
  else raise OutOfBoundsDatetime.

(** [pd.Timestamp(t).value]; an integer is a number of nanoseconds, and
    the one that stands for [NaT] gives [NaT], whose value it is. *)
Definition pd_Timestamp_value (E : env) (t : timeval) : py Z :=
  match t with
  | TDatetime d => timestamp_of d
  | TText s =>
      match pd_parse E s with
      | Some d => timestamp_of d
      | None => raise (ValueError "could not convert string to Timestamp")
      end
  | TBinary _ => raise (TypeError "Cannot convert input to Timestamp")
  | TInt ns =>
      if in_int64 ns then ret ns
      else raise (OverflowError "Python int too large to convert to C long")
  end.

(** [dt.timestamp()], a float number of seconds, carried exactly as a
    count of microseconds.  A naive value is read on the local clock. *)
Definition timestamp_us (E : env) (d : datetime) : Z :=
  (dt_wall d - match dt_tzinfo d with
               | Some off => off
               | None => local_utcoffset E (dt_wall d)
               end) * 1000000 + dt_microsecond d.

(** [int(x)] of a float given in microseconds: truncation towards zero. *)
Definition int_of_us (x : Z) : Z := Z.quot x 1000000.

Section Encoder.

Variable E : env.

Definition _parse_measurement (p : point) (measurement : option pyval)
  : py string :=
  try_except
    (match p_measurement p with
     | Some m => escape m measurement_escape
     | None => raise (KeyError "measurement")
     end)
    (fun e => match e with
              | KeyError _ =>
                  Some (match measurement with
                        | None => raise (ValueError "'measurement' missing")
                        | Some m => escape m measurement_escape
                        end)
              | _ => None
              end).

(** The body of the [for] loop of [_parse_tags]; [output] is the list the
    loop appends to, and it survives an exception. *)
Fixpoint tags_loop (items : list (string * pyval)) (output : list string)
  : list string * py unit :=
  match items with
  | [] => (output, ret tt)
  | (k, v) :: rest =>
      match escape (PStr k) key_escape with
      | (w1, Raise e) => (output, (w1, Raise e))
      | (w1, Unmodelled) => (output, (w1, Unmodelled))
      | (w1, Return k') =>
          match escape v tag_escape with
          | (w2, Raise e) => (output, ((w1 ++ w2)%list, Raise e))
          | (w2, Unmodelled) => (output, ((w1 ++ w2)%list, Unmodelled))
          | (w2, Return v') =>
              let output' :=
                if negb (truthy v') then output
                else list_append output (k' ++ "=" ++ v') in
              let '(out, (w3, r)) := tags_loop rest output' in
              (out, ((w1 ++ w2 ++ w3)%list, r))
          end
      end
  end.

Definition _parse_tags (p : point) (extra_tags : dict pyval) : py string :=
  let '(output, (w, r)) :=
    match p_tags p with
    | None => ([], raise (KeyError "tags"))
    | Some tags => tags_loop (dict_merge tags extra_tags) []
    end in
  match r with
  | Return _ | Raise (KeyError _) =>
      (w, Return (match output with [] => "" | _ => join "," output end))
  | Raise e => (w, Raise e)
  | Unmodelled => (w, Unmodelled)
  end.

Definition _parse_timestamp (p : point) : py pyval :=
  match p_time p with
  | None => ret (PStr "")
  | Some dt =>
      if pd_available E then
        v <- pd_Timestamp_value E dt ;; ret (PInt v)
      else
        dt <- match dt with
              | TText s | TBinary s =>
                  match ciso8601_parse_datetime E s with
                  | None => raise (ValueError "Invalid datetime string")
                  | Some d => ret d
                  end
              | TDatetime d => ret d
              | TInt _ =>
                  raise (AttributeError "'int' object has no attribute 'tzinfo'")
              end ;;
        match dt_tzinfo dt with
        | None =>
            ret (PInt (int_of_us (timestamp_us E dt - time_timezone E * 1000000)
                       * 1000000000 + dt_microsecond dt * 1000))
        | Some _ =>
            ret (PInt (int_of_us (timestamp_us E dt) * 1000000000
                       + dt_microsecond dt * 1000))
        end
  end.

(** The loop of [_parse_fields], with the list it appends to. *)
Fixpoint fields_loop (items : list (string * pyval)) (output : list string)
  : py (list string) :=
  match items with
  | [] => ret output
  | (k, v) :: rest =>
      k <- escape (PStr k) key_escape ;;
      if isinstance_bool v then
        fields_loop rest (list_append output (k ++ "=" ++ py_str v))
      else if isinstance_int v then
        fields_loop rest (list_append output (k ++ "=" ++ py_str v ++ "i"))
      else if isinstance_str v then
        s <- method_translate v str_escape ;;
        fields_loop rest
          (list_append output (k ++ "=" ++ str1 dquote ++ s ++ str1 dquote))
      else if is_None v then
        fields_loop rest output
      else
        fields_loop rest (list_append output (k ++ "=" ++ py_str v))
  end.

Definition _parse_fields (p : point) : py string :=
  match p_fields p with
  | None => raise (KeyError "fields")
  | Some fields =>
      output <- fields_loop fields [] ;;
      ret (join "," output)
  end.

Definition make_line (p : point) (measurement : option pyval)
  (extra_tags : dict pyval) : py string :=
  tags <- _parse_tags p extra_tags ;;
  if truthy tags then
    m <- _parse_measurement p measurement ;;
    f <- _parse_fields p ;;
    t <- _parse_timestamp p ;;
    ret (m ++ "," ++ tags ++ " " ++ f ++ " " ++ py_str t)
  else
    m <- _parse_measurement p measurement ;;
    f <- _parse_fields p ;;
    t <- _parse_timestamp p ;;
    ret (m ++ " " ++ f ++ " " ++ py_str t).

End Encoder.


(* ================================================================== *)
(** ** Tables (pandas [DataFrame])                                    *)
(* ================================================================== *)

(** What a cell of a column is when a row is iterated.  A float that is
    not NaN is carried with its text. *)
Inductive cell : Type :=
| CInt (z : Z)
| CFloat (text : string)
| CNaN
| CBool (b : bool)
| CStr (s : string)
| CNone.

(** Column types, as far as [parse_df] tells them apart. *)
Inductive dtype : Type :=
| DInteger
| DFloat64
| DFloat32
| DBool
| DObject
| DCategorical (categories : list cell).

Inductive index_type : Type := DatetimeIndex | RangeIndex | ObjectIndex.

(** An index label: a timestamp with its nanosecond [value], or a
    position. *)
Inductive label : Type :=
| LTime (ns : Z)
| LInt (i : Z).

Record DataFrame : Type := {
  df_index_type : index_type;
  df_columns : list (string * dtype);
  df_rows : list (label * list cell)
}.

(** [format(c)] *)
Definition cell_str (c : cell) : string :=
  match c with
  | CInt z => str_of_int z
  | CFloat text => text
  | CNaN => "nan"
  | CBool true => "True"
  | CBool false => "False"
  | CStr s => s
  | CNone => "None"
  end.

Definition cell_isnull (c : cell) : bool :=
  match c with CNaN | CNone => true | _ => false end.

(** One entry of [df.isnull().any(axis=1)] *)
Definition row_isnull (r : label * list cell) : bool :=
  existsb cell_isnull (snd r).

Definition is_categorical (d : dtype) : bool :=
  match d with DCategorical _ => true | _ => false end.

Definition is_object (d : dtype) : bool :=
  match d with DObject => true | _ => false end.

(** [itertuples(df)]: the rows as tuples, the index label first. *)
Definition itertuples (df : DataFrame) : list (label * list cell) :=
  df_rows df.

(** [df[mask]] for a mask computed row by row *)
Definition mask_rows (mask : label * list cell -> bool) (df : DataFrame)
  : DataFrame :=
  {| df_index_type := df_index_type df;
     df_columns := df_columns df;
     df_rows := filter mask (df_rows df) |}.

(** [p[0].value] *)
Definition label_value (l : label) : py Z :=
  match l with
  | LTime ns => ret ns
  | LInt _ => raise (AttributeError "'int' object has no attribute 'value'")
  end.

(** *** [re.sub] for the patterns of [make_replacements] *)

Fixpoint first_match (alts : list string) (s : string) : option string :=
  match alts with
  | [] => None
  | a :: alts' => if String.prefix a s then Some a else first_match alts' s
  end.

(** [re.sub('a1|a2|...', repl, s)] for literal alternatives: at each
    position from the left the first alternative that matches there is
    replaced and the scan resumes behind it.  [skip] counts the characters
    of the current match still to pass. *)
Fixpoint sub_alts (alts : list string) (repl : string) (skip : nat)
  (s : string) : string :=
  match s with
  | EmptyString =>
      match skip, first_match alts EmptyString with
      | O, Some _ => repl
      | _, _ => EmptyString
      end
  | String c rest =>
      match skip with
      | S k => sub_alts alts repl k rest
      | O =>
          match first_match alts s with
          | Some a =>
              match String.length a with
              | O => repl ++ String c (sub_alts alts repl O rest)
              | S n => repl ++ sub_alts alts repl n rest
              end
          | None => String c (sub_alts alts repl O rest)
          end
      end
  end.

(** [re.sub(',{2,}', repl, s)]: a maximal run of two or more commas is
    replaced, a single comma stays.  [run] counts the commas of the run
    being read. *)
Definition flush_commas (repl : string) (run : nat) : string :=
  match run with
  | O => EmptyString
  | S O => ","
  | S (S _) => repl
  end.

Fixpoint sub_comma_runs (repl : string) (run : nat) (s : string) : string :=
  match s with
  | EmptyString => flush_commas repl run
  | String c rest =>
      if Ascii.eqb c ","%char then sub_comma_runs repl (S run) rest
      else flush_commas repl run ++ String c (sub_comma_runs repl O rest)
  end.

Inductive pattern : Type :=
| Alternation (alts : list string)
| CommaRun.

(** [re.sub(pattern, repl, a)] with [b] the pair of pattern and [repl] *)
Definition re_sub (b : pattern * string) (a : string) : string :=
  match fst b with
  | Alternation alts => sub_alts alts (snd b) O a
  | CommaRun => sub_comma_runs (snd b) O a
  end.

(** [dict(df.dtypes)]: of two columns with one name the later type stays. *)
Definition dtypes_dict (df : DataFrame) : dict dtype :=
  dict_merge (df_columns df) [].

Definition make_replacements (E : env) (df : DataFrame)
  : list (pattern * string) :=
  let obj_cols :=
    map fst (filter (fun kv => is_object (snd kv)) (dtypes_dict df)) in
  let other_cols :=
    filter (fun k => negb (existsb (String.eqb k) obj_cols))
      (map fst (df_columns df)) in
  let obj_nans :=
    map (fun k => k ++ "=" ++ str1 dquote ++ "nan" ++ str1 dquote)
        (set_iter E obj_cols) in
  let other_nans := map (fun k => k ++ "=nan") (set_iter E other_cols) in
  [ (Alternation (obj_nans ++ other_nans)%list, "");
    (CommaRun, ",");
    (Alternation [", ,"; ", "; " ,"], " ") ].

(* ================================================================== *)
(** ** [parse_df] and [parse_data]                                    *)
(* ================================================================== *)

(** [s.encode('utf-8')] *)
Fixpoint encode_utf8 (s : string) : string :=
  match s with
  | EmptyString => EmptyString
  | String c rest =>
      let n := nat_of_ascii c in
      if (n <? 128)%nat then String c (encode_utf8 rest)
      else String (ascii_of_nat (192 + n / 64))
             (String (ascii_of_nat (128 + n mod 64)) (encode_utf8 rest))
  end.

(** A format string: literal text and [{}] replacement fields. *)
Inductive piece : Type :=
| Lit (s : string)
| Hole.

(** [fmt.format] applied to the argument tuple [args] *)
Fixpoint format (fmt : list piece) (args : list string) : py string :=
  match fmt with
  | [] => ret ""
  | Lit s :: fmt' => r <- format fmt' args ;; ret (s ++ r)
  | Hole :: fmt' =>
      match args with
      | [] => raise (IndexError "tuple index out of range")
      | a :: args' => r <- format fmt' args' ;; ret (a ++ r)
      end
  end.

(** [sep.join(fmts)] on format strings *)
Fixpoint join_fmt (sep : string) (fmts : list (list piece)) : list piece :=
  match fmts with
  | [] => []
  | [f] => f
  | f :: fmts' => (f ++ Lit sep :: join_fmt sep fmts')%list
  end.

(** The argument expressions of the generated row function:
    a quoted constant, or [p[i + 1]]. *)
Inductive argexpr : Type :=
| AConst (text : string)
| ACol (i : nat).

Definition eval_arg (p : label * list cell) (a : argexpr) : py string :=
  match a with
  | AConst text => ret text
  | ACol i =>
      match nth_error (snd p) i with
      | Some c => ret (cell_str c)
      | None => raise (IndexError "tuple index out of range")
      end
  end.

Fixpoint mapM {A B} (f : A -> py B) (l : list A) : py (list B) :=
  match l with
  | [] => ret []
  | a :: l' => b <- f a ;; bs <- mapM f l' ;; ret (b :: bs)
  end.

Fixpoint free_of (bad : string) (s : string) : bool :=
  match s with
  | EmptyString => true
  | String c rest => negb (contains_char c bad) && free_of bad rest
  end.

Definition NUL : ascii := "000"%char.
Definition CR : ascii := "013"%char.

(** Text that stands for itself between single quotes in the source the
    row function is compiled from, and inside a format string. *)
Definition literal_safe (s : string) : bool :=
  free_of ("'{}" ++ str1 backslash ++ str1 newline ++ str1 CR ++ str1 NUL) s.

(** A column name that key escaping leaves fit for that source: the
    escapes it adds are kept by the compiler as they are. *)
Definition column_safe (s : string) : bool :=
  free_of ("'{}" ++ str1 backslash ++ str1 CR ++ str1 NUL) s.

(** A value whose escaped text stands for itself between double quotes. *)
Definition constant_safe (s : string) : bool :=
  free_of (str1 dquote ++ str1 backslash ++ str1 CR ++ str1 NUL) s.

(** A column name that is a regular expression for itself. *)
Definition regex_safe (s : string) : bool :=
  free_of (".^$*+?{}[]|()" ++ str1 backslash) s.

Definition unmodelled {A} : py A := ([], Unmodelled).

Section TableEncoder.

Variable E : env.

(** The first loop of [parse_df], over the extra tags. *)
Fixpoint extra_tags_loop (items : list (string * pyval))
  (tags : list (list piece * argexpr)) : py (list (list piece * argexpr)) :=
  match items with
  | [] => ret tags
  | (k, v) :: rest =>
      v' <- escape v key_escape ;;
      extra_tags_loop rest (list_append tags ([Lit (k ++ "="); Hole], AConst v'))
  end.

(** The second loop, over the columns, [i] being the position. *)
Fixpoint columns_loop (tag_columns : list string)
  (cols : list (string * dtype)) (i : nat)
  (tags fields : list (list piece * argexpr))
  : list (list piece * argexpr) * list (list piece * argexpr) :=
  match cols with
  | [] => (tags, fields)
  | (k, v) :: rest =>
      let k := translate k key_escape in
      if existsb (String.eqb k) tag_columns then
        columns_loop tag_columns rest (S i)
          (list_append tags ([Lit (k ++ "="); Hole], ACol i)) fields
      else match v with
      | DInteger =>
        columns_loop tag_columns rest (S i) tags
          (list_append fields ([Lit (k ++ "="); Hole; Lit "i"], ACol i))
      | DFloat64 | DBool =>
        columns_loop tag_columns rest (S i) tags
          (list_append fields ([Lit (k ++ "="); Hole], ACol i))
      | _ =>
        columns_loop tag_columns rest (S i) tags
          (list_append fields
             ([Lit (k ++ "=" ++ str1 dquote); Hole; Lit (str1 dquote)], ACol i))
      end
  end.

(** The compiled row function [f]. *)
Definition row_function (fmt_0 fmt_1 : list piece)
  (tags fields : list (list piece * argexpr)) (p : label * list cell)
  : py string :=
  tags_val <- mapM (eval_arg p) (map snd tags) ;;
  fields_val <- mapM (eval_arg p) (map snd fields) ;;
  t <- label_value (fst p) ;;
  format (fmt_0 ++ Lit " " :: fmt_1 ++ [Lit " "; Hole])%list
         (tags_val ++ fields_val ++ [str_of_int t])%list.

Definition parse_df (df : DataFrame) (measurement : pyval)
  (tag_columns : option (list string)) (extra_tags : dict pyval) : py string :=
  (* Pre-processing *)
  match df_index_type df with
  | DatetimeIndex =>
    let tag_columns :=
      (match tag_columns with Some l => l | None => [] end
       ++ map fst (filter (fun kv => is_categorical (snd kv)) (df_columns df)))%list in
    let isnull := map row_isnull (df_rows df) in
    (* Make parser function *)
    tags <- extra_tags_loop extra_tags [] ;;
    let '(tags, fields) := columns_loop tag_columns (df_columns df) O tags [] in
    let fmt_0 :=
      (Lit (py_str measurement)
       :: Lit (match tags with [] => "" | _ => "," end)
       :: join_fmt "," (map fst tags))%list in
    let fmt_1 := join_fmt "," (map fst fields) in
    if negb (literal_safe (py_str measurement)
             && forallb (fun kv => literal_safe (fst kv)) extra_tags
             && forallb (fun kv => constant_safe (py_str (snd kv))) extra_tags
             && forallb (fun kv => column_safe (fst kv)) (df_columns df))
    then unmodelled else
    let f := row_function fmt_0 fmt_1 tags fields in
    (* Map/concat *)
    if existsb (fun b => b) isnull then
      if negb (forallb (fun kv => regex_safe (fst kv)) (df_columns df))
      then unmodelled else
      lp <- mapM f (itertuples (mask_rows (fun p => negb (row_isnull p)) df)) ;;
      let rep := make_replacements E df in
      lp_nan <- mapM (fun p => line <- f p ;;
                               ret (fold_left (fun a b => re_sub b a) rep line))
                  (itertuples (mask_rows row_isnull df)) ;;
      ret (encode_utf8 (join (str1 newline) (lp ++ lp_nan)%list))
    else
      lines <- mapM f (itertuples df) ;;
      ret (encode_utf8 (join (str1 newline) lines))
  | _ => raise (ValueError "DataFrame index is not DatetimeIndex")
  end.

End TableEncoder.

(** What [parse_data] can be given, as far as its tests tell objects
    apart.  [DIter] is an iterable that is none of the four before it (a
    list, a tuple, a generator), [DOther] an object without [__iter__],
    such as a number or [None]. *)
Inductive data : Type :=
| DBytes (b : string)
| DStr (s : string)
| DFrame (df : DataFrame)
| DDict (p : point)
| DIter (items : list data)
| DOther.

(** The [isinstance] tests, each with the object seen as an instance of
    the class.  The four classes exclude one another. *)
Definition as_bytes (d : data) : option string :=
  match d with DBytes b => Some b | _ => None end.

Definition as_str (d : data) : option string :=
  match d with DStr s => Some s | _ => None end.

Definition as_DataFrame (d : data) : option DataFrame :=
  match d with DFrame df => Some df | _ => None end.

Definition as_dict (d : data) : option point :=
  match d with DDict p => Some p | _ => None end.

(** [hasattr(data, '__iter__')]: bytes, texts, frames and dicts have the
    attribute as well, so that the order of the tests matters. *)
Definition hasattr_iter (d : data) : bool :=
  match d with DOther => false | _ => true end.

(** The keys of a point, in the order of the record. *)
Definition point_keys (p : point) : list string :=
  ((match p_measurement p with Some _ => ["measurement"] | None => [] end)
   ++ (match p_tags p with Some _ => ["tags"] | None => [] end)
   ++ (match p_fields p with Some _ => ["fields"] | None => [] end)
   ++ (match p_time p with Some _ => ["time"] | None => [] end))%list.

(** What a [for] loop over the object yields: the items of an iterable,
    the characters of a text, the integers of a bytes object, the keys of
    a dict, the column labels of a frame. *)
Definition py_iter (d : data) : list data :=
  match d with
  | DIter items => items
  | DStr s => map (fun c => DStr (str1 c)) (list_ascii_of_string s)
  | DBytes b => map (fun _ => DOther) (list_ascii_of_string b)
  | DDict p => map DStr (point_keys p)
  | DFrame df => map (fun kv => DStr (fst kv)) (df_columns df)
  | DOther => []
  end.

Definition MissingMeasurement : exn := ValueError "Missing 'measurement'".
Definition UnsupportedInputType : exn := ValueError "Invalid input".

(** [parse_data] on an element that holds no further element: a text, a
    bytes object, or an object without [__iter__]. *)
Definition parse_element (d : data) : py string :=
  match d with
  | DBytes b => ret b
  | DStr s => ret (encode_utf8 s)
  | _ => raise UnsupportedInputType
  end.

Section Dispatch.

Variable E : env.

(** The tests are made in the order of the source.  In the last but one
    branch the elements of a list are given to [parse_data] again; the
    elements of any other object that gets there are texts or integers
    ([parse_element]). *)
Fixpoint parse_data (d : data) (measurement : option pyval)
  (tag_columns : option (list string)) (extra_tags : dict pyval) {struct d}
  : py string :=
  match as_bytes d with
  | Some b => ret b
  | None =>
  match as_str d with
  | Some s => ret (encode_utf8 s)
  | None =>
  match (if pd_available E then as_DataFrame d else None) with
  | Some df =>
      match measurement with
      | None => raise MissingMeasurement
      | Some m => parse_df E df m tag_columns extra_tags
      end
  | None =>
  match as_dict d with
  | Some p =>
      line <- make_line E p measurement extra_tags ;;
      ret (encode_utf8 line)
  | None =>
      if hasattr_iter d then
        parts <- match d with
                 | DIter items =>
                     (fix each (l : list data) : py (list string) :=
                        match l with
                        | [] => ret []
                        | i :: l' =>
                            b <- parse_data i measurement tag_columns
                                   extra_tags ;;
                            bs <- each l' ;;
                            ret (b :: bs)
                        end) items
                 | _ => mapM parse_element (py_iter d)
                 end ;;
        ret (join (str1 newline) parts)
      else raise UnsupportedInputType
  end end end end.

End Dispatch.


(* ================================================================== *)
(** ** [make_df]: the response decoder                                *)
(* ================================================================== *)

(** The JSON response; an absent key is [None]. *)
Record series : Type := {
  s_name : option string;
  s_tags : option (dict string);
  s_columns : option (list string);
  s_values : option (list (list cell))
}.

Record statement : Type := { st_series : option (list series) }.

Record response : Type := { r_results : option (list statement) }.

(** The key a table is filed under: the series name and the items of its
    tags, in the order of the mapping. *)
Definition key : Type := (string * list (string * string))%type.

(** Comparison of two-element tuples: the first components decide unless
    they are equal. *)
Definition lex_compare {A B} (ca : A -> A -> comparison)
  (cb : B -> B -> comparison) (a b : A * B) : comparison :=
  match ca (fst a) (fst b) with
  | Eq => cb (snd a) (snd b)
  | c => c
  end.

Definition pair_compare : string * string -> string * string -> comparison :=
  lex_compare String.compare String.compare.

(** Comparison of the key tuples, component by component from the left. *)
Definition key_compare : key -> key -> comparison :=
  lex_compare String.compare (list_compare pair_compare).

Definition key_lt (a b : key) : bool :=
  match key_compare a b with Lt => true | _ => false end.

Definition key_eqb (a b : key) : bool :=
  match key_compare a b with Eq => true | _ => false end.

(** *** [sorted] *)

(** [sorted] is stable: an element goes before the first one that is not
    smaller than it, so equal keys keep the order they came in. *)
Fixpoint insert_by {A} (lt : A -> A -> bool) (x : A) (l : list A) : list A :=
  match l with
  | [] => [x]
  | y :: l' => if lt y x then y :: insert_by lt x l' else x :: y :: l'
  end.

Definition sorted {A} (lt : A -> A -> bool) (l : list A) : list A :=
  fold_right (insert_by lt) [] l.

(** *** The pandas operations the decoder calls

    They are modelled as far as the decoder depends on them: which rows
    and labels a table has, in which order, under which columns, and what
    pandas makes of the cells when it settles the type of a column. *)

Definition positional (n : nat) : list label :=
  map (fun i => LInt (Z.of_nat i)) (seq 0 n).

Definition is_str_cell (c : cell) : bool :=
  match c with CStr _ => true | _ => false end.
Definition is_bool_cell (c : cell) : bool :=
  match c with CBool _ => true | _ => false end.
Definition is_float_cell (c : cell) : bool :=
  match c with CFloat _ | CNaN => true | _ => false end.
Definition is_int_cell (c : cell) : bool :=
  match c with CInt _ => true | _ => false end.
Definition is_None_cell (c : cell) : bool :=
  match c with CNone => true | _ => false end.

(** The type pandas settles on for a column of Python objects: a text
    anywhere keeps the objects; booleans make a boolean column on their
    own only; numbers make a float column when one of them is a float, or
    when an integer stands beside a null, else an integer column; nulls on
    their own stay objects. *)
Definition infer_dtype (cells : list cell) : dtype :=
  if existsb is_str_cell cells then DObject
  else if existsb is_bool_cell cells then
    if forallb is_bool_cell cells then DBool else DObject
  else if existsb is_float_cell cells then DFloat64
  else if existsb is_int_cell cells then
    if existsb is_None_cell cells then DFloat64 else DInteger
  else DObject.

(** A float holds an integer as it is up to 2^53, and is written with one
    decimal then. *)
Definition float_holds (z : Z) : bool := (Z.abs z <=? 9007199254740992)%Z.

Definition float_text (z : Z) : string := str_of_int z ++ ".0".

(** The cell under the type of its column: in a float column an integer
    becomes a float and a null becomes NaN.  An integer that a float does
    not hold as it is, or that an integer column does not hold, is left
    out. *)
Definition cast_cell (d : dtype) (c : cell) : py cell :=
  match d, c with
  | DFloat64, CInt z =>
      if float_holds z then ret (CFloat (float_text z)) else unmodelled
  | DFloat64, CNone => ret CNaN
  | DInteger, CInt z => if in_int64 z then ret c else unmodelled
  | _, _ => ret c
  end.

Definition cast_row (dtypes : list dtype) (row : list cell) : py (list cell) :=
  mapM (fun dc => cast_cell (fst dc) (snd dc)) (combine dtypes row).

Definition column_cells (i : nat) (rows : list (list cell)) : list cell :=
  map (fun r => nth i r CNaN) rows.

Definition max_length (rows : list (list cell)) : nat :=
  fold_right (fun r m => Nat.max (List.length r) m) O rows.

(** A short row is filled up with nulls. *)
Definition pad_row (k : nat) (r : list cell) : list cell :=
  (r ++ repeat CNone (k - List.length r))%list.

Definition str_of_nat (n : nat) : string := str_of_int (Z.of_nat n).

(** [pd.DataFrame(values, columns=columns)] for a list of lists.  Without
    rows the table has the columns asked for.  With rows, the longest row
    decides how many columns the data has, and that must be the number of
    names; the exception is a [ValueError] from pandas 1.0 on. *)
Definition pd_DataFrame (values : list (list cell)) (columns : list string)
  : py DataFrame :=
  match values with
  | [] => ret {| df_index_type := ObjectIndex;
                 df_columns := map (fun k => (k, DObject)) columns;
                 df_rows := [] |}
  | _ =>
      if Nat.eqb (max_length values) (List.length columns) then
        let padded := map (pad_row (List.length columns)) values in
        let dtypes := map (fun i => infer_dtype (column_cells i padded))
                          (seq 0 (List.length columns)) in
        rows <- mapM (cast_row dtypes) padded ;;
        ret {| df_index_type := RangeIndex;
               df_columns := combine columns dtypes;
               df_rows := combine (positional (List.length values)) rows |}
      else raise (ValueError (str_of_nat (List.length columns)
                              ++ " columns passed, passed data had "
                              ++ str_of_nat (max_length values) ++ " columns"))
  end.

Fixpoint index_of (k : string) (l : list string) : option nat :=
  match l with
  | [] => None
  | x :: l' =>
      if String.eqb x k then Some O
      else match index_of k l' with Some i => Some (S i) | None => None end
  end.

Fixpoint remove_nth {A} (i : nat) (l : list A) : list A :=
  match l, i with
  | [], _ => []
  | _ :: l', O => l'
  | x :: l', S j => x :: remove_nth j l'
  end.

Fixpoint replace_nth {A} (i : nat) (a : A) (l : list A) : list A :=
  match l, i with
  | [], _ => []
  | _ :: l', O => a :: l'
  | x :: l', S j => x :: replace_nth j a l'
  end.

(** One element of [pd.to_datetime(column)] followed by
    [tz_localize('UTC')], which refuses a time that carries a zone.  An
    integer is a number of nanoseconds; a float in the column, and an
    integer that 64 bits do not hold, are left out. *)
Definition to_datetime_utc (E : env) (c : cell) : py label :=
  match c with
  | CInt z => if in_int64 z then ret (LTime z) else unmodelled
  | CNone | CNaN => ret (LTime iNaT)
  | CStr s =>
      match pd_parse E s with
      | Some d =>
          if in_bounds (utc_nanoseconds d) then
            match dt_tzinfo d with
            | None => ret (LTime (utc_nanoseconds d))
            | Some _ =>
                raise (TypeError "Already tz-aware, use tz_convert to convert.")
            end
          else raise OutOfBoundsDatetime
      | None => raise (ValueError "Unknown string format")
      end
  | CFloat _ => unmodelled
  | CBool _ => raise (TypeError "bool is not convertible to datetime")
  end.

(** [df.set_index(pd.to_datetime(df['time'])).drop('time', axis=1)] with
    the index localized to UTC, [i] being the position of the column. *)
Definition set_time_index (E : env) (i : nat) (df : DataFrame) : py DataFrame :=
  rows <- mapM (fun r => l <- to_datetime_utc E (nth i (snd r) CNaN) ;;
                         ret (l, remove_nth i (snd r)))
            (df_rows df) ;;
  ret {| df_index_type := DatetimeIndex;
         df_columns := remove_nth i (df_columns df);
         df_rows := rows |}.

(** [df[k] = v] for a scalar [v] *)
Definition set_column (k : string) (v : cell) (df : DataFrame) : DataFrame :=
  match index_of k (map fst (df_columns df)) with
  | Some i =>
      {| df_index_type := df_index_type df;
         df_columns := replace_nth i (k, infer_dtype [v]) (df_columns df);
         df_rows := map (fun r => (fst r, replace_nth i v (snd r))) (df_rows df) |}
  | None =>
      {| df_index_type := df_index_type df;
         df_columns := list_append (df_columns df) (k, infer_dtype [v]);
         df_rows := map (fun r => (fst r, list_append (snd r) v)) (df_rows df) |}
  end.

(** Column names of the frames in order of first appearance. *)
Fixpoint union_columns (seen : list string) (cols : list string)
  : list string :=
  match cols with
  | [] => seen
  | k :: cols' =>
      if existsb (String.eqb k) seen then union_columns seen cols'
      else union_columns (list_append seen k) cols'
  end.

(** The type two stacked pieces of a column end up with; [None] is a
    piece filled with NaN because a frame lacks the column. *)
Definition is_number_type (d : dtype) : bool :=
  match d with DInteger | DFloat64 | DFloat32 => true | _ => false end.

Definition promote (a b : option dtype) : option dtype :=
  match a, b with
  | Some DInteger, Some DInteger => Some DInteger
  | Some DBool, Some DBool => Some DBool
  | None, None => None
  | Some x, None | None, Some x =>
      if is_number_type x then Some DFloat64 else Some DObject
  | Some x, Some y =>
      if is_number_type x && is_number_type y then Some DFloat64
      else Some DObject
  end.

(** The cells of [row], a row of [df], under the columns [cols]; a column
    [df] does not have is filled with NaN. *)
Definition realign (cols : list string) (df : DataFrame) (row : list cell)
  : list cell :=
  map (fun c => match index_of c (map fst (df_columns df)) with
                | Some i => nth i row CNaN
                | None => CNaN
                end) cols.

Definition is_datetime_index (df : DataFrame) : bool :=
  match df_index_type df with DatetimeIndex => true | _ => false end.

Definition concat_columns (frames : list DataFrame) : list string :=
  fold_left union_columns (map (fun df => map fst (df_columns df)) frames) [].

Fixpoint names_eqb (a b : list string) : bool :=
  match a, b with
  | [], [] => true
  | x :: a', y :: b' => String.eqb x y && names_eqb a' b'
  | _, _ => false
  end.

Fixpoint distinct (l : list string) : bool :=
  match l with
  | [] => true
  | x :: l' => negb (existsb (String.eqb x) l') && distinct l'
  end.

Definition string_ltb (a b : string) : bool :=
  match String.compare a b with Lt => true | _ => false end.

(** Whether every frame has the columns of the first, in its order. *)
Definition aligned (frames : list DataFrame) : bool :=
  match frames with
  | [] => true
  | first :: others =>
      forallb (fun df => names_eqb (map fst (df_columns df))
                                   (map fst (df_columns first))) others
  end.

(** The columns of the stacked table: those of the frames when they are
    aligned; else every name once, in order of first appearance, or sorted
    where pandas sorts them. *)
Definition joint_columns (E : env) (frames : list DataFrame) : list string :=
  match frames with
  | [] => []
  | first :: _ =>
      if aligned frames then map fst (df_columns first)
      else if pd_concat_sorts E then sorted string_ltb (concat_columns frames)
      else concat_columns frames
  end.

(** Where a row of [df] has the cell of each joint column: at the same
    position when the frames are aligned, else under the same name, and
    nowhere when [df] lacks the column. *)
Definition picks (cols : list string) (is_aligned : bool) (df : DataFrame)
  : list (option nat) :=
  if is_aligned then map Some (seq 0 (List.length cols))
  else map (fun c => index_of c (map fst (df_columns df))) cols.

(** A column the frame lacks is filled with NaN. *)
Definition pick_cell (row : list cell) (p : option nat) : cell :=
  match p with
  | Some i => nth i row CNaN
  | None => CNaN
  end.

Definition pick_dtype (df : DataFrame) (p : option nat) : option dtype :=
  match p with
  | Some i => option_map snd (nth_error (df_columns df) i)
  | None => None
  end.

Definition joint_dtype (pieces : list (option dtype)) : dtype :=
  match pieces with
  | [] => DObject
  | t :: ts =>
      match fold_left promote ts t with
      | Some d => d
      | None => DFloat64
      end
  end.

(** [pd.concat(frames, axis=0)].  The cells follow the type of the joint
    column.  Frames that are not aligned are reindexed by name, which
    pandas refuses when a name comes twice in a frame: that error is left
    out. *)
Definition pd_concat (E : env) (frames : list DataFrame) : py DataFrame :=
  match frames with
  | [] => raise (ValueError "No objects to concatenate")
  | first :: others =>
      let al := aligned frames in
      if negb al
         && negb (forallb (fun df => distinct (map fst (df_columns df))) frames)
      then unmodelled
      else
        let cols := joint_columns E frames in
        let dtypes :=
          map (fun j => joint_dtype
                          (map (fun df => pick_dtype df (nth j (picks cols al df) None))
                               frames))
              (seq 0 (List.length cols)) in
        rows <- mapM (fun fr =>
                        cells <- cast_row dtypes
                                   (map (pick_cell (snd (snd fr)))
                                        (picks cols al (fst fr))) ;;
                        ret (fst (snd fr), cells))
                  (flat_map (fun df => map (fun r => (df, r)) (df_rows df))
                            frames) ;;
        ret {| df_index_type :=
                 if forallb is_datetime_index frames then DatetimeIndex
                 else match others with
                      | [] => df_index_type first
                      | _ => ObjectIndex
                      end;
               df_columns := combine cols dtypes;
               df_rows := rows |}
  end.

(** [df.reset_index(drop=True, inplace=True)] *)
Definition reset_index (df : DataFrame) : DataFrame :=
  {| df_index_type := RangeIndex;
     df_columns := df_columns df;
     df_rows := combine (positional (List.length (df_rows df)))
                        (map snd (df_rows df)) |}.

Definition cell_eqb (a b : cell) : bool :=
  match a, b with
  | CInt x, CInt y => Z.eqb x y
  | CFloat x, CFloat y => String.eqb x y
  | CBool x, CBool y => Bool.eqb x y
  | CStr x, CStr y => String.eqb x y
  | CNone, CNone => true
  | _, _ => false
  end.

(** A row after [df[col] = df[col].astype(CategoricalDtype(categories=tags))]
    for the column at position [i]: a value outside the categories becomes
    NaN. *)
Definition cells_astype (i : nat) (tags : list cell) (cells : list cell)
  : list cell :=
  match nth_error cells i with
  | Some c =>
      if existsb (cell_eqb c) tags then cells else replace_nth i CNaN cells
  | None => cells
  end.

Definition astype_categorical (i : nat) (tags : list cell) (df : DataFrame)
  : DataFrame :=
  {| df_index_type := df_index_type df;
     df_columns :=
       match nth_error (df_columns df) i with
       | Some (k, _) => replace_nth i (k, DCategorical tags) (df_columns df)
       | None => df_columns df
       end;
     df_rows := map (fun r => (fst r, cells_astype i tags (snd r))) (df_rows df) |}.

(** *** The grouping dict *)

(** [d[k].append(df)] on a [defaultdict(list)] *)
Fixpoint group_append {V} (k : key) (v : V) (d : list (key * list V))
  : list (key * list V) :=
  match d with
  | [] => [(k, [v])]
  | (k', vs) :: d' =>
      if key_eqb k' k then (k', list_append vs v) :: d'
      else (k', vs) :: group_append k v d'
  end.

Definition group_sorted {V} (l : list (key * V)) : list (key * list V) :=
  fold_left (fun d x => group_append (fst x) (snd x) d)
    (sorted (fun a b => key_lt (fst a) (fst b)) l) [].

(** What [make_df] returns: the one table, or the dict of tables. *)
Inductive decoded : Type :=
| Single (df : DataFrame)
| Tables (dfs : list (key * DataFrame)).

Section Decoder.

Variable E : env.

Definition maker (s : series) : py DataFrame :=
  values <- match s_values s with
            | Some v => ret v
            | None => raise (KeyError "values")
            end ;;
  columns <- match s_columns s with
             | Some c => ret c
             | None => raise (KeyError "columns")
             end ;;
  df <- pd_DataFrame values columns ;;
  match index_of "time" columns with
  | None => ret df
  | Some i =>
      if (1 <? List.length (filter (String.eqb "time") columns))%nat
      then raise (ValueError "to assemble mappings requires at least that [year, month, day] be specified")
      else
        df <- set_time_index E i df ;;
        let df :=
          match s_tags s with
          | Some tags => fold_left (fun df kv => set_column (fst kv) (CStr (snd kv)) df) tags df
          | None => df
          end in
        ret df
  end.

(** The key and table of one series. *)
Definition parse_series (s : series) : py (key * DataFrame) :=
  name <- match s_name s with
          | Some n => ret n
          | None => raise (KeyError "name")
          end ;;
  df <- maker s ;;
  ret ((name, match s_tags s with Some t => t | None => [] end), df).

(** [# Parsing] *)
Definition parsing (resp : response) : py (list (key * DataFrame)) :=
  results <- match r_results resp with
             | Some r => ret r
             | None => raise (KeyError "results")
             end ;;
  mapM parse_series
    (flat_map (fun st => match st_series st with Some l => l | None => [] end)
       results).

(** [# Concatenation] *)
Definition concatenation (df_list : list (key * DataFrame))
  : py (list (key * DataFrame)) :=
  mapM (fun kv => df <- pd_concat E (snd kv) ;; ret (fst kv, df))
    (group_sorted df_list).

Fixpoint all_zero (labels : list label) : py bool :=
  match labels with
  | [] => ret true
  | l :: rest =>
      v <- label_value l ;;
      if Z.eqb v 0 then all_zero rest else ret false
  end.

Definition drop_zero_index (df : DataFrame) : py DataFrame :=
  match df_index_type df with
  | DatetimeIndex =>
      z <- all_zero (map fst (df_rows df)) ;;
      if z then ret (reset_index df) else ret df
  | _ => ret df
  end.

Definition apply_tag_cache (cache : dict (list cell)) (df : DataFrame)
  : DataFrame :=
  fold_left (fun df ct =>
               match index_of (fst ct) (map fst (df_columns df)) with
               | None => df
               | Some i => astype_categorical i (snd ct) df
               end) cache df.

(** [# Post-processing]; the loop changes the tables of the dict in
    place. *)
Definition post_processing (tag_cache : option (dict (dict (list cell))))
  (dfs : list (key * DataFrame)) : py (list (key * DataFrame)) :=
  mapM (fun kv =>
          df <- drop_zero_index (snd kv) ;;
          match tag_cache with
          | None | Some [] => ret (fst kv, df)
          | Some cache =>
              match dict_get (fst (fst kv)) cache with
              | None => ret (fst kv, df)
              | Some cols => ret (fst kv, apply_tag_cache cols df)
              end
          end) dfs.

Definition make_df (resp : response)
  (tag_cache : option (dict (dict (list cell)))) : py decoded :=
  if negb (pd_available E)
  then raise (AttributeError "'NoneType' object has no attribute 'DataFrame'")
  else
    df_list <- parsing resp ;;
    dfs <- concatenation df_list ;;
    dfs <- post_processing tag_cache dfs ;;
    match dfs with
    | [(_, df)] => ret (Single df)
    | _ => ret (Tables dfs)
    end.

End Decoder.


(* ================================================================== *)
(** ** Reference renderings and sample inputs                         *)
(* ================================================================== *)

Definition isinstance_bytes (v : pyval) : bool :=
  match v with PBytes _ => true | _ => false end.

(** The token of one field by the type of its value; a null value gives
    no token. *)
Definition field_tokens (kv : string * pyval) : list string :=
  let k := translate (fst kv) key_escape in
  match snd kv with
  | PBool b => [k ++ "=" ++ (if b then "True" else "False")]
  | PInt z => [k ++ "=" ++ str_of_int z ++ "i"]
  | PStr s => [k ++ "=" ++ str1 dquote ++ translate s str_escape ++ str1 dquote]
  | PNone => []
  | PFloat text => [k ++ "=" ++ text]
  | PBytes raw => [k ++ "=" ++ bytes_repr raw]
  end.

(** The same with booleans in lower case, as the specification words
    it. *)
Definition spec_field_tokens (kv : string * pyval) : list string :=
  match snd kv with
  | PBool b =>
      [translate (fst kv) key_escape ++ "=" ++ (if b then "true" else "false")]
  | _ => field_tokens kv
  end.

(** The token of one tag: none when the escaped text of the value is
    empty. *)
Definition tag_tokens (kv : string * pyval) : list string :=
  let v := translate (py_str (snd kv)) tag_escape in
  if truthy v then [translate (fst kv) key_escape ++ "=" ++ v] else [].

Definition tag_warnings (kv : string * pyval) : list warning :=
  if isinstance_str (snd kv) then [] else [non_string_warning].

(** The same with a null value dropped, as the specification words it. *)
Definition spec_tag_tokens (kv : string * pyval) : list string :=
  match snd kv with
  | PNone => []
  | _ => tag_tokens kv
  end.

(** An interpreter with pandas, on a clock that keeps UTC. *)
Definition env_utc : env :=
  {| pd_available := true;
     pd_parse := fun _ => None;
     ciso8601_parse_datetime := fun _ => None;
     time_timezone := 0;
     local_utcoffset := fun _ => 0;
     set_iter := fun l => l;
     pd_concat_sorts := false |}.

(** An interpreter without pandas on a Central European clock: standard
    time is one hour east of UTC, and from 03:00 on 28 March 2021 to 03:00
    on 31 October 2021 the clock is two hours east. *)
Definition env_cet : env :=
  {| pd_available := false;
     pd_parse := fun _ => None;
     ciso8601_parse_datetime := fun _ => None;
     time_timezone := -3600;
     local_utcoffset :=
       fun w => if ((1616900400 <=? w) && (w <? 1635649200))%Z
                then 7200 else 3600;
     set_iter := fun l => l;
     pd_concat_sorts := false |}.

(** A text with a character beyond ASCII (U+00E9), and its UTF-8
    bytes. *)
Definition text_cafe : string := "caf" ++ str1 "233"%char.
Definition bytes_cafe : string := "caf" ++ str1 "195"%char ++ str1 "169"%char.

Definition point_count : point :=
  {| p_measurement := Some (PStr "cpu");
     p_tags := Some [];
     p_fields := Some [("value", PNone); ("count", PInt 3)];
     p_time := None |}.

Definition point_idle : point :=
  {| p_measurement := Some (PStr "cpu");
     p_tags := Some [("host", PStr "a")];
     p_fields := Some [("value", PInt 1); ("idle", PBool true)];
     p_time := None |}.

Definition point_null_tag : point :=
  {| p_measurement := Some (PStr "cpu");
     p_tags := Some [("a", PNone); ("b", PStr "x")];
     p_fields := Some [("value", PInt 1)];
     p_time := None |}.

Definition point_blank_tag : point :=
  {| p_measurement := Some (PStr "cpu");
     p_tags := Some [("a", PStr ""); ("b", PStr "x")];
     p_fields := Some [("value", PInt 1)];
     p_time := None |}.

Definition point_no_tags : point :=
  {| p_measurement := Some (PStr "cpu");
     p_tags := None;
     p_fields := Some [("value", PInt 1)];
     p_time := None |}.

(** 2021-07-01T00:00:00, naive. *)
Definition midsummer : datetime :=
  {| dt_wall := 1625097600; dt_microsecond := 0; dt_tzinfo := None |}.

Definition point_midsummer : point :=
  {| p_measurement := Some (PStr "cpu");
     p_tags := Some [];
     p_fields := Some [("value", PInt 1)];
     p_time := Some (TDatetime midsummer) |}.


(** *** The decoder *)

(** What makes a comparison function a total order. *)
Class CompareOrder {A} (cmp : A -> A -> comparison) : Prop := {
  cmp_eq : forall x y, cmp x y = Eq <-> x = y;
  cmp_opp : forall x y, cmp y x = CompOpp (cmp x y);
  cmp_trans : forall x y z c, cmp x y = c -> cmp y z = c -> cmp x z = c
}.

Definition nrows (df : DataFrame) : nat := List.length (df_rows df).

(** The tables parsed for the key [k], in the order the response has
    them. *)
Definition chunks_of (k : key) (df_list : list (key * DataFrame))
  : list DataFrame :=
  map snd (filter (fun x => key_eqb (fst x) k) df_list).

(** The rows of the chunks one after the other, each chunk in its own
    order, under the joint columns. *)
Definition stacked_rows (chunks : list DataFrame) : list (label * list cell) :=
  flat_map (fun df =>
              map (fun r => (fst r, realign (concat_columns chunks) df (snd r)))
                  (df_rows df)) chunks.

(** What the category cache does to the cells of one row of the table
    with columns [names]. *)
Definition cache_cells (names : list string) (cache : dict (list cell))
  (cells : list cell) : list cell :=
  fold_left (fun cells ct =>
               match index_of (fst ct) names with
               | None => cells
               | Some i => cells_astype i (snd ct) cells
               end) cache cells.

Definition cached_cells (tag_cache : option (dict (dict (list cell))))
  (name : string) (names : list string) (cells : list cell) : list cell :=
  match tag_cache with
  | None => cells
  | Some cache =>
      match dict_get name cache with
      | None => cells
      | Some cols => cache_cells names cols cells
      end
  end.

(** The list filed under [k] in the grouping dict, empty when there is
    none. *)
Definition group_get {V} (k : key) (d : list (key * list V)) : list V :=
  match find (fun kv => key_eqb (fst kv) k) d with
  | Some kv => snd kv
  | None => []
  end.

(** The order [sorted] leaves its result in. *)
Definition key_le {V} (a b : key * V) : Prop := key_lt (fst b) (fst a) = false.

Definition ascending (keys : list key) : Prop :=
  StronglySorted (fun a b => key_lt a b = true) keys.

(** The tables of a result, with the keys they were filed under. *)
Definition result_of (dfs : list (key * DataFrame)) : decoded :=
  match dfs with
  | [(_, df)] => Single df
  | _ => Tables dfs
  end.


Definition chunk (name : string) (tags : dict string) (values : list (list cell))
  : series :=
  {| s_name := Some name; s_tags := Some tags;
     s_columns := Some ["time"; "value"]; s_values := Some values |}.

(** Two chunks of one series, with a chunk of another series between. *)
Definition response_chunked : response :=
  {| r_results :=
       Some [ {| st_series :=
                   Some [chunk "cpu" [("host", "b")] [[CInt 10; CInt 1]; [CInt 20; CInt 2]];
                         chunk "cpu" [("host", "a")] [[CInt 10; CInt 7]]] |};
              {| st_series := None |};
              {| st_series :=
                   Some [chunk "cpu" [("host", "b")] [[CInt 30; CInt 3]]] |} ] |}.


(** A result without real timestamps. *)
Definition response_show : response :=
  {| r_results :=
       Some [ {| st_series :=
                   Some [chunk "databases" [] [[CInt 0; CStr "db0"]; [CInt 0; CStr "db1"]]] |} ] |}.

Definition series_of (resp : response) : list series :=
  flat_map (fun st => match st_series st with Some l => l | None => [] end)
    (match r_results resp with Some r => r | None => [] end).

Definition returned {A} (m : py A) (default : A) : A :=
  match snd m with Return a => a | _ => default end.

Definition parsed_chunked : list (key * DataFrame) :=
  Eval vm_compute in returned (parsing env_utc response_chunked) [].

Definition decoded_chunked : decoded :=
  Eval vm_compute in returned (make_df env_utc response_chunked None) (Tables []).

(** Chunks of two series.  In the chunks of the second a null stands
    beside integers, and one row is short. *)
Definition response_mixed : response :=
  {| r_results :=
       Some [ {| st_series :=
                   Some [chunk "cpu" [("host", "b")]
                           [[CInt 10; CInt 1]; [CInt 20; CNone]];
                         chunk "cpu" [("host", "a")] [[CInt 10; CInt 7]]] |};
              {| st_series :=
                   Some [chunk "cpu" [("host", "b")]
                           [[CInt 30; CInt 3]; [CInt 40]]] |} ] |}.

Definition decoded_mixed : decoded :=
  Eval vm_compute in returned (make_df env_utc response_mixed None) (Tables []).

Definition parsed_show : list (key * DataFrame) :=
  Eval vm_compute in returned (parsing env_utc response_show) [].

Definition decoded_show : decoded :=
  Eval vm_compute in returned (make_df env_utc response_show None) (Tables []).

Definition value_frame (index : index_type) (host : string)
  (rows : list (label * list cell)) : DataFrame :=
  {| df_index_type := index;
     df_columns := [("value", DInteger); ("host", DObject)];
     df_rows := map (fun r => (fst r, list_append (snd r) (CStr host))) rows |}.

(** *** The table encoder *)

Definition is_comma (c : ascii) : bool := Ascii.eqb c ","%char.
Definition is_space (c : ascii) : bool := Ascii.eqb c " "%char.

(** Two neighbours that make a dangling delimiter: a comma followed by a
    comma or a space, or a space followed by a comma. *)
Definition bad_pair (a b : ascii) : bool :=
  (is_comma a && (is_comma b || is_space b)) || (is_space a && is_comma b).

Definition comma_pair (a b : ascii) : bool := is_comma a && is_comma b.

Definition first_char (s : string) : option ascii :=
  match s with
  | EmptyString => None
  | String c _ => Some c
  end.

(** Some two neighbours of [s] satisfy [p]. *)
Fixpoint has_pair (p : ascii -> ascii -> bool) (s : string) : bool :=
  match s with
  | EmptyString => false
  | String a rest =>
      match first_char rest with
      | Some b => p a b || has_pair p rest
      | None => false
      end
  end.

(** The line has [,,] or [, ] or [ ,] in it. *)
Definition dangling (line : string) : bool := has_pair bad_pair line.

(** No comma and no space. *)
Definition plain (s : string) : bool := free_of ", " s.

(** The post-processing of the line of a row with nulls. *)
Definition cleanup (E : env) (df : DataFrame) (line : string) : string :=
  fold_left (fun a b => re_sub b a) (make_replacements E df) line.

(** The rows without nulls and the rows with nulls, as [parse_df] splits
    them. *)
Definition clean_rows (df : DataFrame) : list (label * list cell) :=
  itertuples (mask_rows (fun p => negb (row_isnull p)) df).

Definition null_rows (df : DataFrame) : list (label * list cell) :=
  itertuples (mask_rows row_isnull df).

Definition delimiters : list string := [", ,"; ", "; " ,"].

(** A table with one clean row whose tag value ends with a comma. *)
Definition frame_comma_tag : DataFrame :=
  {| df_index_type := DatetimeIndex;
     df_columns := [("host", DObject); ("value", DInteger)];
     df_rows := [(LTime 1, [CStr "a,"; CInt 1])] |}.

(** A table with two clean rows and two rows with nulls. *)
Definition frame_nulls : DataFrame :=
  {| df_index_type := DatetimeIndex;
     df_columns := [("host", DCategorical [CStr "a"]); ("load", DFloat64);
                    ("count", DInteger); ("note", DObject)];
     df_rows := [(LTime 1, [CStr "a"; CFloat "0.5"; CInt 1; CStr "x"]);
                 (LTime 2, [CNaN; CNaN; CInt 2; CStr "y"]);
                 (LTime 3, [CStr "a"; CFloat "1.5"; CInt 3; CStr "z"]);
                 (LTime 4, [CStr "a"; CFloat "2.5"; CInt 4; CNaN])] |}.

(** The tag columns [parse_df] works with: the ones it is given and the
    categorical ones. *)
Definition tag_column_set (df : DataFrame) (tag_columns : option (list string))
  : list string :=
  (match tag_columns with Some l => l | None => [] end
   ++ map fst (filter (fun kv => is_categorical (snd kv)) (df_columns df)))%list.

(** The row function [parse_df] compiles, given the entries [tags] of the
    extra tags. *)
Definition row_formatter (df : DataFrame) (measurement : pyval)
  (tag_columns : option (list string)) (tags : list (list piece * argexpr))
  : label * list cell -> py string :=
  let '(tags, fields) :=
    columns_loop (tag_column_set df tag_columns) (df_columns df) O tags [] in
  row_function
    (Lit (py_str measurement)
     :: Lit (match tags with [] => "" | _ => "," end)
     :: join_fmt "," (map fst tags))
    (join_fmt "," (map fst fields)) tags fields.

(** The measurement, the names and the values of the clean rows have no
    comma and no space. *)
Definition plain_inputs (df : DataFrame) (measurement : pyval)
  (extra_tags : dict pyval) : Prop :=
  plain (py_str measurement) = true
  /\ Forall (fun kv => plain (fst kv) = true /\ plain (py_str (snd kv)) = true)
       extra_tags
  /\ Forall (fun kv => plain (fst kv) = true) (df_columns df)
  /\ Forall (fun r => Forall (fun c => plain (cell_str c) = true) (snd r))
       (clean_rows df).

(** What a left-to-right reading of a line remembers: the kind of the
    last character. *)
Inductive last_char : Type := AtStart | AfterOther | AfterComma | AfterSpace.

(** One character more; [None] when it makes a dangling delimiter. *)
Definition scan_step (st : last_char) (c : ascii) : option last_char :=
  if is_comma c then
    match st with
    | AfterComma | AfterSpace => None
    | _ => Some AfterComma
    end
  else if is_space c then
    match st with
    | AfterComma => None
    | _ => Some AfterSpace
    end
  else Some AfterOther.

Fixpoint scan (st : last_char) (s : string) : option last_char :=
  match s with
  | EmptyString => Some st
  | String c rest =>
      match scan_step st c with
      | Some st' => scan st' rest
      | None => None
      end
  end.

(** The reading of a format string filled with [args], and the arguments
    left over. *)
Fixpoint scan_fmt (st : last_char) (fmt : list piece) (args : list string)
  : option (last_char * list string) :=
  match fmt with
  | [] => Some (st, args)
  | Lit s :: fmt' =>
      match scan st s with
      | Some st' => scan_fmt st' fmt' args
      | None => None
      end
  | Hole :: fmt' =>
      match args with
      | [] => None
      | a :: args' =>
          match scan st a with
          | Some st' => scan_fmt st' fmt' args'
          | None => None
          end
      end
  end.

(** The format of one [key=value] token: a non-empty head without comma
    or space, the replacement field, and a tail without comma or space. *)
Definition token_ok (fmt : list piece) : Prop :=
  exists head tail,
    (fmt = [Lit head; Hole] \/ fmt = [Lit head; Hole; Lit tail])
    /\ truthy head = true /\ plain head = true /\ plain tail = true.

(** An entry of the tag or field list whose token has that format and
    whose value, on the row [p], has no comma and no space. *)
Definition entry_ok (p : label * list cell) (e : list piece * argexpr) : Prop :=
  token_ok (fst e)
  /\ forall w v, eval_arg p (snd e) = (w, Return v) -> plain v = true.

Definition encoded_nulls : string :=
  Eval vm_compute in
    returned (parse_df env_utc frame_nulls (PStr "cpu") None [("dc", PStr "x")]) "".

(* ================================================================== *)
(** ** Further reference definitions                                  *)
(* ================================================================== *)

(** Reading an escaped text back: a backslash gives way to the character
    it protects. *)
Fixpoint unescape (escaped : bool) (s : string) : string :=
  match s with
  | EmptyString => EmptyString
  | String c rest =>
      if escaped then String c (unescape false rest)
      else if Ascii.eqb c backslash then unescape true rest
      else String c (unescape false rest)
  end.

Definition has_newline (s : string) : bool := contains_char newline s.

(** The four tables of the module. *)
Definition escape_tables : list table :=
  [key_escape; tag_escape; str_escape; measurement_escape].

Definition point_bare : point :=
  {| p_measurement := None;
     p_tags := Some [("host", PStr "a")];
     p_fields := Some [("value", PInt 1)];
     p_time := None |}.

Definition point_all_null : point :=
  {| p_measurement := Some (PStr "cpu");
     p_tags := Some [];
     p_fields := Some [("value", PNone); ("count", PNone)];
     p_time := None |}.

(** Whole seconds from the epoch to the UTC reading of a datetime. *)
Definition utc_seconds (d : datetime) : Z :=
  dt_wall d - match dt_tzinfo d with Some off => off | None => 0 end.

(** The datetimes for which the float arithmetic of [_parse_timestamp]
    is exact to the microsecond. *)
Definition float_exact (E : env) (d : datetime) : Prop :=
  Z.abs (utc_seconds d) < 4000000000
  /\ Z.abs (time_timezone E) <= 86400
  /\ 0 <= dt_microsecond d < 1000000.

(** The local clock is on standard time at a naive datetime. *)
Definition on_standard_time (E : env) (d : datetime) : Prop :=
  dt_tzinfo d = None -> local_utcoffset E (dt_wall d) = - time_timezone E.

(** 2021-01-01T00:00:00.250000, naive. *)
Definition midwinter : datetime :=
  {| dt_wall := 1609459200; dt_microsecond := 250000; dt_tzinfo := None |}.

(** 1969-12-31T23:59:59.500000+00:00 *)
Definition before_epoch : datetime :=
  {| dt_wall := -1; dt_microsecond := 500000; dt_tzinfo := Some 0 |}.

Definition point_at (d : datetime) : point :=
  {| p_measurement := Some (PStr "cpu");
     p_tags := Some [];
     p_fields := Some [("value", PInt 1)];
     p_time := Some (TDatetime d) |}.

(** A series that [make_df] cannot read: a key is missing. *)
Definition malformed (s : series) : Prop :=
  s_name s = None \/ s_columns s = None \/ s_values s = None.

Definition tables_of (result : decoded) : list DataFrame :=
  match result with
  | Single df => [df]
  | Tables dfs => map snd dfs
  end.

(** The rows of a result, over all its tables. *)
Definition total_rows (result : decoded) : nat :=
  list_sum (map nrows (tables_of result)).

(** The rows of a response, over all its series. *)
Definition response_rows (resp : response) : nat :=
  list_sum (map (fun s => List.length (match s_values s with
                                       | Some v => v
                                       | None => []
                                       end)) (series_of resp)).

Definition response_malformed : response :=
  {| r_results :=
       Some [ {| st_series :=
                   Some [chunk "cpu" [] [[CInt 1; CInt 2]];
                         {| s_name := Some "cpu"; s_tags := None;
                            s_columns := Some ["time"; "value"];
                            s_values := None |}] |} ] |}.

Definition series_show : series :=
  {| s_name := Some "databases"; s_tags := Some [("cluster", "c1")];
     s_columns := Some ["name"];
     s_values := Some [[CStr "db0"]; [CStr "db1"]] |}.

(** A series without a time column; its second row is short, so that a
    null stands beside the integer of the first. *)
Definition series_ragged : series :=
  {| s_name := Some "databases"; s_tags := Some [("cluster", "c1")];
     s_columns := Some ["name"; "shards"];
     s_values := Some [[CStr "db0"; CInt 2]; [CStr "db1"]] |}.

(** Rows that [pd.DataFrame] takes under the names [columns]: none, or
    rows of which the longest has one cell per name. *)
Definition fits (values : list (list cell)) (columns : list string) : Prop :=
  values = [] \/ max_length values = List.length columns.

(** An integer that a float holds as it is; any other cell. *)
Definition within_float (c : cell) : Prop :=
  match c with
  | CInt z => (Z.abs z <= 9007199254740992)%Z
  | _ => True
  end.

(** Every row has one cell per column. *)
Definition rectangular (df : DataFrame) : Prop :=
  Forall (fun r => List.length (snd r) = List.length (df_columns df))
    (df_rows df).

(** The table has a column [k] that holds [c] in every row. *)
Definition constant_column (k : string) (c : cell) (df : DataFrame) : Prop :=
  exists j,
    index_of k (map fst (df_columns df)) = Some j
    /\ Forall (fun r => nth j (snd r) CNaN = c) (df_rows df).

Definition series_tagged : series :=
  {| s_name := Some "cpu";
     s_tags := Some [("host", "a"); ("value", "shadow")];
     s_columns := Some ["time"; "value"; "idle"];
     s_values := Some [[CInt 10; CInt 1; CBool true];
                       [CInt 20; CInt 2; CBool false]] |}.

Definition tags_of (s : series) : dict string :=
  match s_tags s with Some t => t | None => [] end.

(** Two series that [make_df] files under one key: the same name and the
    same tag items in the same order. *)
Definition same_key (s s' : series) : Prop :=
  s_name s = s_name s' /\ tags_of s = tags_of s'.

(** Some alternative matches somewhere in [s]. *)
Fixpoint occurs (alts : list string) (s : string) : bool :=
  match s with
  | EmptyString =>
      match first_match alts s with Some _ => true | None => false end
  | String _ rest =>
      match first_match alts s with Some _ => true | None => false end
      || occurs alts rest
  end.

(** The texts the first pass of the clean-up removes: what a null cell is
    rendered as, for each column. *)
Definition nan_tokens (E : env) (df : DataFrame) : list string :=
  match make_replacements E df with
  | (Alternation alts, _) :: _ => alts
  | _ => []
  end.

(** What [parse_df] makes of a table under a measurement with a space in
    its name. *)
Definition encoded_spaced : string :=
  Eval vm_compute in
    returned (parse_df env_utc frame_comma_tag (PStr "cpu load") None []) "".

(** *** What the decoder makes of a series *)

(** What pandas may make of a cell when it settles the type of its
    column: it keeps it, or turns an integer into the float of the same
    value, or a null into NaN. *)
Definition converted (a b : cell) : Prop :=
  b = a
  \/ (exists z, a = CInt z /\ b = CFloat (float_text z))
  \/ (a = CNone /\ b = CNaN).

(** The cell of a row under a column name, the first of that name; NaN
    when there is no such column. *)
Definition lookup (names : list string) (cells : list cell) (c : string)
  : cell :=
  pick_cell cells (index_of c names).

Definition columns_of (s : series) : list string :=
  match s_columns s with Some c => c | None => [] end.

Definition values_of (s : series) : list (list cell) :=
  match s_values s with Some v => v | None => [] end.

Definition time_index (s : series) : option nat :=
  index_of "time" (columns_of s).

(** The cell of the row [v] of a series under the column [c] of the
    series; a row that is too short has a null there. *)
Definition raw_cell (s : series) (v : list cell) (c : string) : cell :=
  match index_of c (columns_of s) with
  | Some i => nth i v CNone
  | None => CNaN
  end.

(** The cell that the row [v] of a series brings to the column [c] of a
    table.  A series with a time column brings its tags (the keys of a
    mapping are distinct; of two items with one key the later would
    stay), which go before its data, and no [time] column; any series
    brings its data; what it does not have is NaN. *)
Definition series_cell (s : series) (v : list cell) (c : string) : cell :=
  match time_index s with
  | Some _ =>
      match dict_get c (rev (tags_of s)) with
      | Some t => CStr t
      | None => if String.eqb c "time" then CNaN else raw_cell s v c
      end
  | None => raw_cell s v c
  end.


(** The label of the row [v] of a series: its time, or a position. *)
Definition series_label (E : env) (s : series) (v : list cell) (l : label)
  : Prop :=
  (exists i w, time_index s = Some i
               /\ to_datetime_utc E (nth i v CNaN) = (w, Return l))
  \/ (exists n, l = LInt n).





(** The rows of the frames, one frame after the other, each row with its
    frame. *)
Definition frame_rows (frames : list DataFrame)
  : list (DataFrame * (label * list cell)) :=
  flat_map (fun df => map (fun r => (df, r)) (df_rows df)) frames.

(** *** The lines of a table *)

(** [s.split(sep)] for a separator of one character. *)
Fixpoint split (sep : ascii) (s : string) : list string :=
  match s with
  | EmptyString => [EmptyString]
  | String c rest =>
      if Ascii.eqb sep c then EmptyString :: split sep rest
      else match split sep rest with
           | h :: t => String c h :: t
           | [] => [str1 c]
           end
  end.

(** The number of replacement fields of a format string. *)
Fixpoint holes (fmt : list piece) : nat :=
  match fmt with
  | [] => O
  | Lit _ :: fmt' => holes fmt'
  | Hole :: fmt' => S (holes fmt')
  end.

(** A table as pandas holds it under a [DatetimeIndex]: every row is
    labelled by a timestamp and has one cell per column. *)
Definition well_formed (df : DataFrame) : Prop :=
  df_index_type df = DatetimeIndex
  /\ Forall (fun r => (exists t, fst r = LTime t)
                      /\ List.length (snd r) = List.length (df_columns df))
       (df_rows df).

(** The texts [parse_df] puts into the source of the row function stand
    for themselves there: this is the test under which [parse_df] is
    modelled. *)
Definition names_compile (df : DataFrame) (measurement : pyval)
  (extra_tags : dict pyval) : bool :=
  literal_safe (py_str measurement)
  && forallb (fun kv => literal_safe (fst kv)) extra_tags
  && forallb (fun kv => constant_safe (py_str (snd kv))) extra_tags
  && forallb (fun kv => column_safe (fst kv)) (df_columns df).

(** The column names are regular expressions for themselves. *)
Definition names_match (df : DataFrame) : bool :=
  forallb (fun kv => regex_safe (fst kv)) (df_columns df).

(** No cell has a newline in its text. *)
Definition one_line_cells (df : DataFrame) : Prop :=
  Forall (fun r => Forall (fun c => has_newline (cell_str c) = false) (snd r))
    (df_rows df).

(** An entry of the tag or field list with one replacement field, whose
    argument is there on a row of [n] cells. *)
Definition entry_fits (n : nat) (e : list piece * argexpr) : Prop :=
  holes (fst e) = 1%nat
  /\ match snd e with
     | ACol i => (i < n)%nat
     | AConst _ => True
     end.

Definition one_line_piece (x : piece) : Prop :=
  match x with
  | Lit s => has_newline s = false
  | Hole => True
  end.

(** An entry whose token and whose value, on the row [p], have no
    newline. *)
Definition entry_one_line (p : label * list cell) (e : list piece * argexpr)
  : Prop :=
  Forall one_line_piece (fst e)
  /\ forall w v, eval_arg p (snd e) = (w, Return v) -> has_newline v = false.

(** A table with one clean row whose field value has a newline. *)
Definition frame_newline : DataFrame :=
  {| df_index_type := DatetimeIndex;
     df_columns := [("note", DObject)];
     df_rows := [(LTime 1, [CStr ("a" ++ str1 newline ++ "b")])] |}.
(* ================================================================== *)
(** ** Properties of [escape] and of the point encoder                *)
(* ================================================================== *)

Lemma append_assoc (a b c : string) : (a ++ b) ++ c = a ++ (b ++ c).
Proof. induction a as [|x a IH]; simpl; [reflexivity | now rewrite IH]. Qed.

Lemma append_nil_r (a : string) : a ++ "" = a.
Proof. induction a as [|x a IH]; simpl; [reflexivity | now rewrite IH]. Qed.

Lemma bind_ret_l {A B} (a : A) (f : A -> py B) : bind (ret a) f = f a.
Proof. unfold bind, ret. destruct (f a) as [w r]. reflexivity. Qed.

Lemma bind_returns {A B} (m : py A) (f : A -> py B) (w : list warning) (b : B) :
  bind m f = (w, Return b) ->
  exists w1 a w2, m = (w1, Return a) /\ f a = (w2, Return b).
Proof.
  destruct m as [w1 [a| |]]; simpl; try discriminate.
  destruct (f a) as [w2 r] eqn:Hf. intros [= _ ->]. now exists w1, a, w2.
Qed.

Lemma escape_str (s : string) (t : table) :
  escape (PStr s) t = ([], Return (translate s t)).
Proof. reflexivity. Qed.

Lemma escape_other (v : pyval) (t : table) :
  isinstance_str v = false -> isinstance_bytes v = false ->
  escape v t = ([non_string_warning], Return (translate (py_str v) tag_escape)).
Proof. destruct v; simpl; intros Hs Hb; try discriminate; reflexivity. Qed.

(** C9 (as amended).  [escape] returns for every value that is not a
    [bytes] object: a text is translated under the requested table with no
    warning; any other value signals one warning and is returned as its
    text translated under the tag table. *)
Theorem escape_degrades_gracefully (v : pyval) (t : table) :
  isinstance_bytes v = false ->
  escape v t =
    if isinstance_str v
    then ([], Return (translate (py_str v) t))
    else ([non_string_warning], Return (translate (py_str v) tag_escape)).
Proof.
  intros Hb. destruct (isinstance_str v) eqn:Hs.
  - destruct v; try discriminate. apply escape_str.
  - now apply escape_other.
Qed.

Lemma escape_degrades_gracefully_witness :
  escape (PInt 42) measurement_escape = ([non_string_warning], Return "42").
Proof. exact (escape_degrades_gracefully (PInt 42) measurement_escape eq_refl). Defined.

(** C9 (as stated) fails: a [bytes] value has a [translate] method that
    refuses the table, and the [TypeError] is not caught. *)
Lemma escape_bytes_raises :
  ~ (forall v t, exists w s, escape v t = (w, Return s)).
Proof.
  intros H. destruct (H (PBytes "abc") tag_escape) as (w & s & Heq).
  discriminate Heq.
Qed.

Lemma fields_loop_tokens (items : list (string * pyval)) :
  forall output,
    fields_loop items output
    = ([], Return (output ++ flat_map field_tokens items)%list).
Proof.
  induction items as [|[k v] items IH]; intros output; simpl.
  - now rewrite app_nil_r.
  - unfold field_tokens at 1; simpl.
    destruct v as [|b|z|text|s|raw]; simpl; rewrite IH; unfold list_append;
      try destruct b; simpl; rewrite <- ?app_assoc; reflexivity.
Qed.

(** C1 (as amended).  The fields render by type in mapping order: a
    boolean bare as [key=True] or [key=False], an integer as [key=<int>i],
    a text double-quoted under the field-string table, a null value not at
    all, any other value bare as its text. *)
Theorem parse_fields_by_type (m : option pyval) (tags : option (dict pyval))
  (fields : dict pyval) (time : option timeval) :
  _parse_fields {| p_measurement := m; p_tags := tags;
                   p_fields := Some fields; p_time := time |}
  = ([], Return (join "," (flat_map field_tokens fields))).
Proof.
  unfold _parse_fields; simpl. now rewrite fields_loop_tokens.
Qed.

(** C1 (as stated) fails: a true boolean renders as [True]. *)
Lemma parse_fields_bool_capitalised :
  _parse_fields point_idle = ([], Return "value=1i,idle=True")
  /\ _parse_fields point_idle
     <> ([], Return (join "," (flat_map spec_field_tokens
                                 [("value", PInt 1); ("idle", PBool true)]))).
Proof. split; [reflexivity | discriminate]. Qed.

Lemma tags_loop_tokens (items : list (string * pyval)) :
  (forall kv, In kv items -> isinstance_bytes (snd kv) = false) ->
  forall output,
    tags_loop items output
    = ((output ++ flat_map tag_tokens items)%list,
       (flat_map tag_warnings items, Return tt)).
Proof.
  induction items as [|[k v] items IH]; intros Hb output; simpl.
  - now rewrite app_nil_r.
  - assert (Hv : isinstance_bytes v = false) by (apply (Hb (k, v)); now left).
    assert (Hrest : forall kv, In kv items -> isinstance_bytes (snd kv) = false)
      by (intros kv Hin; apply Hb; now right).
    unfold tag_tokens, tag_warnings; simpl.
    destruct (isinstance_str v) eqn:Hs.
    + destruct v; try discriminate. rewrite escape_str. simpl.
      destruct (truthy (translate s tag_escape)) eqn:Ht; simpl;
        rewrite (IH Hrest); unfold list_append; simpl;
        rewrite <- ?app_assoc; reflexivity.
    + rewrite (escape_other v tag_escape Hs Hv).
      destruct (truthy (translate (py_str v) tag_escape)) eqn:Ht; simpl;
        rewrite (IH Hrest); unfold list_append; simpl;
        rewrite <- ?app_assoc; reflexivity.
Qed.

(** C4 (as amended).  When no tag value is a [bytes] object, the tag
    segment is made of the tags of the merged mapping, in its order, whose
    escaped text is not empty; a tag whose escaped text is empty leaves no
    key and no [=] sign.  A null value is not dropped: it is carried as the
    text [None], with a warning. *)
Theorem parse_tags_drops_blank (p : point) (tags extra_tags : dict pyval) :
  p_tags p = Some tags ->
  (forall kv, In kv (dict_merge tags extra_tags) ->
              isinstance_bytes (snd kv) = false) ->
  _parse_tags p extra_tags
  = (flat_map tag_warnings (dict_merge tags extra_tags),
     Return (join "," (flat_map tag_tokens (dict_merge tags extra_tags)))).
Proof.
  intros Ht Hb. unfold _parse_tags. rewrite Ht.
  rewrite (tags_loop_tokens _ Hb). simpl.
  destruct (flat_map tag_tokens (dict_merge tags extra_tags)); reflexivity.
Qed.

Lemma parse_tags_drops_blank_witness :
  _parse_tags point_blank_tag [] = ([], Return "b=x").
Proof.
  apply (parse_tags_drops_blank point_blank_tag
           [("a", PStr ""); ("b", PStr "x")] [] eq_refl).
  intros kv Hin. simpl in Hin.
  destruct Hin as [<- | [<- | []]]; reflexivity.
Defined.

(** C4 (as stated) fails: a null tag value is emitted as [a=None]. *)
Lemma parse_tags_null_emitted :
  _parse_tags point_null_tag []
  = ([non_string_warning], Return "a=None,b=x")
  /\ _parse_tags point_null_tag []
     <> ([non_string_warning],
         Return (join "," (flat_map spec_tag_tokens
                             (dict_merge [("a", PNone); ("b", PStr "x")] [])))).
Proof. split; [reflexivity | discriminate]. Qed.

(** C10.  A point without a [tags] key gets no tag segment whatever the
    extra tags are: the lookup fails before the merge, nothing is appended,
    and the line goes measurement, space, fields, space, timestamp. *)
Theorem missing_tags_drop_extra_tags (E : env) (p : point)
  (measurement : option pyval) (extra_tags : dict pyval) :
  p_tags p = None ->
  _parse_tags p extra_tags = ([], Return "")
  /\ make_line E p measurement extra_tags
     = (m <- _parse_measurement p measurement ;;
        f <- _parse_fields p ;;
        t <- _parse_timestamp E p ;;
        ret (m ++ " " ++ f ++ " " ++ py_str t)).
Proof.
  intros Ht.
  assert (H0 : _parse_tags p extra_tags = ([], Return ""))
    by (unfold _parse_tags; now rewrite Ht).
  split; [exact H0 |].
  unfold make_line. rewrite H0.
  change (@pair (list warning) (outcome string) [] (Return "")) with (ret "").
  now rewrite bind_ret_l.
Qed.

Lemma missing_tags_drop_extra_tags_witness :
  _parse_tags point_no_tags [("host", PStr "a")] = ([], Return "")
  /\ make_line env_utc point_no_tags None [("host", PStr "a")]
     = ([], Return "cpu value=1i ").
Proof.
  exact (missing_tags_drop_extra_tags env_utc point_no_tags None
           [("host", PStr "a")] eq_refl).
Defined.

Lemma parse_timestamp_absent (E : env) (p : point) :
  p_time p = None -> _parse_timestamp E p = ([], Return (PStr "")).
Proof. intros H. unfold _parse_timestamp. now rewrite H. Qed.

(** C3 (as amended).  For a point without a [time] entry the timestamp
    text is empty, and the line ends with the field segment followed by
    the one space that separates it from the timestamp. *)
Theorem make_line_without_time (E : env) (p : point)
  (measurement : option pyval) (extra_tags : dict pyval)
  (w : list warning) (line : string) :
  p_time p = None ->
  make_line E p measurement extra_tags = (w, Return line) ->
  exists head wf fields,
    _parse_fields p = (wf, Return fields)
    /\ line = head ++ " " ++ fields ++ " ".
Proof.
  intros Ht Hl. unfold make_line in Hl.
  rewrite (parse_timestamp_absent E p Ht) in Hl.
  destruct (_parse_tags p extra_tags) as [w1 [tags| |]]; simpl in Hl;
    try discriminate.
  destruct (truthy tags);
    destruct (_parse_measurement p measurement) as [w2 [m| |]]; simpl in Hl;
    try discriminate;
    destruct (_parse_fields p) as [w3 [f| |]]; simpl in Hl; try discriminate;
    injection Hl as _ <-.
  - exists (m ++ "," ++ tags), w3, f. split; [reflexivity |].
    now rewrite !append_assoc.
  - exists m, w3, f. split; reflexivity.
Qed.

Lemma make_line_without_time_witness :
  exists head wf fields,
    _parse_fields point_count = (wf, Return fields)
    /\ "cpu count=3i " = head ++ " " ++ fields ++ " ".
Proof.
  exact (make_line_without_time env_utc point_count None [] [] "cpu count=3i "
           eq_refl eq_refl).
Defined.

(** C3 (as stated) fails: the line of the example keeps the space that
    precedes the absent timestamp. *)
Lemma make_line_trailing_space :
  make_line env_utc point_count None [] = ([], Return "cpu count=3i ")
  /\ make_line env_utc point_count None [] <> ([], Return "cpu count=3i").
Proof. split; [reflexivity | discriminate]. Qed.

(** C2, the failing input.  Without pandas, on a clock that is on summer
    time, a naive timestamp comes out one hour early: [time.timezone] is
    the offset of standard time, while [dt.timestamp()] read the value on
    the summer clock.  With pandas the same point gets the nanoseconds of
    its UTC reading. *)
Theorem naive_timestamp_summer_time :
  _parse_timestamp env_cet point_midsummer
  = ([], Return (PInt 1625094000000000000))
  /\ utc_nanoseconds midsummer = 1625097600000000000
  /\ _parse_timestamp env_utc point_midsummer
     = ([], Return (PInt 1625097600000000000)).
Proof. repeat split. Qed.

(** Where the clock is on standard time, and from the epoch on, the path
    without pandas agrees with the UTC reading. *)
Lemma naive_timestamp_standard_time (E : env) (p : point) (d : datetime) :
  pd_available E = false ->
  p_time p = Some (TDatetime d) ->
  dt_tzinfo d = None ->
  local_utcoffset E (dt_wall d) = - time_timezone E ->
  0 <= dt_wall d -> 0 <= dt_microsecond d < 1000000 ->
  _parse_timestamp E p = ([], Return (PInt (utc_nanoseconds d))).
Proof.
  intros Hpd Ht Hz Hoff Hw Hus.
  unfold _parse_timestamp, utc_nanoseconds, timestamp_us, int_of_us.
  rewrite Ht, Hpd. simpl. rewrite Hz, Hoff. simpl.
  replace ((dt_wall d - - time_timezone E) * 1000000 + dt_microsecond d
           - time_timezone E * 1000000)
    with (dt_microsecond d + dt_wall d * 1000000) by lia.
  rewrite Z.quot_div_nonneg by lia.
  rewrite Z.div_add by lia.
  rewrite Z.div_small by lia.
  do 3 f_equal. lia.
Qed.

(* ================================================================== *)
(** ** Properties of [parse_data]                                     *)
(* ================================================================== *)

Lemma mapM_ext_in {A B} (f g : A -> py B) (l : list A) :
  (forall a, In a l -> f a = g a) -> mapM f l = mapM g l.
Proof.
  induction l as [|a l IH]; intros H; [reflexivity |].
  cbn [mapM]. rewrite (H a (or_introl eq_refl)), IH; [reflexivity |].
  intros b Hb. apply H. now right.
Qed.

(** The last but one branch of [parse_data]: the elements are encoded one
    by one and joined. *)
Lemma parse_data_iter (E : env) (items : list data)
  (measurement : option pyval) (tag_columns : option (list string))
  (extra_tags : dict pyval) :
  parse_data E (DIter items) measurement tag_columns extra_tags
  = (parts <- mapM (fun i => parse_data E i measurement tag_columns extra_tags)
               items ;;
     ret (join (str1 newline) parts)).
Proof.
  assert (Heach : forall l,
            (fix each (l : list data) : py (list string) :=
               match l with
               | [] => ret []
               | i :: l' =>
                   b <- parse_data E i measurement tag_columns extra_tags ;;
                   bs <- each l' ;;
                   ret (b :: bs)
               end) l
            = mapM (fun i => parse_data E i measurement tag_columns extra_tags) l).
  { induction l as [|i l IH]; [reflexivity |]. cbn [mapM]. now rewrite IH. }
  cbn [parse_data as_bytes as_str as_DataFrame as_dict hasattr_iter].
  rewrite Heach. now destruct (pd_available E).
Qed.

(** An element of a text, of a bytes object, of a dict or of a frame is
    a text or an integer, and [parse_data] does with it what
    [parse_element] says. *)
Lemma parse_data_element (E : env) (d : data) (measurement : option pyval)
  (tag_columns : option (list string)) (extra_tags : dict pyval) :
  (forall items, d <> DIter items) ->
  mapM parse_element (py_iter d)
  = mapM (fun i => parse_data E i measurement tag_columns extra_tags)
      (py_iter d).
Proof.
  intros Hd. apply mapM_ext_in. intros x Hx.
  destruct d as [b|s|df|p|items| ]; simpl in Hx;
    try (apply in_map_iff in Hx; destruct Hx as (y & <- & _); simpl;
         now destruct (pd_available E)).
  - now elim (Hd items).
  - contradiction.
Qed.

(** C7.  [parse_data] makes its tests in this order, and the first that
    holds decides: a bytes object passes through; a text is UTF-8 encoded;
    a frame, where pandas is there, needs [measurement], fails with
    MissingMeasurement without it and goes to [parse_df] with it; a dict
    is encoded by [make_line] as one line; any other object with an
    [__iter__] is encoded element by element with the same parameters,
    joined by newlines; anything else fails with UnsupportedInputType.
    Bytes, texts and dicts have an [__iter__] too: they are not taken
    apart because their tests come first. *)
Theorem parse_data_dispatch (E : env) (d : data) (measurement : option pyval)
  (tag_columns : option (list string)) (extra_tags : dict pyval) :
  let result := parse_data E d measurement tag_columns extra_tags in
  (forall b, as_bytes d = Some b -> result = ([], Return b))
  /\ (as_bytes d = None ->
      (forall s, as_str d = Some s -> result = ([], Return (encode_utf8 s)))
      /\ (as_str d = None ->
          (pd_available E = true ->
           forall df, as_DataFrame d = Some df ->
             result = match measurement with
                      | None => ([], Raise MissingMeasurement)
                      | Some m => parse_df E df m tag_columns extra_tags
                      end)
          /\ (pd_available E = false \/ as_DataFrame d = None ->
              (forall p, as_dict d = Some p ->
                 result = (line <- make_line E p measurement extra_tags ;;
                           ret (encode_utf8 line)))
              /\ (as_dict d = None ->
                  (hasattr_iter d = true ->
                   result
                   = (parts <- mapM (fun i => parse_data E i measurement
                                                tag_columns extra_tags)
                                 (py_iter d) ;;
                      ret (join (str1 newline) parts)))
                  /\ (hasattr_iter d = false ->
                      result = ([], Raise UnsupportedInputType)))))).
Proof.
  intros result. subst result.
  split; [intros b Hb; destruct d; try discriminate; now injection Hb as -> |].
  intros Hb.
  split; [intros s Hs; destruct d; try discriminate; now injection Hs as -> |].
  intros Hs. split.
  - intros Hpd df Hdf. destruct d; try discriminate. injection Hdf as ->.
    simpl. rewrite Hpd. simpl. now destruct measurement.
  - intros Hframe.
    assert (Htest : (if pd_available E then as_DataFrame d else None) = None).
    { destruct Hframe as [-> | ->]; [reflexivity | now destruct (pd_available E)]. }
    split.
    + intros p Hp. destruct d; try discriminate. injection Hp as ->.
      simpl. now destruct (pd_available E).
    + intros Hdict. split.
      * intros Hit. destruct d as [b|s|df|p|items| ]; try discriminate.
        -- rewrite <- (parse_data_element E (DFrame df))
             by (intros items; discriminate).
           simpl in Htest |- *. now rewrite Htest.
        -- apply parse_data_iter.
      * intros Hit. destruct d; try discriminate. simpl.
        now destruct (pd_available E).
Qed.

Lemma parse_data_dispatch_witness :
  parse_data env_utc (DStr text_cafe) None None [] = ([], Return bytes_cafe)
  /\ parse_data env_utc
       (DIter [DStr "a b=1i"; DDict point_count; DBytes "x y=2i"]) None None []
     = ([], Return ("a b=1i" ++ str1 newline ++ "cpu count=3i "
                    ++ str1 newline ++ "x y=2i"))
  /\ parse_data env_cet (DFrame frame_comma_tag) None None []
     = ([], Return ("host" ++ str1 newline ++ "value"))
  /\ parse_data env_utc DOther None None [] = ([], Raise UnsupportedInputType).
Proof.
  split; [| split; [| split]].
  - destruct (parse_data_dispatch env_utc (DStr text_cafe) None None [])
      as (_ & H). destruct (H eq_refl) as (Hs & _).
    exact (Hs text_cafe eq_refl).
  - destruct (parse_data_dispatch env_utc
                (DIter [DStr "a b=1i"; DDict point_count; DBytes "x y=2i"])
                None None []) as (_ & H).
    destruct (H eq_refl) as (_ & H1). destruct (H1 eq_refl) as (_ & H2).
    destruct (H2 (or_intror eq_refl)) as (_ & H3).
    destruct (H3 eq_refl) as (Hit & _). rewrite (Hit eq_refl). reflexivity.
  - destruct (parse_data_dispatch env_cet (DFrame frame_comma_tag) None None [])
      as (_ & H).
    destruct (H eq_refl) as (_ & H1). destruct (H1 eq_refl) as (_ & H2).
    destruct (H2 (or_introl eq_refl)) as (_ & H3).
    destruct (H3 eq_refl) as (Hit & _). rewrite (Hit eq_refl). reflexivity.
  - destruct (parse_data_dispatch env_utc DOther None None []) as (_ & H).
    destruct (H eq_refl) as (_ & H1). destruct (H1 eq_refl) as (_ & H2).
    destruct (H2 (or_intror eq_refl)) as (_ & H3).
    destruct (H3 eq_refl) as (_ & Hno). exact (Hno eq_refl).
Defined.

(* ================================================================== *)
(** ** Texts without a newline                                        *)
(* ================================================================== *)

Lemma contains_char_app (c : ascii) (a b : string) :
  contains_char c (a ++ b) = contains_char c a || contains_char c b.
Proof.
  induction a as [|x a IH]; simpl; [reflexivity |].
  now rewrite IH, orb_assoc.
Qed.

(** A table that deletes the newline and whose entries put none in. *)
Lemma translate_drops_newline (t : table) :
  table_get t newline = Some "" ->
  (forall c r, table_get t c = Some r -> has_newline r = false) ->
  forall s, has_newline (translate s t) = false.
Proof.
  intros Hnl Hent. unfold has_newline in *.
  induction s as [|c s IH]; [reflexivity |].
  cbn [translate]. destruct (table_get t c) as [r|] eqn:Hc.
  - now rewrite contains_char_app, (Hent c r Hc), IH.
  - cbn [contains_char]. rewrite IH, orb_false_r.
    destruct (Ascii.eqb newline c) eqn:Heq; [| reflexivity].
    apply Ascii.eqb_eq in Heq. subst c. congruence.
Qed.

Lemma table_entries (t : table) (P : ascii -> string -> Prop) :
  Forall (fun e => P (fst e) (snd e)) t ->
  forall c r, table_get t c = Some r -> P c r.
Proof.
  induction 1 as [|[k v] t Hk Ht IH]; intros c r H; [discriminate |].
  cbn [table_get] in H. destruct (Ascii.eqb k c) eqn:Heq.
  - apply Ascii.eqb_eq in Heq. subst c. now injection H as <-.
  - now apply IH.
Qed.

Lemma translate_no_newline (s : string) (t : table) :
  In t escape_tables -> has_newline (translate s t) = false.
Proof.
  intros Hin. apply translate_drops_newline.
  - destruct Hin as [<- | [<- | [<- | [<- | []]]]]; reflexivity.
  - apply table_entries.
    destruct Hin as [<- | [<- | [<- | [<- | []]]]]; repeat constructor.
Qed.

Lemma escape_returns_no_newline (v : pyval) (t : table)
  (w : list warning) (s : string) :
  In t escape_tables ->
  escape v t = (w, Return s) -> has_newline s = false.
Proof.
  intros Hin H.
  assert (Htag : In tag_escape escape_tables) by (simpl; auto).
  destruct (isinstance_str v) eqn:Hs.
  - destruct v; try discriminate. rewrite escape_str in H.
    injection H as _ <-. now apply translate_no_newline.
  - destruct (isinstance_bytes v) eqn:Hb.
    + destruct v; discriminate.
    + rewrite (escape_other v t Hs Hb) in H. injection H as _ <-.
      now apply translate_no_newline.
Qed.

Lemma has_newline_app (a b : string) :
  has_newline (a ++ b) = has_newline a || has_newline b.
Proof. apply contains_char_app. Qed.

Lemma has_newline_join (sep : string) (l : list string) :
  has_newline sep = false ->
  Forall (fun s => has_newline s = false) l ->
  has_newline (join sep l) = false.
Proof.
  intros Hsep. induction 1 as [|x l Hx Hl IH]; [reflexivity |].
  unfold join in *. cbn [String.concat]. destruct l as [|y l]; [exact Hx |].
  now rewrite !has_newline_app, Hx, Hsep, IH.
Qed.

Lemma string_of_uint_no_newline (u : Decimal.uint) :
  has_newline (NilEmpty.string_of_uint u) = false.
Proof. induction u; simpl; auto. Qed.

Lemma str_of_int_no_newline (z : Z) : has_newline (str_of_int z) = false.
Proof.
  unfold str_of_int, NilZero.string_of_int, NilZero.string_of_uint.
  assert (Hneg : forall s, has_newline (String "-" s) = has_newline s)
    by reflexivity.
  destruct (Z.to_int z) as [u | u]; rewrite ?Hneg; destruct u;
    try reflexivity; apply (string_of_uint_no_newline (_ u)).
Qed.


(* ================================================================== *)
(** ** Properties of [make_df]                                        *)
(* ================================================================== *)

(** *** The order on keys *)

#[local] Instance ascii_compare_order : CompareOrder Ascii.compare.
Proof.
  split; unfold Ascii.compare.
  - intros x y. rewrite N.compare_eq_iff. split; [| now intros ->].
    intros H. rewrite <- (ascii_N_embedding x), <- (ascii_N_embedding y).
    now rewrite H.
  - intros x y. apply N.compare_antisym.
  - intros x y z [] H1 H2.
    + apply N.compare_eq_iff in H1. apply N.compare_eq_iff in H2.
      apply N.compare_eq_iff. congruence.
    + apply N.compare_lt_iff in H1. apply N.compare_lt_iff in H2.
      apply N.compare_lt_iff. eapply N.lt_trans; eassumption.
    + apply N.compare_gt_iff in H1. apply N.compare_gt_iff in H2.
      apply N.compare_gt_iff. eapply N.lt_trans; eassumption.
Qed.

#[local] Instance list_compare_order {A} (cmp : A -> A -> comparison)
  `{CompareOrder A cmp} : CompareOrder (list_compare cmp).
Proof.
  split.
  - apply list_compare_refl, cmp_eq.
  - intros x y. apply list_compare_antisym; [apply cmp_eq | apply cmp_opp].
  - intros x y z c. apply list_compare_trans;
      [apply cmp_eq | apply cmp_trans | apply cmp_opp].
Qed.

Lemma string_compare_as_list (s t : string) :
  String.compare s t
  = list_compare Ascii.compare (list_ascii_of_string s) (list_ascii_of_string t).
Proof.
  revert t. induction s as [|a s IH]; intros [|b t]; simpl; try reflexivity.
  rewrite IH. now destruct (Ascii.compare a b).
Qed.

Lemma list_ascii_of_string_inj (s t : string) :
  list_ascii_of_string s = list_ascii_of_string t -> s = t.
Proof.
  intros H. rewrite <- (string_of_list_ascii_of_string s),
    <- (string_of_list_ascii_of_string t). now rewrite H.
Qed.

#[local] Instance string_compare_order : CompareOrder String.compare.
Proof.
  split.
  - intros x y. rewrite string_compare_as_list, cmp_eq.
    split; [apply list_ascii_of_string_inj | now intros ->].
  - intros x y. rewrite !string_compare_as_list. apply cmp_opp.
  - intros x y z c. rewrite !string_compare_as_list. apply cmp_trans.
Qed.

#[local] Instance lex_compare_order {A B} (ca : A -> A -> comparison)
  (cb : B -> B -> comparison) `{CompareOrder A ca} `{CompareOrder B cb} :
  CompareOrder (lex_compare ca cb).
Proof.
  split; unfold lex_compare.
  - intros [a1 b1] [a2 b2]; simpl. destruct (ca a1 a2) eqn:Ha.
    + apply cmp_eq in Ha. subst a2. rewrite cmp_eq.
      split; [now intros -> | now intros [= ->]].
    + split; [discriminate |]. intros [= -> ->].
      assert (ca a2 a2 = Eq) by now apply cmp_eq. congruence.
    + split; [discriminate |]. intros [= -> ->].
      assert (ca a2 a2 = Eq) by now apply cmp_eq. congruence.
  - intros [a1 b1] [a2 b2]; simpl. rewrite (cmp_opp (cmp := ca) a1 a2).
    destruct (ca a1 a2); simpl; try reflexivity. apply cmp_opp.
  - intros [a1 b1] [a2 b2] [a3 b3] c; simpl.
    destruct (ca a1 a2) eqn:H12.
    + apply cmp_eq in H12. subst a2.
      destruct (ca a1 a3); intros H1 H2; try exact H2.
      eapply cmp_trans; eauto.
    + intros <-. destruct (ca a2 a3) eqn:H23; intros H2; try discriminate.
      * apply cmp_eq in H23. subst a3. now rewrite H12.
      * now rewrite (cmp_trans _ _ _ _ H12 H23).
    + intros <-. destruct (ca a2 a3) eqn:H23; intros H2; try discriminate.
      * apply cmp_eq in H23. subst a3. now rewrite H12.
      * now rewrite (cmp_trans _ _ _ _ H12 H23).
Qed.

#[local] Instance key_compare_order : CompareOrder key_compare.
Proof. unfold key_compare, pair_compare. typeclasses eauto. Qed.

Lemma key_eqb_eq (a b : key) : key_eqb a b = true <-> a = b.
Proof.
  unfold key_eqb. rewrite <- (cmp_eq (cmp := key_compare)).
  destruct (key_compare a b); split; congruence.
Qed.

Lemma key_eqb_refl (a : key) : key_eqb a a = true.
Proof. now apply key_eqb_eq. Qed.

Lemma key_eqb_neq (a b : key) : key_eqb a b = false <-> a <> b.
Proof.
  rewrite <- key_eqb_eq. destruct (key_eqb a b); split; congruence.
Qed.

Lemma key_lt_irrefl (a : key) : key_lt a a = false.
Proof.
  unfold key_lt. assert (H : key_compare a a = Eq) by now apply cmp_eq.
  now rewrite H.
Qed.

Lemma key_lt_trans (a b c : key) :
  key_lt a b = true -> key_lt b c = true -> key_lt a c = true.
Proof.
  unfold key_lt. destruct (key_compare a b) eqn:H1; try discriminate.
  destruct (key_compare b c) eqn:H2; try discriminate.
  now rewrite (cmp_trans _ _ _ _ H1 H2).
Qed.

(** Of two keys one is smaller, or they are the same. *)
Lemma key_lt_total (a b : key) :
  key_lt a b = false -> key_lt b a = false -> a = b.
Proof.
  unfold key_lt. rewrite (cmp_opp (cmp := key_compare) a b).
  destruct (key_compare a b) eqn:H; simpl; try discriminate.
  intros _ _. now apply cmp_eq.
Qed.

(** *** [sorted] is a stable sort *)

Section Grouping.

Context {V : Type}.

Let ltb : key * V -> key * V -> bool := fun a b => key_lt (fst a) (fst b).
Let has (k : key) : key * V -> bool := fun x => key_eqb (fst x) k.

Lemma filter_insert_by (k : key) (x : key * V) (l : list (key * V)) :
  filter (has k) (insert_by ltb x l) = filter (has k) (x :: l).
Proof.
  induction l as [|y l IH]; [reflexivity |].
  cbn [insert_by]. unfold ltb at 1.
  destruct (key_lt (fst y) (fst x)) eqn:Hlt; [| reflexivity].
  cbn [filter]. rewrite IH. cbn [filter]. unfold has.
  destruct (key_eqb (fst x) k) eqn:Hx, (key_eqb (fst y) k) eqn:Hy;
    try reflexivity.
  apply key_eqb_eq in Hx, Hy. rewrite Hx, Hy, key_lt_irrefl in Hlt.
  discriminate.
Qed.

Lemma filter_sorted (k : key) (l : list (key * V)) :
  filter (has k) (sorted ltb l) = filter (has k) l.
Proof.
  induction l as [|x l IH]; [reflexivity |].
  cbn [sorted fold_right]. fold (sorted ltb l).
  rewrite filter_insert_by. cbn [filter]. now rewrite IH.
Qed.

Lemma in_insert_by (x y : key * V) (l : list (key * V)) :
  In y (insert_by ltb x l) <-> y = x \/ In y l.
Proof.
  induction l as [|z l IH]; simpl.
  - intuition.
  - destruct (ltb z x); simpl; rewrite ?IH; intuition.
Qed.

Lemma in_sorted (y : key * V) (l : list (key * V)) :
  In y (sorted ltb l) <-> In y l.
Proof.
  induction l as [|x l IH]; [reflexivity |].
  cbn [sorted fold_right]. fold (sorted ltb l).
  rewrite in_insert_by, IH. simpl. intuition.
Qed.

Lemma key_le_trans_lt (a b c : key) :
  key_lt b a = false -> key_lt c b = false -> key_lt c a = false.
Proof.
  intros Hab Hbc. destruct (key_lt c a) eqn:Hca; [| reflexivity].
  destruct (key_lt a b) eqn:Hlt.
  - now rewrite (key_lt_trans _ _ _ Hca Hlt) in Hbc.
  - rewrite (key_lt_total a b Hlt Hab) in Hca. congruence.
Qed.

Lemma insert_by_sorted (x : key * V) (l : list (key * V)) :
  StronglySorted key_le l -> StronglySorted key_le (insert_by ltb x l).
Proof.
  induction 1 as [|y l Hs IH Hall]; simpl.
  - repeat constructor.
  - unfold ltb at 1. destruct (key_lt (fst y) (fst x)) eqn:Hlt.
    + constructor; [exact IH |].
      apply Forall_forall. intros z Hz. apply in_insert_by in Hz.
      destruct Hz as [-> | Hz].
      * unfold key_le. destruct (key_lt (fst x) (fst y)) eqn:Hxy; [| reflexivity].
        pose proof (key_lt_trans _ _ _ Hlt Hxy) as Hyy.
        rewrite key_lt_irrefl in Hyy. discriminate.
      * rewrite Forall_forall in Hall. now apply Hall.
    + constructor; [now constructor |].
      constructor; [exact Hlt |].
      rewrite Forall_forall in *. intros z Hz. specialize (Hall z Hz).
      unfold key_le in *. eapply key_le_trans_lt; eassumption.
Qed.

Lemma sorted_sorted (l : list (key * V)) : StronglySorted key_le (sorted ltb l).
Proof.
  induction l as [|x l IH]; [constructor |].
  cbn [sorted fold_right]. now apply insert_by_sorted.
Qed.

End Grouping.

(** *** The grouping dict *)

Section GroupingDict.

Context {V : Type}.

#[local] Abbreviation step :=
  (fun (d : list (key * list V)) (x : key * V) => group_append (fst x) (snd x) d).

Lemma group_get_append (k k' : key) (v : V) (d : list (key * list V)) :
  group_get k (group_append k' v d)
  = (group_get k d ++ if key_eqb k' k then [v] else [])%list.
Proof.
  induction d as [|[k0 vs] d IH]; unfold group_get in *; simpl.
  - now destruct (key_eqb k' k).
  - destruct (key_eqb k0 k') eqn:H0; simpl.
    + apply key_eqb_eq in H0. subst k0.
      destruct (key_eqb k' k); simpl; [reflexivity | now rewrite app_nil_r].
    + destruct (key_eqb k0 k) eqn:H1; simpl; [| exact IH].
      apply key_eqb_eq in H1. subst k0.
      rewrite (proj2 (key_eqb_neq k' k)); [now rewrite app_nil_r |].
      apply key_eqb_neq in H0. congruence.
Qed.

Lemma group_get_fold (k : key) (s : list (key * V)) :
  forall d,
    group_get k (fold_left step s d)
    = (group_get k d
       ++ map snd (filter (fun x => key_eqb (fst x) k) s))%list.
Proof.
  induction s as [|x s IH]; intros d; simpl.
  - now rewrite app_nil_r.
  - rewrite IH. rewrite group_get_append.
    rewrite <- app_assoc. now destruct (key_eqb (fst x) k).
Qed.

Lemma group_append_keys (k : key) (v : V) (d : list (key * list V)) :
  map fst (group_append k v d)
  = if existsb (fun k' => key_eqb k' k) (map fst d) then map fst d
    else (map fst d ++ [k])%list.
Proof.
  induction d as [|[k0 vs] d IH]; simpl; [reflexivity |].
  destruct (key_eqb k0 k); simpl; [reflexivity |].
  rewrite IH. now destruct (existsb _ _).
Qed.

Lemma group_append_nonempty (k : key) (v : V) (d : list (key * list V)) :
  Forall (fun kv => snd kv <> []) d ->
  Forall (fun kv => snd kv <> []) (group_append k v d).
Proof.
  induction 1 as [|[k0 vs] d Hk Hd IH]; simpl.
  - repeat constructor. discriminate.
  - destruct (key_eqb k0 k); constructor; simpl; auto.
    unfold list_append. now destruct vs.
Qed.

Lemma fold_group_nonempty (s : list (key * V)) :
  forall d, Forall (fun kv => snd kv <> []) d ->
            Forall (fun kv => snd kv <> []) (fold_left step s d).
Proof.
  induction s as [|x s IH]; intros d Hd; simpl; [exact Hd |].
  apply IH. now apply group_append_nonempty.
Qed.

Lemma fold_group_keys (k : key) (s : list (key * V)) :
  forall d, In k (map fst (fold_left step s d))
            <-> In k (map fst d) \/ In k (map fst s).
Proof.
  induction s as [|x s IH]; intros d; simpl; [intuition |].
  rewrite IH. rewrite group_append_keys.
  destruct (existsb _ _) eqn:Hex.
  - apply existsb_exists in Hex. destruct Hex as (k' & Hin & Heq).
    apply key_eqb_eq in Heq. subst k'. intuition (subst; auto).
  - rewrite in_app_iff. simpl. intuition.
Qed.

Lemma ascending_snoc (ks : list key) (k : key) :
  ascending ks -> (forall a, In a ks -> key_lt a k = true) ->
  ascending (ks ++ [k]).
Proof.
  unfold ascending. induction 1 as [|a ks Hs IH Hall]; intros Hk; simpl.
  - repeat constructor.
  - constructor.
    + apply IH. intros b Hb. apply Hk. now right.
    + apply Forall_app. split; [exact Hall |].
      constructor; [| constructor]. apply Hk. now left.
Qed.

Lemma fold_group_ascending (s : list (key * V)) :
  StronglySorted key_le s ->
  forall d,
    ascending (map fst d) ->
    (forall a x, In a (map fst d) -> In x s -> key_lt (fst x) a = false) ->
    ascending (map fst (fold_left step s d)).
Proof.
  induction 1 as [|x s Hs IH Hall]; intros d Hd Hbound; simpl; [exact Hd |].
  rewrite Forall_forall in Hall.
  apply IH; rewrite group_append_keys;
    destruct (existsb _ _) eqn:Hex.
  - exact Hd.
  - apply ascending_snoc; [exact Hd |].
    intros a Ha. destruct (key_lt a (fst x)) eqn:Hlt; [reflexivity |].
    assert (Hxa : key_lt (fst x) a = false) by (apply Hbound; simpl; auto).
    pose proof (key_lt_total _ _ Hlt Hxa) as ->.
    assert (existsb (fun k' => key_eqb k' (fst x)) (map fst d) = true)
      by (apply existsb_exists; exists (fst x); split;
          [exact Ha | apply key_eqb_refl]).
    congruence.
  - intros a y Ha Hy. apply Hbound; simpl; auto.
  - intros a y Ha Hy. apply in_app_iff in Ha. destruct Ha as [Ha | [<- | []]].
    + apply Hbound; simpl; auto.
    + now apply Hall.
Qed.

Lemma ascending_NoDup (ks : list key) : ascending ks -> NoDup ks.
Proof.
  induction 1 as [|a ks Hs IH Hall]; constructor; [| exact IH].
  intros Hin. rewrite Forall_forall in Hall. specialize (Hall a Hin).
  now rewrite key_lt_irrefl in Hall.
Qed.

Lemma group_get_in (k : key) (vs : list V) (d : list (key * list V)) :
  NoDup (map fst d) -> In (k, vs) d -> group_get k d = vs.
Proof.
  unfold group_get. induction d as [|[k0 v0] d IH]; simpl; intros Hnd Hin;
    [contradiction |].
  inversion Hnd as [|? ? Hnot Hnd']; subst.
  destruct Hin as [[= -> ->] | Hin].
  - now rewrite key_eqb_refl.
  - destruct (key_eqb k0 k) eqn:Heq; [| now apply IH].
    apply key_eqb_eq in Heq. subst k0. exfalso. apply Hnot.
    change k with (fst (k, vs)). now apply in_map.
Qed.

(** What the sort and the loop over it leave in the dict: the keys in
    ascending order, each once, and under each key its tables in the order
    they were parsed. *)
Lemma group_sorted_spec (l : list (key * V)) :
  ascending (map fst (group_sorted l))
  /\ (forall k vs, In (k, vs) (group_sorted l) ->
        vs = map snd (filter (fun x => key_eqb (fst x) k) l) /\ vs <> [])
  /\ (forall k, In k (map fst (group_sorted l)) <-> In k (map fst l)).
Proof.
  assert (Hasc : ascending (map fst (group_sorted l))).
  { unfold group_sorted. apply (fold_group_ascending _ (sorted_sorted l)).
    - constructor.
    - intros a x []. }
  split; [exact Hasc | split].
  - intros k vs Hin. split.
    + rewrite <- (group_get_in k vs _ (ascending_NoDup _ Hasc) Hin).
      unfold group_sorted. rewrite (group_get_fold k). simpl.
      now rewrite filter_sorted.
    + assert (Hne : Forall (fun kv : key * list V => snd kv <> [])
                      (group_sorted l))
        by (apply fold_group_nonempty; constructor).
      rewrite Forall_forall in Hne. exact (Hne _ Hin).
  - intros k. unfold group_sorted. rewrite (fold_group_keys k). simpl.
    rewrite !in_map_iff. split.
    + intros [[] | (x & Hx & Hin)]. exists x. split; [exact Hx |].
      exact (proj1 (in_sorted _ _) Hin).
    + intros (x & Hx & Hin). right. exists x. split; [exact Hx |].
      exact (proj2 (in_sorted _ _) Hin).
Qed.

End GroupingDict.

(** *** Runs of [mapM] *)

Lemma mapM_returns {A B} (f : A -> py B) (l : list A) :
  forall w l', mapM f l = (w, Return l') ->
               Forall2 (fun a b => exists w', f a = (w', Return b)) l l'.
Proof.
  induction l as [|a l IH]; simpl; intros w l' H.
  - injection H as _ <-. constructor.
  - destruct (f a) as [w1 [b| |]] eqn:Hf; simpl in H; try discriminate.
    destruct (mapM f l) as [w2 [bs| |]] eqn:Hm; simpl in H; try discriminate.
    injection H as _ <-. constructor; [now exists w1 | now apply (IH w2)].
Qed.

Lemma mapM_total {A B} (f : A -> py B) (P : A -> B -> Prop) (l : list A) :
  (forall a, In a l -> exists b, f a = ([], Return b) /\ P a b) ->
  exists l', mapM f l = ([], Return l') /\ Forall2 P l l'.
Proof.
  induction l as [|a l IH]; simpl; intros H.
  - exists []. split; [reflexivity | constructor].
  - destruct (H a (or_introl eq_refl)) as (b & Hf & Hp).
    destruct IH as (l' & Hm & Hall); [intros x Hx; apply H; now right |].
    exists (b :: l'). rewrite Hf, Hm. split; [reflexivity | now constructor].
Qed.

Lemma Forall2_in_r {A B} (R : A -> B -> Prop) (l : list A) (l' : list B) :
  Forall2 R l l' -> forall b, In b l' -> exists a, In a l /\ R a b.
Proof.
  induction 1 as [|a b l l' Hr Hall IH]; intros y Hy; [contradiction |].
  destruct Hy as [<- | Hy].
  - exists a. split; [now left | exact Hr].
  - destruct (IH y Hy) as (x & Hx & Hxy). exists x. split; [now right | exact Hxy].
Qed.

Lemma Forall2_keys {A B} (R : key * A -> key * B -> Prop)
  (l : list (key * A)) (l' : list (key * B)) :
  Forall2 R l l' -> (forall a b, R a b -> fst b = fst a) ->
  map fst l' = map fst l.
Proof.
  induction 1 as [|a b l l' Hr Hall IH]; intros Hk; simpl; [reflexivity |].
  now rewrite (Hk a b Hr), IH.
Qed.


(* ================================================================== *)
(** ** The tables of the series ([maker])                             *)
(* ================================================================== *)

Lemma bind_returns_app {A B} (m : py A) (f : A -> py B) (w : list warning)
  (b : B) :
  bind m f = (w, Return b) ->
  exists w1 a w2, m = (w1, Return a) /\ f a = (w2, Return b)
                  /\ w = (w1 ++ w2)%list.
Proof.
  destruct m as [w1 [a| |]]; simpl; try discriminate.
  destruct (f a) as [w2 r] eqn:Hf. intros [= <- ->]. now exists w1, a, w2.
Qed.

(** A run of [mapM] signals nothing when its steps signal nothing. *)
Lemma mapM_quiet {A B} (f : A -> py B) (l : list A) :
  (forall a w b, f a = (w, Return b) -> w = []) ->
  forall w l', mapM f l = (w, Return l') -> w = [].
Proof.
  intros Hf. induction l as [|a l IH]; intros w l' H.
  - now injection H as <- _.
  - cbn [mapM] in H.
    apply bind_returns_app in H. destruct H as (w1 & b & w2 & Ha & H & ->).
    apply bind_returns_app in H. destruct H as (w3 & bs & w4 & Hl & H & ->).
    injection H as <- _. rewrite (Hf _ _ _ Ha), (IH _ _ Hl). reflexivity.
Qed.

Lemma Forall2_in_l {A B} (R : A -> B -> Prop) (l : list A) (l' : list B) :
  Forall2 R l l' -> forall a, In a l -> exists b, In b l' /\ R a b.
Proof.
  induction 1 as [|a b l l' Hr Hall IH]; intros x Hx; [contradiction |].
  destruct Hx as [<- | Hx].
  - exists b. split; [now left | exact Hr].
  - destruct (IH x Hx) as (y & Hy & Hxy). exists y. split; [now right | exact Hxy].
Qed.

Lemma Forall2_nth {A B} (R : A -> B -> Prop) (l : list A) (l' : list B)
  (da : A) (db : B) :
  Forall2 R l l' ->
  forall i, (i < List.length l)%nat -> R (nth i l da) (nth i l' db).
Proof.
  induction 1 as [|a b l l' Hr Hall IH]; intros [|i] Hi; simpl in *;
    try lia; [exact Hr | apply IH; lia].
Qed.


Lemma Forall2_map_l {A B C} (R : B -> C -> Prop) (f : A -> B) (l : list A)
  (l' : list C) :
  Forall2 (fun a c => R (f a) c) l l' -> Forall2 R (map f l) l'.
Proof. induction 1; simpl; constructor; auto. Qed.

Lemma Forall2_map_r {A B C} (R : A -> C -> Prop) (g : B -> C) (l : list A)
  (l' : list B) :
  Forall2 (fun a b => R a (g b)) l l' -> Forall2 R l (map g l').
Proof. induction 1; simpl; constructor; auto. Qed.

Lemma Forall2_of_map_r {A B C} (R : A -> C -> Prop) (g : B -> C) (l : list A)
  (l' : list B) :
  Forall2 R l (map g l') -> Forall2 (fun a b => R a (g b)) l l'.
Proof.
  revert l. induction l' as [|b l' IH]; intros l H; inversion H; subst;
    constructor; auto.
Qed.

Lemma combine_fst_snd {A B} (a : list A) (b : list B) :
  List.length a = List.length b ->
  map fst (combine a b) = a /\ map snd (combine a b) = b.
Proof.
  revert b. induction a as [|x a IH]; intros [|y b]; simpl; try discriminate;
    auto.
  intros [= H]. destruct (IH b H) as [-> ->]. auto.
Qed.

Lemma positional_length (n : nat) : List.length (positional n) = n.
Proof. unfold positional. now rewrite length_map, length_seq. Qed.

(** *** Conversion of cells *)

Lemma converted_refl (c : cell) : converted c c.
Proof. now left. Qed.


Lemma cast_cell_returns (d : dtype) (c : cell) (w : list warning) (c' : cell) :
  cast_cell d c = (w, Return c') -> w = [] /\ converted c c'.
Proof.
  unfold converted.
  destruct d, c; simpl;
    try (intros [= <- <-]; split; [reflexivity | now left]).
  - destruct (in_int64 z); [| discriminate].
    intros [= <- <-]. split; [reflexivity | now left].
  - destruct (float_holds z); [| discriminate].
    intros [= <- <-]. split; [reflexivity | right; left; now exists z].
  - intros [= <- <-]. split; [reflexivity | right; right; now split].
Qed.

Lemma cast_row_returns (dtypes : list dtype) :
  forall (row : list cell) (w : list warning) (row' : list cell),
    List.length dtypes = List.length row ->
    cast_row dtypes row = (w, Return row') ->
    w = [] /\ Forall2 converted row row'.
Proof.
  unfold cast_row.
  induction dtypes as [|d dtypes IH]; intros [|c row] w row' Hlen H;
    try discriminate.
  - injection H as <- <-. split; [reflexivity | constructor].
  - cbn [combine mapM fst snd] in H.
    apply bind_returns_app in H. destruct H as (w1 & c' & w2 & Hc & H & ->).
    apply bind_returns_app in H. destruct H as (w3 & cs & w4 & Hr & H & ->).
    injection H as <- <-.
    destruct (cast_cell_returns _ _ _ _ Hc) as [-> Hconv].
    destruct (IH row w3 cs (eq_add_S _ _ Hlen) Hr) as [-> Hall].
    split; [reflexivity | now constructor].
Qed.

(** *** [pd.DataFrame] *)

Lemma max_length_bound (rows : list (list cell)) (r : list cell) :
  In r rows -> (List.length r <= max_length rows)%nat.
Proof.
  induction rows as [|x rows IH]; intros Hin; [contradiction |].
  simpl. destruct Hin as [-> | Hin]; [lia |].
  specialize (IH Hin). lia.
Qed.

Lemma pad_row_length (k : nat) (r : list cell) :
  (List.length r <= k)%nat -> List.length (pad_row k r) = k.
Proof. intros H. unfold pad_row. rewrite length_app, repeat_length. lia. Qed.

Lemma nth_pad_row (k i : nat) (r : list cell) (d : cell) :
  (i < k)%nat -> nth i (pad_row k r) d = nth i r CNone.
Proof.
  intros Hi. unfold pad_row.
  destruct (Nat.lt_ge_cases i (List.length r)) as [Hlt | Hge].
  - rewrite app_nth1 by exact Hlt. now apply nth_indep.
  - rewrite app_nth2 by exact Hge. rewrite (nth_overflow r) by exact Hge.
    apply nth_repeat_lt. lia.
Qed.

Lemma Forall2_of_map_l {A B C} (R : B -> C -> Prop) (f : A -> B) (l : list A)
  (l' : list C) :
  Forall2 R (map f l) l' -> Forall2 (fun a c => R (f a) c) l l'.
Proof.
  revert l'. induction l as [|a l IH]; intros l' H; inversion H; subst;
    constructor; auto.
Qed.

Lemma Forall2_impl_in {A B} (R S : A -> B -> Prop) (l : list A) (l' : list B) :
  Forall2 R l l' ->
  (forall a b, In a l -> In b l' -> R a b -> S a b) ->
  Forall2 S l l'.
Proof.
  induction 1 as [|a b l l' Hr Hall IH]; intros Himp; constructor.
  - apply Himp; simpl; auto.
  - apply IH. intros x y Hx Hy. apply Himp; simpl; auto.
Qed.

Lemma cast_row_quiet (dtypes : list dtype) (row : list cell)
  (w : list warning) (row' : list cell) :
  cast_row dtypes row = (w, Return row') -> w = [].
Proof.
  apply mapM_quiet. intros a wa b Ha. now apply cast_cell_returns in Ha.
Qed.

(** What [pd.DataFrame] returns: it signals nothing; there are no rows, or
    the longest row has one cell per name; the columns are the names; the
    index is positional; and the rows are the rows given, short ones
    filled up with nulls, each cell as pandas converts it. *)
Lemma pd_DataFrame_returns (values : list (list cell)) (columns : list string)
  (w : list warning) (df : DataFrame) :
  pd_DataFrame values columns = (w, Return df) ->
  w = []
  /\ (values = [] \/ max_length values = List.length columns)
  /\ map fst (df_columns df) = columns
  /\ map fst (df_rows df) = positional (List.length values)
  /\ Forall2 (fun v r => Forall2 converted (pad_row (List.length columns) v) r)
       values (map snd (df_rows df))
  /\ (values <> [] -> df_index_type df = RangeIndex).
Proof.
  unfold pd_DataFrame. destruct values as [|v0 values'] eqn:Hv.
  - intros [= <- <-]. cbn [df_columns df_rows]. rewrite map_map. cbn [fst].
    rewrite map_id. subst values.
    split; [reflexivity | split; [now left | split; [reflexivity |]]].
    split; [reflexivity | split; [constructor |]]. intros H. now elim H.
  - rewrite <- Hv. destruct (Nat.eqb _ _) eqn:Hmax; [| discriminate].
    apply Nat.eqb_eq in Hmax. intros H.
    apply bind_returns_app in H. destruct H as (w1 & rows & w2 & Hrows & H & ->).
    injection H as <- <-. cbn [df_columns df_rows df_index_type].
    set (dtypes := map _ (seq 0 (List.length columns))) in *.
    assert (Hdt : List.length dtypes = List.length columns)
      by (unfold dtypes; now rewrite length_map, length_seq).
    assert (Hq : w1 = []).
    { apply (mapM_quiet _ _) in Hrows; [exact Hrows |].
      intros a wa b. apply cast_row_quiet. }
    apply mapM_returns in Hrows.
    assert (Hlen : List.length rows = List.length values)
      by (rewrite <- (Forall2_length Hrows); apply length_map).
    destruct (combine_fst_snd (positional (List.length values)) rows)
      as [Hl Hr]; [now rewrite positional_length |].
    destruct (combine_fst_snd columns dtypes (eq_sym Hdt)) as [Hn _].
    rewrite Hl, Hr, Hn, Hq. repeat split; auto.
    apply Forall2_of_map_l in Hrows.
    eapply Forall2_impl_in; [exact Hrows |].
    intros v r Hin _ (w' & Hcast).
    refine (proj2 (cast_row_returns dtypes _ _ _ _ Hcast)).
    rewrite Hdt. symmetry. apply pad_row_length. rewrite <- Hmax.
    now apply max_length_bound.
Qed.

(** *** Column names and positions *)

Lemma replace_nth_names {T} (i : nat) (k : string) (t t' : T)
  (cols : list (string * T)) :
  nth_error cols i = Some (k, t) ->
  map fst (replace_nth i (k, t') cols) = map fst cols.
Proof.
  revert i. induction cols as [|c cols IH]; intros [|i]; simpl; try discriminate.
  - now intros [= ->].
  - intros H. now rewrite IH.
Qed.

Lemma index_of_absent (k : string) (l : list string) :
  ~ In k l -> index_of k l = None.
Proof.
  induction l as [|x l IH]; simpl; intros Hn; [reflexivity |].
  destruct (String.eqb x k) eqn:Hx.
  - apply String.eqb_eq in Hx. tauto.
  - rewrite IH; tauto.
Qed.

Lemma index_of_bound (k : string) (l : list string) (j : nat) :
  index_of k l = Some j -> nth_error l j = Some k.
Proof.
  revert j. induction l as [|x l IH]; intros j; simpl; [discriminate |].
  destruct (String.eqb x k) eqn:Hx.
  - intros [= <-]. apply String.eqb_eq in Hx. now subst x.
  - destruct (index_of k l) as [i|]; [| discriminate].
    intros [= <-]. now apply IH.
Qed.

Lemma index_of_app_new (k : string) (l : list string) :
  index_of k l = None -> index_of k (l ++ [k]) = Some (List.length l).
Proof.
  induction l as [|x l IH]; simpl.
  - now rewrite String.eqb_refl.
  - destruct (String.eqb x k); [discriminate |].
    destruct (index_of k l); [discriminate |].
    intros _. now rewrite IH.
Qed.

Lemma index_of_app_other (k k' : string) (l : list string) :
  k' <> k -> index_of k' (l ++ [k]) = index_of k' l.
Proof.
  intros Hne. induction l as [|x l IH]; simpl.
  - destruct (String.eqb k k') eqn:H; [| reflexivity].
    apply String.eqb_eq in H. congruence.
  - destruct (String.eqb x k'); [reflexivity | now rewrite IH].
Qed.

Lemma replace_nth_length {A} (i : nat) (a : A) (l : list A) :
  List.length (replace_nth i a l) = List.length l.
Proof.
  revert i. induction l as [|x l IH]; intros [|i]; simpl; auto.
Qed.

Lemma remove_nth_length {A B} (i : nat) (l : list A) (l' : list B) :
  List.length l = List.length l' ->
  List.length (remove_nth i l) = List.length (remove_nth i l').
Proof.
  revert i l'. induction l as [|x l IH]; intros [|i] [|y l']; simpl;
    try discriminate; auto.
Qed.

Lemma nth_replace_nth_same {A} (i : nat) (a d : A) (l : list A) :
  (i < List.length l)%nat -> nth i (replace_nth i a l) d = a.
Proof.
  revert i. induction l as [|x l IH]; intros [|i]; simpl; try lia; auto.
  intros H. apply IH. lia.
Qed.

Lemma nth_replace_nth_other {A} (i j : nat) (a d : A) (l : list A) :
  i <> j -> nth j (replace_nth i a l) d = nth j l d.
Proof.
  revert i j. induction l as [|x l IH]; intros [|i] [|j]; simpl; try congruence;
    auto.
Qed.

Lemma set_column_frame (k : string) (v : cell) (df : DataFrame) :
  df_index_type (set_column k v df) = df_index_type df
  /\ map fst (df_rows (set_column k v df)) = map fst (df_rows df).
Proof.
  unfold set_column. destruct (index_of k _); cbn [df_index_type df_rows];
    rewrite map_map; auto.
Qed.

Lemma set_column_rectangular (k : string) (v : cell) (df : DataFrame) :
  rectangular df -> rectangular (set_column k v df).
Proof.
  unfold rectangular, set_column. intros H.
  destruct (index_of k _); cbn [df_columns df_rows]; apply Forall_map;
    (eapply Forall_impl; [| exact H]); intros r Hr; cbn [snd].
  - now rewrite !replace_nth_length.
  - unfold list_append. rewrite !length_app. cbn [List.length].
    now rewrite Hr.
Qed.

Lemma set_column_names (k : string) (v : cell) (df : DataFrame) :
  map fst (df_columns (set_column k v df))
  = match index_of k (map fst (df_columns df)) with
    | Some _ => map fst (df_columns df)
    | None => (map fst (df_columns df) ++ [k])%list
    end.
Proof.
  unfold set_column. destruct (index_of k _) as [j|] eqn:Hj;
    cbn [df_columns].
  - apply index_of_bound in Hj. rewrite nth_error_map in Hj.
    destruct (nth_error (df_columns df) j) as [[k0 t]|] eqn:Hn;
      [| discriminate].
    injection Hj as ->. now apply (replace_nth_names j k t).
  - unfold list_append. now rewrite map_app.
Qed.

Lemma set_column_constant (k : string) (v : cell) (df : DataFrame) :
  rectangular df -> constant_column k v (set_column k v df).
Proof.
  intros Hrect. unfold constant_column. rewrite set_column_names.
  unfold set_column.
  destruct (index_of k (map fst (df_columns df))) as [j|] eqn:Hj.
  - exists j. split; [exact Hj |]. cbn [df_rows]. apply Forall_map.
    eapply Forall_impl; [| exact Hrect]. intros r Hr. cbn [snd].
    apply nth_replace_nth_same. rewrite Hr.
    apply index_of_bound in Hj.
    rewrite <- (length_map fst). apply nth_error_Some. congruence.
  - exists (List.length (map fst (df_columns df))).
    split; [now apply index_of_app_new |]. cbn [df_rows]. apply Forall_map.
    eapply Forall_impl; [| exact Hrect]. intros r Hr. cbn [snd].
    unfold list_append. rewrite length_map, <- Hr.
    now rewrite nth_middle.
Qed.

Lemma set_column_keeps (k k' : string) (v c : cell) (df : DataFrame) :
  rectangular df -> k' <> k ->
  constant_column k' c df -> constant_column k' c (set_column k v df).
Proof.
  intros Hrect Hne (j' & Hj' & Hcells). unfold constant_column.
  rewrite set_column_names. unfold set_column.
  destruct (index_of k (map fst (df_columns df))) as [j|] eqn:Hj.
  - exists j'. split; [exact Hj' |]. cbn [df_rows]. apply Forall_map.
    eapply Forall_impl; [| exact Hcells]. intros r Hr. cbn [snd].
    rewrite nth_replace_nth_other; [exact Hr |].
    intros ->. apply index_of_bound in Hj, Hj'. congruence.
  - exists j'. split; [now rewrite index_of_app_other |].
    cbn [df_rows]. apply Forall_map. unfold rectangular in Hrect.
    rewrite Forall_forall in *.
    intros r Hr. cbn [snd]. unfold list_append.
    rewrite app_nth1; [now apply Hcells |].
    rewrite (Hrect r Hr), <- (length_map fst).
    apply index_of_bound in Hj'. apply nth_error_Some. congruence.
Qed.

Lemma set_tags_frame (tags : dict string) :
  forall df,
    let df' := fold_left (fun df kv => set_column (fst kv) (CStr (snd kv)) df)
                 tags df in
    df_index_type df' = df_index_type df
    /\ map fst (df_rows df') = map fst (df_rows df)
    /\ (rectangular df -> rectangular df').
Proof.
  induction tags as [|[k v] tags IH]; intros df; simpl; [auto |].
  destruct (IH (set_column k (CStr v) df)) as (Ht & Hl & Hr).
  destruct (set_column_frame k (CStr v) df) as [Ht' Hl'].
  rewrite Ht, Hl, Ht', Hl'. repeat split; auto.
  intros H. now apply Hr, set_column_rectangular.
Qed.

Lemma set_tags_constant (tags : dict string) :
  NoDup (map fst tags) ->
  forall df,
    rectangular df ->
    (forall k v, In (k, v) tags ->
       constant_column k (CStr v)
         (fold_left (fun df kv => set_column (fst kv) (CStr (snd kv)) df)
            tags df))
    /\ (forall k c, ~ In k (map fst tags) -> constant_column k c df ->
          constant_column k c
            (fold_left (fun df kv => set_column (fst kv) (CStr (snd kv)) df)
               tags df)).
Proof.
  induction tags as [|[k0 v0] tags IH]; intros Hnd df Hrect; simpl.
  - split; [intros k v [] | auto].
  - inversion Hnd as [|? ? Hnot Hnd']; subst.
    destruct (IH Hnd' (set_column k0 (CStr v0) df)
                (set_column_rectangular _ _ _ Hrect)) as [Hin Hkeep].
    split.
    + intros k v [[= -> ->] | Hkv].
      * apply Hkeep; [exact Hnot | now apply set_column_constant].
      * now apply Hin.
    + intros k c Hk Hc. apply Hkeep; [tauto |].
      apply set_column_keeps; auto.
Qed.

Lemma set_time_index_frame (E : env) (i : nat) (df df' : DataFrame)
  (w : list warning) :
  set_time_index E i df = (w, Return df') ->
  df_index_type df' = DatetimeIndex
  /\ Forall2 (fun l row => exists w',
                to_datetime_utc E (nth i row CNaN) = (w', Return l))
       (map fst (df_rows df')) (map snd (df_rows df))
  /\ (rectangular df -> rectangular df').
Proof.
  unfold set_time_index. intros H.
  apply bind_returns in H. destruct H as (w1 & rows & w2 & Hm & H).
  injection H as _ <-. cbn [df_index_type df_rows df_columns].
  apply mapM_returns in Hm. split; [reflexivity | split].
  - clear -Hm. induction Hm as [|r r' l l' (w' & Hr) _ IH]; simpl;
      constructor; [| exact IH].
    apply bind_returns in Hr. destruct Hr as (w3 & lab & w4 & Hl & Hr).
    injection Hr as _ <-. now exists w3.
  - unfold rectangular. cbn [df_rows df_columns]. intros Hrect.
    clear -Hm Hrect. induction Hm as [|r r' l l' (w' & Hr) _ IH];
      [constructor |].
    inversion Hrect as [|? ? Hlen Hrect']; subst.
    constructor; [| now apply IH].
    apply bind_returns in Hr. destruct Hr as (w3 & lab & w4 & _ & Hr).
    injection Hr as _ <-. cbn [snd]. now apply remove_nth_length.
Qed.


(** *** Parsing *)

Lemma parsing_series (E : env) (resp : response) (w : list warning)
  (df_list : list (key * DataFrame)) :
  parsing E resp = (w, Return df_list) ->
  mapM (parse_series E) (series_of resp) = (w, Return df_list).
Proof.
  unfold parsing, series_of. destruct (r_results resp) as [results|];
    [| discriminate].
  cbn [bind ret]. destruct (mapM _ _) as [w' r]. now intros [= <- <-].
Qed.

Lemma make_df_parsed (E : env) (resp : response)
  (tag_cache : option (dict (dict (list cell))))
  (w : list warning) (result : decoded) :
  make_df E resp tag_cache = (w, Return result) ->
  exists wl df_list, parsing E resp = (wl, Return df_list).
Proof.
  unfold make_df. destruct (pd_available E); [| discriminate].
  cbn [negb]. intros H. apply bind_returns in H.
  destruct H as (wl & df_list & _ & Hp & _). now exists wl, df_list.
Qed.


(** *** The cells of a row under the names of the columns *)

Lemma lookup_cons_same (x : string) (names : list string) (y : cell)
  (cells : list cell) :
  lookup (x :: names) (y :: cells) x = y.
Proof. unfold lookup. simpl. now rewrite String.eqb_refl. Qed.

Lemma lookup_cons_other (x c : string) (names : list string) (y : cell)
  (cells : list cell) :
  String.eqb x c = false ->
  lookup (x :: names) (y :: cells) c = lookup names cells c.
Proof.
  intros H. unfold lookup. simpl. rewrite H.
  now destruct (index_of c names).
Qed.

Lemma index_of_present (k : string) (l : list string) :
  In k l -> exists i, index_of k l = Some i.
Proof.
  induction l as [|x l IH]; intros Hin; [contradiction |]. simpl.
  destruct (String.eqb x k) eqn:Hx; [now exists O |].
  destruct Hin as [-> | Hin]; [now rewrite String.eqb_refl in Hx |].
  destruct (IH Hin) as (i & ->). now exists (S i).
Qed.

Lemma index_of_in (k : string) (l : list string) (i : nat) :
  index_of k l = Some i -> In k l.
Proof. intros H. apply index_of_bound in H. eapply nth_error_In, H. Qed.

Lemma index_of_lt (k : string) (l : list string) (i : nat) :
  index_of k l = Some i -> (i < List.length l)%nat.
Proof.
  intros H. apply index_of_bound in H. apply nth_error_Some. congruence.
Qed.

Lemma dict_get_app {V} (k : string) (a b : dict V) :
  dict_get k (a ++ b)%list
  = match dict_get k a with
    | Some v => Some v
    | None => dict_get k b
    end.
Proof.
  induction a as [|[k' v'] a IH]; simpl; [reflexivity |].
  now destruct (String.eqb k' k).
Qed.

(** [df[k] = v] on one row. *)
Lemma lookup_set_column (k c : string) (v : cell) (names : list string)
  (cells : list cell) :
  List.length cells = List.length names ->
  lookup (match index_of k names with
          | Some _ => names
          | None => (names ++ [k])%list
          end)
         (match index_of k names with
          | Some i => replace_nth i v cells
          | None => list_append cells v
          end) c
  = if String.eqb c k then v else lookup names cells c.
Proof.
  intros Hlen. unfold lookup.
  destruct (String.eqb c k) eqn:Hck.
  - apply String.eqb_eq in Hck. subst c.
    destruct (index_of k names) as [i|] eqn:Hi.
    + rewrite Hi. cbn [pick_cell]. apply nth_replace_nth_same. rewrite Hlen.
      now apply (index_of_lt k).
    + rewrite (index_of_app_new _ _ Hi). cbn [pick_cell].
      unfold list_append. rewrite <- Hlen. apply nth_middle.
  - assert (Hne : c <> k) by (intros ->; now rewrite String.eqb_refl in Hck).
    destruct (index_of k names) as [i|] eqn:Hi.
    + destruct (index_of c names) as [j|] eqn:Hj; [| reflexivity].
      cbn [pick_cell]. apply nth_replace_nth_other.
      intros ->. apply index_of_bound in Hi, Hj. congruence.
    + rewrite (index_of_app_other k c names Hne).
      destruct (index_of c names) as [j|] eqn:Hj; [| reflexivity].
      cbn [pick_cell]. unfold list_append. apply app_nth1.
      rewrite Hlen. now apply (index_of_lt c).
Qed.

Lemma set_column_rows (k : string) (v : cell) (df : DataFrame) :
  df_rows (set_column k v df)
  = map (fun r => (fst r,
                   match index_of k (map fst (df_columns df)) with
                   | Some i => replace_nth i v (snd r)
                   | None => list_append (snd r) v
                   end)) (df_rows df).
Proof. unfold set_column. now destruct (index_of k _). Qed.

Lemma Forall2_same {A} (R : A -> A -> Prop) (l : list A) :
  (forall a, In a l -> R a a) -> Forall2 R l l.
Proof.
  induction l as [|a l IH]; intros H; constructor.
  - apply H. now left.
  - apply IH. intros x Hx. apply H. now right.
Qed.

(** The tags of a series, set one after the other on every row. *)
Lemma set_tags_rows (tags : dict string) :
  forall df,
    rectangular df ->
    let df' := fold_left (fun df kv => set_column (fst kv) (CStr (snd kv)) df)
                 tags df in
    Forall2 (fun r r' =>
               fst r' = fst r
               /\ forall c,
                    lookup (map fst (df_columns df')) (snd r') c
                    = match dict_get c (rev tags) with
                      | Some t => CStr t
                      | None => lookup (map fst (df_columns df)) (snd r) c
                      end)
      (df_rows df) (df_rows df').
Proof.
  induction tags as [|[k v] tags IH]; intros df Hrect; cbn [fold_left].
  - apply Forall2_same. intros r _. split; reflexivity.
  - specialize (IH (set_column k (CStr v) df)
                  (set_column_rectangular _ _ _ Hrect)).
    cbv zeta in IH. cbn [fst snd] in IH |- *.
    rewrite set_column_rows in IH. apply Forall2_of_map_l in IH.
    eapply Forall2_impl_in; [exact IH |].
    intros r r' Hr _ [Hl Hc]. cbn [fst snd] in Hl, Hc.
    split; [exact Hl |]. intros c. rewrite (Hc c).
    cbn [rev]. rewrite dict_get_app. cbn [dict_get].
    destruct (dict_get c (rev tags)); [reflexivity |].
    rewrite set_column_names.
    unfold rectangular in Hrect. rewrite Forall_forall in Hrect.
    rewrite lookup_set_column
      by (rewrite (Hrect r Hr); symmetry; apply length_map).
    rewrite String.eqb_sym. now destruct (String.eqb k c).
Qed.

Lemma map_remove_nth {A B} (f : A -> B) (i : nat) (l : list A) :
  map f (remove_nth i l) = remove_nth i (map f l).
Proof.
  revert i. induction l as [|x l IH]; intros [|i]; simpl; try reflexivity.
  now rewrite IH.
Qed.

(** Dropping the one column of a name. *)
Lemma lookup_remove_nth (t c : string) (names : list string) :
  forall (cells : list cell) (i : nat),
    index_of t names = Some i ->
    (List.length (filter (String.eqb t) names) <= 1)%nat ->
    List.length cells = List.length names ->
    lookup (remove_nth i names) (remove_nth i cells) c
    = if String.eqb c t then CNaN else lookup names cells c.
Proof.
  induction names as [|x names IH]; intros [|y cells] i Hi Hone Hlen;
    try discriminate.
  simpl in Hi, Hone. destruct (String.eqb x t) eqn:Hxt.
  - apply String.eqb_eq in Hxt. subst x. injection Hi as <-.
    rewrite String.eqb_refl in Hone. cbn [remove_nth].
    destruct (String.eqb c t) eqn:Hct.
    + apply String.eqb_eq in Hct. subst c. unfold lookup.
      rewrite index_of_absent; [reflexivity |].
      intros Hin. simpl in Hone.
      assert (Hf : In t (filter (String.eqb t) names))
        by (apply filter_In; split; [exact Hin | apply String.eqb_refl]).
      destruct (filter (String.eqb t) names); [contradiction | simpl in Hone; lia].
    + rewrite lookup_cons_other; [reflexivity |].
      now rewrite String.eqb_sym.
  - destruct (index_of t names) as [i'|] eqn:Hi'; [| discriminate].
    injection Hi as <-. cbn [remove_nth].
    rewrite String.eqb_sym, Hxt in Hone.
    destruct (String.eqb x c) eqn:Hxc.
    + apply String.eqb_eq in Hxc. subst c. rewrite !lookup_cons_same.
      now rewrite Hxt.
    + rewrite !lookup_cons_other by exact Hxc.
      apply IH; [reflexivity | exact Hone | now injection Hlen].
Qed.

Lemma to_datetime_quiet (E : env) (c : cell) (w : list warning) (l : label) :
  to_datetime_utc E c = (w, Return l) -> w = [].
Proof.
  destruct c; simpl; try discriminate; try (now intros [= <- _]).
  - destruct (in_int64 z); [now intros [= <- _] | discriminate].
  - destruct (pd_parse E s) as [d|]; [| discriminate].
    destruct (in_bounds _); [| discriminate].
    destruct (dt_tzinfo d); [discriminate | now intros [= <- _]].
Qed.

(** The time of a cell is the time of the cell pandas made of it. *)
Lemma to_datetime_converted (E : env) (c c' : cell) (w : list warning)
  (l : label) :
  converted c c' ->
  to_datetime_utc E c' = (w, Return l) -> to_datetime_utc E c = (w, Return l).
Proof.
  intros [-> | [(z & -> & ->) | [-> ->]]]; [auto | discriminate | auto].
Qed.

Lemma set_time_index_rows (E : env) (i : nat) (df df' : DataFrame)
  (w : list warning) :
  set_time_index E i df = (w, Return df') ->
  w = []
  /\ df_index_type df' = DatetimeIndex
  /\ map fst (df_columns df') = remove_nth i (map fst (df_columns df))
  /\ Forall2 (fun r r' =>
                (exists w', to_datetime_utc E (nth i (snd r) CNaN)
                            = (w', Return (fst r')))
                /\ snd r' = remove_nth i (snd r))
       (df_rows df) (df_rows df').
Proof.
  unfold set_time_index. intros H.
  apply bind_returns_app in H. destruct H as (w1 & rows & w2 & Hm & H & ->).
  injection H as <- <-. cbn [df_index_type df_columns df_rows].
  assert (Hq : w1 = []).
  { apply (mapM_quiet _ _) in Hm; [exact Hm |]. intros r wr b Hr.
    apply bind_returns_app in Hr. destruct Hr as (w3 & l & w4 & Hl & Hr & ->).
    injection Hr as <- _. now rewrite (to_datetime_quiet _ _ _ _ Hl). }
  subst w1. split; [reflexivity | split; [reflexivity | split]].
  - apply map_remove_nth.
  - apply mapM_returns in Hm. eapply Forall2_impl; [| exact Hm].
    intros r r' (w' & Hr).
    apply bind_returns in Hr. destruct Hr as (w3 & l & w4 & Hl & Hr).
    injection Hr as _ <-. cbn [fst snd]. split; [now exists w3 | reflexivity].
Qed.

Lemma Forall2_compose {A B C} (R : A -> B -> Prop) (S : B -> C -> Prop)
  (l1 : list A) (l2 : list B) (l3 : list C) :
  Forall2 R l1 l2 -> Forall2 S l2 l3 ->
  Forall2 (fun a c => exists b, R a b /\ S b c) l1 l3.
Proof.
  intros H. revert l3. induction H as [|a b l1 l2 Hr Hall IH]; intros l3 H3;
    inversion H3; subst; constructor; eauto.
Qed.

Lemma positional_labels (rows : list (label * list cell)) (n : nat) :
  map fst rows = positional n ->
  Forall (fun r => exists m, fst r = LInt m) rows.
Proof.
  unfold positional. generalize (seq 0 n) as l.
  induction rows as [|r rows IH]; intros [|i l] H; try discriminate;
    constructor.
  - injection H as H _. now exists (Z.of_nat i).
  - injection H as _ H. now apply (IH l).
Qed.

(** The rows of [pd.DataFrame(values, columns=columns)], each under the
    names of the columns. *)
Lemma pd_DataFrame_rows (values : list (list cell)) (columns : list string)
  (w : list warning) (df : DataFrame) :
  pd_DataFrame values columns = (w, Return df) ->
  w = []
  /\ map fst (df_columns df) = columns
  /\ map fst (df_rows df) = positional (List.length values)
  /\ Forall2 (fun v r =>
                List.length (snd r) = List.length columns
                /\ Forall2 converted (pad_row (List.length columns) v) (snd r)
                /\ forall c,
                     converted (match index_of c columns with
                                | Some i => nth i v CNone
                                | None => CNaN
                                end)
                       (lookup columns (snd r) c))
       values (df_rows df).
Proof.
  intros H.
  destruct (pd_DataFrame_returns _ _ _ _ H) as (Hw & Hfit & Hn & Hl & Hr & _).
  split; [exact Hw | split; [exact Hn | split; [exact Hl |]]].
  apply Forall2_of_map_r in Hr. eapply Forall2_impl_in; [exact Hr |].
  intros v r Hv _ Hconv.
  assert (Hpad : List.length (pad_row (List.length columns) v)
                 = List.length columns).
  { apply pad_row_length. destruct Hfit as [-> | <-]; [contradiction |].
    now apply max_length_bound. }
  assert (Hlen : List.length (snd r) = List.length columns)
    by (rewrite <- (Forall2_length Hconv); exact Hpad).
  split; [exact Hlen | split; [exact Hconv |]].
  intros c. unfold lookup.
  destruct (index_of c columns) as [i|] eqn:Hi; [| apply converted_refl].
  cbn [pick_cell]. pose proof (index_of_lt _ _ _ Hi) as Hlt.
  rewrite <- (nth_pad_row (List.length columns) i v CNone Hlt).
  apply Forall2_nth; [exact Hconv | now rewrite Hpad].
Qed.

Lemma pd_DataFrame_rectangular (values : list (list cell))
  (columns : list string) (w : list warning) (df : DataFrame) :
  pd_DataFrame values columns = (w, Return df) -> rectangular df.
Proof.
  intros H. destruct (pd_DataFrame_rows _ _ _ _ H) as (_ & Hn & _ & Hr).
  unfold rectangular. rewrite <- (length_map fst (df_columns df)), Hn.
  apply Forall_forall. intros r Hin.
  destruct (Forall2_in_r _ _ _ Hr r Hin) as (v & _ & Hlen & _). exact Hlen.
Qed.

(** The steps of [maker]. *)
Lemma maker_steps (E : env) (s : series) (w : list warning) (df : DataFrame) :
  maker E s = (w, Return df) ->
  w = []
  /\ exists values columns df0,
       s_values s = Some values /\ s_columns s = Some columns
       /\ pd_DataFrame values columns = ([], Return df0)
       /\ match index_of "time" columns with
          | None => df = df0
          | Some i =>
              (List.length (filter (String.eqb "time") columns) <= 1)%nat
              /\ exists df1,
                   set_time_index E i df0 = ([], Return df1)
                   /\ df = fold_left
                             (fun df kv => set_column (fst kv) (CStr (snd kv)) df)
                             (tags_of s) df1
          end.
Proof.
  unfold maker. intros H.
  apply bind_returns_app in H. destruct H as (w1 & values & w2 & Hv & H & ->).
  apply bind_returns_app in H. destruct H as (w3 & columns & w4 & Hc & H & ->).
  apply bind_returns_app in H. destruct H as (w0 & df0 & w5 & Hd & H & ->).
  destruct (s_values s) as [values'|]; [| discriminate]. injection Hv as <- <-.
  destruct (s_columns s) as [columns'|]; [| discriminate]. injection Hc as <- <-.
  pose proof (pd_DataFrame_returns _ _ _ _ Hd) as (-> & _).
  destruct (index_of "time" columns') as [i|] eqn:Hi.
  - destruct (1 <? _)%nat eqn:Hcount; [discriminate |].
    apply Nat.ltb_ge in Hcount.
    apply bind_returns_app in H. destruct H as (w6 & df1 & w7 & Hs & H & ->).
    pose proof (set_time_index_rows _ _ _ _ _ Hs) as (-> & _).
    assert (Hdf : w7 = [] /\ df = fold_left
                    (fun df kv => set_column (fst kv) (CStr (snd kv)) df)
                    (tags_of s) df1).
    { unfold tags_of. destruct (s_tags s); now injection H as <- <-. }
    destruct Hdf as [-> ->]. split; [reflexivity |].
    exists values', columns', df0. rewrite Hi. repeat split; auto.
    now exists df1.
  - injection H as <- <-. split; [reflexivity |].
    exists values', columns', df0. rewrite Hi. auto.
Qed.

Lemma to_datetime_default (E : env) (v : list cell) (i : nat) :
  to_datetime_utc E (nth i v CNone) = to_datetime_utc E (nth i v CNaN).
Proof.
  destruct (Nat.lt_ge_cases i (List.length v)) as [Hlt | Hge].
  - now rewrite (nth_indep v CNone CNaN Hlt).
  - now rewrite !nth_overflow by exact Hge.
Qed.

(** The table of a series, row by row: [maker] signals nothing; every row
    of the table has one cell per column; and the rows are the rows of the
    values, in their order, each with its time or position as label and,
    under each name, the cell the series brings to it, as pandas converts
    it. *)
Lemma maker_rows (E : env) (s : series) (w : list warning) (df : DataFrame) :
  maker E s = (w, Return df) ->
  w = []
  /\ rectangular df
  /\ Forall2 (fun v r =>
                series_label E s v (fst r)
                /\ forall c, converted (series_cell s v c)
                               (lookup (map fst (df_columns df)) (snd r) c))
       (values_of s) (df_rows df).
Proof.
  intros H. destruct (maker_steps _ _ _ _ H)
    as (-> & values & columns & df0 & Hv & Hc & Hd & Hrest).
  split; [reflexivity |].
  pose proof (pd_DataFrame_rectangular _ _ _ _ Hd) as Hrect0.
  destruct (pd_DataFrame_rows _ _ _ _ Hd) as (_ & Hn0 & Hl0 & Hr0).
  unfold values_of, series_cell, series_label, time_index, raw_cell, columns_of.
  rewrite Hv, Hc.
  destruct (index_of "time" columns) as [i|] eqn:Hi.
  - destruct Hrest as (Hone & df1 & Hs & ->).
    destruct (set_time_index_rows _ _ _ _ _ Hs) as (_ & _ & Hn1 & Hr1).
    assert (Hrect1 : rectangular df1)
      by (apply (set_time_index_frame _ _ _ _ _ Hs); exact Hrect0).
    split; [now apply set_tags_frame |].
    pose proof (set_tags_rows (tags_of s) df1 Hrect1) as Hr2. cbv zeta in Hr2.
    pose proof (Forall2_compose _ _ _ _ _
                  (Forall2_compose _ _ _ _ _ Hr0 Hr1) Hr2) as Hall.
    eapply Forall2_impl; [| exact Hall]. clear Hall.
    intros v r (r1 & (r0 & (Hlen & Hconv & Hlook) & (w' & Ht) & Hcells) & Hl & Hfin).
    split.
    + left. exists i, w'. split; [reflexivity |]. rewrite Hl.
      rewrite <- to_datetime_default.
      eapply to_datetime_converted; [| exact Ht].
      rewrite <- (nth_pad_row (List.length columns) i v CNone
                    (index_of_lt _ _ _ Hi)).
      apply Forall2_nth; [exact Hconv |].
      rewrite (Forall2_length Hconv), Hlen. now apply (index_of_lt "time").
    + intros c. rewrite (Hfin c).
      destruct (dict_get c (rev (tags_of s))); [apply converted_refl |].
      rewrite Hn1, Hcells, Hn0.
      rewrite (lookup_remove_nth "time" c columns (snd r0) i Hi Hone Hlen).
      destruct (String.eqb c "time"); [apply converted_refl | apply Hlook].
  - subst df. split; [exact Hrect0 |].
    pose proof (positional_labels _ _ Hl0) as Hlab.
    rewrite Forall_forall in Hlab.
    eapply Forall2_impl_in; [exact Hr0 |].
    intros v r _ Hin (_ & _ & Hlook). split; [right; now apply Hlab |].
    intros c. rewrite Hn0. apply Hlook.
Qed.

(** The labels of the table of a series with a time column, and the
    table before the tags are set. *)
Lemma maker_time_labels (E : env) (s : series) (values : list (list cell))
  (columns : list string) (i : nat) (w : list warning) (df : DataFrame) :
  s_values s = Some values -> s_columns s = Some columns ->
  index_of "time" columns = Some i ->
  maker E s = (w, Return df) ->
  df_index_type df = DatetimeIndex
  /\ Forall2 (fun l v => exists w',
                to_datetime_utc E (nth i v CNaN) = (w', Return l))
       (map fst (df_rows df)) values
  /\ exists df1,
       rectangular df1
       /\ df = fold_left (fun df kv => set_column (fst kv) (CStr (snd kv)) df)
                 (tags_of s) df1.
Proof.
  intros Hv Hc Hi H.
  destruct (maker_steps _ _ _ _ H)
    as (_ & values' & columns' & df0 & Hv' & Hc' & Hd & Hrest).
  rewrite Hv in Hv'. injection Hv' as <-.
  rewrite Hc in Hc'. injection Hc' as <-.
  rewrite Hi in Hrest. destruct Hrest as (_ & df1 & Hs & ->).
  pose proof (pd_DataFrame_rectangular _ _ _ _ Hd) as Hrect0.
  destruct (pd_DataFrame_rows _ _ _ _ Hd) as (_ & _ & _ & Hr0).
  destruct (set_time_index_rows _ _ _ _ _ Hs) as (_ & Ht & _ & Hr1).
  assert (Hrect1 : rectangular df1)
    by (apply (set_time_index_frame _ _ _ _ _ Hs); exact Hrect0).
  destruct (set_tags_frame (tags_of s) df1) as (Ht' & Hl' & _).
  cbv zeta in Ht', Hl'. rewrite Ht', Hl', Ht.
  split; [reflexivity | split; [| now exists df1]].
  apply Forall2_map_l.
  pose proof (Forall2_compose _ _ _ _ _ Hr0 Hr1) as Hall.
  apply Forall2_flip. eapply Forall2_impl; [| exact Hall].
  intros v r1 (r0 & (Hlen & Hconv & _) & (w' & Hl) & _).
  exists w'. rewrite <- to_datetime_default.
  eapply to_datetime_converted; [| exact Hl].
  rewrite <- (nth_pad_row (List.length columns) i v CNone (index_of_lt _ _ _ Hi)).
  apply Forall2_nth; [exact Hconv |].
  rewrite (Forall2_length Hconv), Hlen. now apply (index_of_lt "time").
Qed.

Lemma maker_nrows (E : env) (s : series) (w : list warning) (df : DataFrame) :
  maker E s = (w, Return df) ->
  exists values, s_values s = Some values /\ nrows df = List.length values.
Proof.
  intros H. destruct (maker_rows _ _ _ _ H) as (_ & _ & Hr).
  destruct (maker_steps _ _ _ _ H) as (_ & values & _ & _ & Hv & _).
  exists values. split; [exact Hv |]. unfold nrows.
  rewrite <- (Forall2_length Hr). unfold values_of. now rewrite Hv.
Qed.

(* ================================================================== *)
(** ** Stacking and post-processing                                   *)
(* ================================================================== *)

Lemma names_eqb_eq (a b : list string) : names_eqb a b = true -> a = b.
Proof.
  revert b. induction a as [|x a IH]; intros [|y b]; simpl; try discriminate;
    [reflexivity |].
  intros [Hx Hab]%andb_prop. apply String.eqb_eq in Hx. subst y.
  now rewrite (IH b Hab).
Qed.

Lemma aligned_names (first : DataFrame) (others : list DataFrame) :
  aligned (first :: others) = true ->
  forall df, In df (first :: others) ->
             map fst (df_columns df) = map fst (df_columns first).
Proof.
  simpl. intros H df [<- | Hin]; [reflexivity |].
  rewrite forallb_forall in H. now apply names_eqb_eq, H.
Qed.

Lemma frame_rows_labels (frames : list DataFrame) :
  map (fun fr => fst (snd fr)) (frame_rows frames)
  = map fst (stacked_rows frames).
Proof.
  unfold frame_rows, stacked_rows. generalize (concat_columns frames) as cols.
  intros cols. induction frames as [|df frames IH]; [reflexivity |].
  simpl. rewrite !map_app, IH, !map_map. reflexivity.
Qed.

Lemma frame_rows_length (frames : list DataFrame) :
  List.length (frame_rows frames) = list_sum (map nrows frames).
Proof.
  unfold frame_rows. induction frames as [|df frames IH]; [reflexivity |].
  simpl. now rewrite length_app, length_map, IH.
Qed.

Lemma picks_length (cols : list string) (al : bool) (df : DataFrame) :
  List.length (picks cols al df) = List.length cols.
Proof.
  unfold picks. destruct al; rewrite length_map; [apply length_seq | reflexivity].
Qed.

(** What [pd.concat] returns: it signals nothing; the table has the joint
    columns; its rows are the rows of the frames, one frame after the
    other, each with its label and, under each joint column, the cell it
    had under that name, as pandas converts it, or NaN. *)
Lemma pd_concat_returns (E : env) (frames : list DataFrame)
  (w : list warning) (df : DataFrame) :
  pd_concat E frames = (w, Return df) ->
  w = []
  /\ frames <> []
  /\ map fst (df_columns df) = joint_columns E frames
  /\ (forallb is_datetime_index frames = true ->
      df_index_type df = DatetimeIndex)
  /\ Forall2 (fun fr r =>
                fst r = fst (snd fr)
                /\ forall c, In c (joint_columns E frames) ->
                     converted
                       (lookup (map fst (df_columns (fst fr))) (snd (snd fr)) c)
                       (lookup (joint_columns E frames) (snd r) c))
       (frame_rows frames) (df_rows df).
Proof.
  unfold pd_concat. destruct frames as [|first others] eqn:Hf; [discriminate |].
  rewrite <- Hf. destruct (negb (aligned frames) && _) eqn:Hguard;
    [discriminate |].
  intros H.
  apply bind_returns_app in H. destruct H as (w1 & rows & w2 & Hrows & H & ->).
  injection H as <- <-. cbn [df_columns df_rows df_index_type].
  set (cols := joint_columns E frames) in *.
  set (dtypes := map _ (seq 0 (List.length cols))) in *.
  assert (Hdt : List.length dtypes = List.length cols)
    by (unfold dtypes; now rewrite length_map, length_seq).
  assert (Hq : w1 = []).
  { apply (mapM_quiet _ _) in Hrows; [exact Hrows |]. intros fr wr b Hb.
    apply bind_returns_app in Hb. destruct Hb as (w3 & cells & w4 & Hc & Hb & ->).
    injection Hb as <- _. now rewrite (cast_row_quiet _ _ _ _ Hc). }
  subst w1.
  split; [reflexivity | split; [rewrite Hf; discriminate | split; [| split]]].
  - exact (proj1 (combine_fst_snd cols dtypes (eq_sym Hdt))).
  - intros ->. reflexivity.
  - apply mapM_returns in Hrows. fold (frame_rows frames) in Hrows.
    eapply Forall2_impl_in; [exact Hrows |].
    intros [f r0] r Hin _ (w' & Hr). cbn [fst snd] in Hr |- *.
    apply bind_returns in Hr. destruct Hr as (w3 & cells & w4 & Hc & Hr).
    injection Hr as _ <-. cbn [fst snd]. split; [reflexivity |].
    intros c Hc_in.
    destruct (cast_row_returns dtypes _ _ _
                (eq_trans Hdt (eq_sym (eq_trans (length_map _ _)
                                                (picks_length _ _ _)))) Hc)
      as [_ Hconv].
    destruct (index_of_present _ _ Hc_in) as (j & Hj).
    pose proof (index_of_lt _ _ _ Hj) as Hlt.
    pose proof (index_of_bound _ _ _ Hj) as Hnth.
    unfold lookup at 2. rewrite Hj. cbn [pick_cell].
    assert (Hpick : nth j (map (pick_cell (snd r0))
                                (picks cols (aligned frames) f)) CNaN
                    = lookup (map fst (df_columns f)) (snd r0) c).
    { change CNaN with (pick_cell (snd r0) None) at 1. rewrite map_nth.
      unfold picks. destruct (aligned frames) eqn:Hal.
      - rewrite (nth_indep _ None (Some O))
          by (now rewrite length_map, length_seq).
        rewrite map_nth, seq_nth by exact Hlt. cbn [pick_cell Nat.add].
        assert (Hnames : map fst (df_columns f) = cols).
        { unfold cols, joint_columns. rewrite Hf in Hal |- *.
          rewrite Hal. apply (aligned_names _ _ Hal).
          unfold frame_rows in Hin. apply in_flat_map in Hin.
          destruct Hin as (g & Hg & Hin). apply in_map_iff in Hin.
          destruct Hin as (x & [= <- _] & _). now rewrite <- Hf. }
        unfold lookup. now rewrite Hnames, Hj.
      - erewrite nth_error_nth
          by (apply map_nth_error; exact Hnth).
        reflexivity. }
    rewrite <- Hpick. apply Forall2_nth; [exact Hconv |].
    now rewrite length_map, picks_length.
Qed.

Lemma pd_concat_labels (E : env) (frames : list DataFrame)
  (w : list warning) (df : DataFrame) :
  pd_concat E frames = (w, Return df) ->
  map fst (df_rows df) = map fst (stacked_rows frames)
  /\ nrows df = list_sum (map nrows frames).
Proof.
  intros H. destruct (pd_concat_returns _ _ _ _ H) as (_ & _ & _ & _ & Hr).
  split.
  - rewrite <- frame_rows_labels.
    clear H. induction Hr as [|fr r l l' [Hl _] _ IH]; [reflexivity |].
    simpl. now rewrite Hl, IH.
  - unfold nrows. rewrite <- (Forall2_length Hr). apply frame_rows_length.
Qed.

Lemma concatenation_spec (E : env) (df_list : list (key * DataFrame))
  (w : list warning) (dfs : list (key * DataFrame)) :
  concatenation E df_list = (w, Return dfs) ->
  w = []
  /\ Forall2 (fun g d => fst d = fst g
                         /\ pd_concat E (snd g) = ([], Return (snd d)))
       (group_sorted df_list) dfs.
Proof.
  unfold concatenation. intros H. split.
  - apply (mapM_quiet _ _) in H; [exact H |]. intros kv wk b Hb.
    apply bind_returns_app in Hb. destruct Hb as (w1 & df & w2 & Hc & Hb & ->).
    injection Hb as <- _. now rewrite (proj1 (pd_concat_returns _ _ _ _ Hc)).
  - apply mapM_returns in H. eapply Forall2_impl; [| exact H].
    intros [k vs] [k' d] (w' & Hd). cbn [fst snd] in Hd |- *.
    apply bind_returns in Hd. destruct Hd as (w1 & df & w2 & Hc & Hd).
    injection Hd as _ <- <-. split; [reflexivity |].
    now rewrite (proj1 (pd_concat_returns _ _ _ _ Hc)) in Hc.
Qed.

Lemma astype_categorical_names (i : nat) (tags : list cell) (df : DataFrame) :
  map fst (df_columns (astype_categorical i tags df)) = map fst (df_columns df).
Proof.
  unfold astype_categorical; simpl.
  destruct (nth_error (df_columns df) i) as [[k t]|] eqn:Hn; [| reflexivity].
  now apply (replace_nth_names i k t).
Qed.

Lemma apply_tag_cache_rows (cache : dict (list cell)) :
  forall df,
    df_index_type (apply_tag_cache cache df) = df_index_type df
    /\ map fst (df_columns (apply_tag_cache cache df)) = map fst (df_columns df)
    /\ df_rows (apply_tag_cache cache df)
       = map (fun r => (fst r, cache_cells (map fst (df_columns df)) cache (snd r)))
             (df_rows df).
Proof.
  unfold apply_tag_cache, cache_cells.
  induction cache as [|[col tags] cache IH]; intros df; simpl.
  - split; [reflexivity | split; [reflexivity |]]. symmetry.
    erewrite map_ext; [apply map_id |]. now intros [l c].
  - destruct (index_of col (map fst (df_columns df))) as [i|] eqn:Hi.
    + destruct (IH (astype_categorical i tags df)) as (Ht & Hn & Hr).
      rewrite Ht, Hn, Hr, astype_categorical_names.
      split; [reflexivity | split; [reflexivity |]].
      simpl. rewrite map_map. reflexivity.
    + apply IH.
Qed.

Lemma all_zero_of_zero (labels : list label) :
  Forall (eq (LTime 0)) labels -> all_zero labels = ([], Return true).
Proof.
  induction 1 as [|l labels Hl Hall IH]; simpl; [reflexivity |].
  subst l. simpl. now rewrite IH.
Qed.

Lemma combine_positional {A} (l : list A) :
  map fst (combine (positional (List.length l)) l) = positional (List.length l)
  /\ map snd (combine (positional (List.length l)) l) = l.
Proof.
  assert (Hlen : List.length (positional (List.length l)) = List.length l)
    by (unfold positional; now rewrite length_map, length_seq).
  revert Hlen. generalize (positional (List.length l)) as p.
  induction l as [|a l IH]; intros [|x p]; simpl; try discriminate; auto.
  intros [= H]. destruct (IH p H) as [-> ->]. auto.
Qed.

(** What [drop_zero_index] leaves of a table: its cells and columns
    always; its labels, or a positional index in their place, which it
    puts in place of an index made of zero epochs. *)
Lemma drop_zero_index_spec (df df' : DataFrame) (w : list warning) :
  drop_zero_index df = (w, Return df') ->
  df_columns df' = df_columns df
  /\ map snd (df_rows df') = map snd (df_rows df)
  /\ (map fst (df_rows df') = map fst (df_rows df)
      \/ map fst (df_rows df') = positional (nrows df))
  /\ (df_index_type df = DatetimeIndex ->
      Forall (fun r => fst r = LTime 0) (df_rows df) ->
      df_index_type df' = RangeIndex
      /\ map fst (df_rows df') = positional (nrows df)).
Proof.
  unfold drop_zero_index.
  assert (Hreset : map snd (df_rows (reset_index df)) = map snd (df_rows df)
                   /\ map fst (df_rows (reset_index df)) = positional (nrows df)).
  { unfold reset_index, nrows; simpl.
    rewrite <- (length_map snd (df_rows df)).
    destruct (combine_positional (map snd (df_rows df))) as [H1 H2]. auto. }
  destruct Hreset as [Hcells Hlabels].
  destruct (df_index_type df) eqn:Ht;
    try (intros [= _ <-]; repeat split; auto; discriminate).
  intros H. split; [| split; [| split]].
  - destruct (all_zero _) as [w1 [[]| |]]; simpl in H; try discriminate;
      injection H as _ <-; reflexivity.
  - destruct (all_zero _) as [w1 [[]| |]]; simpl in H; try discriminate;
      injection H as _ <-; [exact Hcells | reflexivity].
  - destruct (all_zero _) as [w1 [[]| |]]; simpl in H; try discriminate;
      injection H as _ <-; [now right | now left].
  - intros _ Hz.
    assert (Hall : Forall (eq (LTime 0)) (map fst (df_rows df))).
    { rewrite Forall_map. eapply Forall_impl; [| exact Hz]. now intros r ->. }
    rewrite (all_zero_of_zero _ Hall) in H. simpl in H. injection H as _ <-.
    split; [reflexivity | exact Hlabels].
Qed.



Lemma post_processing_spec (tag_cache : option (dict (dict (list cell))))
  (dfs0 dfs : list (key * DataFrame)) (w : list warning) :
  post_processing tag_cache dfs0 = (w, Return dfs) ->
  Forall2 (fun a b =>
             fst b = fst a
             /\ map fst (df_columns (snd b)) = map fst (df_columns (snd a))
             /\ map snd (df_rows (snd b))
                = map (cached_cells tag_cache (fst (fst a))
                         (map fst (df_columns (snd a))))
                      (map snd (df_rows (snd a)))
             /\ (map fst (df_rows (snd b)) = map fst (df_rows (snd a))
                 \/ map fst (df_rows (snd b)) = positional (nrows (snd a)))
             /\ (df_index_type (snd a) = DatetimeIndex ->
                 Forall (fun r => fst r = LTime 0) (df_rows (snd a)) ->
                 df_index_type (snd b) = RangeIndex
                 /\ map fst (df_rows (snd b)) = positional (nrows (snd a))))
    dfs0 dfs.
Proof.
  intros H. apply mapM_returns in H.
  eapply Forall2_impl; [| exact H]. clear H.
  intros [k d0] [k' d] (w' & H). simpl in H. simpl.
  destruct (drop_zero_index d0) as [w1 [d1| |]] eqn:Hd; simpl in H;
    try discriminate.
  destruct (drop_zero_index_spec _ _ _ Hd) as (Hcols & Hcells & Hlab & Hzero).
  assert (Hplain : (k', d) = (k, d1) ->
            k' = k
            /\ map fst (df_columns d) = map fst (df_columns d0)
            /\ map snd (df_rows d) = map (fun c => c) (map snd (df_rows d0))
            /\ (map fst (df_rows d) = map fst (df_rows d0)
                \/ map fst (df_rows d) = positional (nrows d0))
            /\ (df_index_type d0 = DatetimeIndex ->
                Forall (fun r => fst r = LTime 0) (df_rows d0) ->
                df_index_type d = RangeIndex
                /\ map fst (df_rows d) = positional (nrows d0))).
  { intros [= -> ->]. rewrite map_id, Hcols. auto. }
  unfold cached_cells.
  destruct tag_cache as [[|c cache]|].
  - simpl in H. apply Hplain. congruence.
  - cbn [fst snd] in H.
    destruct (dict_get (fst k) (c :: cache)) as [cols|]; unfold bind, ret in H.
    + injection H as _ <- <-.
      destruct (apply_tag_cache_rows cols d1) as (Ht & Hn & Hr).
      rewrite Ht, Hn, Hr, Hcols, !map_map. simpl.
      assert (Hfst : map (fun x : label * list cell => fst x) (df_rows d1)
                     = map fst (df_rows d1)) by reflexivity.
      split; [reflexivity | split; [reflexivity | split; [| split]]].
      * rewrite <- (map_map snd (cache_cells (map fst (df_columns d0)) cols)
                      (df_rows d1)),
          <- (map_map snd (cache_cells (map fst (df_columns d0)) cols)
                (df_rows d0)).
        now rewrite Hcells.
      * rewrite Hfst. exact Hlab.
      * intros Hi Hz. destruct (Hzero Hi Hz) as [-> <-].
        split; [reflexivity |]. apply map_ext. now intros [l r].
    + apply Hplain. congruence.
  - simpl in H. apply Hplain. congruence.
Qed.

Lemma make_df_steps (E : env) (resp : response)
  (tag_cache : option (dict (dict (list cell))))
  (w : list warning) (result : decoded) :
  make_df E resp tag_cache = (w, Return result) ->
  exists wl df_list dfs0 wp dfs,
    parsing E resp = (wl, Return df_list)
    /\ concatenation E df_list = ([], Return dfs0)
    /\ post_processing tag_cache dfs0 = (wp, Return dfs)
    /\ result = result_of dfs.
Proof.
  unfold make_df. destruct (pd_available E); [| discriminate]. cbn [negb].
  intros H.
  apply bind_returns in H. destruct H as (wl & df_list & w1 & Hp & H).
  apply bind_returns in H. destruct H as (wc & dfs0 & w2 & Hc & H).
  apply bind_returns in H. destruct H as (wp & dfs & w3 & Hpost & H).
  exists wl, df_list, dfs0, wp, dfs.
  rewrite (proj1 (concatenation_spec _ _ _ _ Hc)) in Hc.
  split; [exact Hp | split; [exact Hc | split; [exact Hpost |]]].
  unfold result_of.
  destruct dfs as [|[k df] [|? ?]]; injection H as _ <-; reflexivity.
Qed.

Lemma make_df_returns (E : env) (resp : response)
  (tag_cache : option (dict (dict (list cell))))
  (wl w : list warning) (df_list : list (key * DataFrame)) (result : decoded) :
  parsing E resp = (wl, Return df_list) ->
  make_df E resp tag_cache = (w, Return result) ->
  exists dfs0 wp dfs,
    concatenation E df_list = ([], Return dfs0)
    /\ post_processing tag_cache dfs0 = (wp, Return dfs)
    /\ result = result_of dfs.
Proof.
  intros Hp H.
  destruct (make_df_steps _ _ _ _ _ H)
    as (wl' & df_list' & dfs0 & wp & dfs & Hp' & Hc & Hpost & Hr).
  rewrite Hp in Hp'. injection Hp' as _ <-. now exists dfs0, wp, dfs.
Qed.

(** The tables [make_df] returns: one per key of the parsed list, in
    ascending order of the keys; each is the stack of the tables parsed
    for its key, in the order they were parsed, as the category cache
    leaves it, with the labels of the stack or a positional index, which
    it has when the stacked index is made of zero epochs. *)
Lemma decoded_tables (E : env) (resp : response)
  (tag_cache : option (dict (dict (list cell))))
  (wl w : list warning) (df_list : list (key * DataFrame)) (result : decoded) :
  parsing E resp = (wl, Return df_list) ->
  make_df E resp tag_cache = (w, Return result) ->
  exists dfs,
    result = result_of dfs
    /\ ascending (map fst dfs)
    /\ (forall k, In k (map fst dfs) <-> In k (map fst df_list))
    /\ forall k df, In (k, df) dfs ->
         nrows df = list_sum (map nrows (chunks_of k df_list))
         /\ (exists d0,
               pd_concat E (chunks_of k df_list) = ([], Return d0)
               /\ map fst (df_columns df) = map fst (df_columns d0)
               /\ map snd (df_rows df)
                  = map (cached_cells tag_cache (fst k)
                           (map fst (df_columns d0)))
                        (map snd (df_rows d0))
               /\ (map fst (df_rows df) = map fst (df_rows d0)
                   \/ map fst (df_rows df) = positional (nrows d0)))
         /\ (forallb is_datetime_index (chunks_of k df_list) = true ->
             Forall (fun r => fst r = LTime 0)
               (stacked_rows (chunks_of k df_list)) ->
             df_index_type df = RangeIndex
             /\ map fst (df_rows df) = positional (nrows df)).
Proof.
  intros Hp H.
  destruct (make_df_returns _ _ _ _ _ _ _ Hp H)
    as (dfs0 & wp & dfs & Hc & Hpost & ->).
  destruct (concatenation_spec _ _ _ _ Hc) as [_ Hstack].
  pose proof (post_processing_spec _ _ _ _ Hpost) as Hpp.
  destruct (group_sorted_spec df_list) as (Hasc & Hgroups & Hkeys).
  assert (Hk0 : map fst dfs0 = map fst (group_sorted df_list))
    by (apply (Forall2_keys _ _ _ Hstack); now intros a b [? _]).
  assert (Hk1 : map fst dfs = map fst dfs0)
    by (apply (Forall2_keys _ _ _ Hpp); now intros a b [? _]).
  exists dfs. split; [reflexivity |]. rewrite Hk1, Hk0.
  split; [exact Hasc | split; [exact Hkeys |]].
  intros k df Hin.
  destruct (Forall2_in_r _ _ _ Hpp _ Hin)
    as ([k0 d0] & Hin0 & Hk & Hnames & Hcells & Hlab & Hzero).
  destruct (Forall2_in_r _ _ _ Hstack _ Hin0) as ([kg vs] & Hing & Hkg & Hcat).
  simpl in *. subst k0 kg.
  destruct (Hgroups k vs Hing) as [Hvs _]. fold (chunks_of k df_list) in Hvs.
  subst vs.
  destruct (pd_concat_labels _ _ _ _ Hcat) as [Hl0 Hn0].
  destruct (pd_concat_returns _ _ _ _ Hcat) as (_ & _ & _ & Hidx & _).
  assert (Hn : nrows df = nrows d0).
  { unfold nrows. rewrite <- (length_map snd (df_rows df)), Hcells, !length_map.
    reflexivity. }
  split; [now rewrite Hn |]. split.
  - exists d0. auto.
  - intros Hdt Hz. rewrite Hn. apply Hzero; [now apply Hidx |].
    apply Forall_forall. intros r Hr.
    assert (Hfst : In (fst r) (map fst (stacked_rows (chunks_of k df_list))))
      by (rewrite <- Hl0; now apply in_map).
    apply in_map_iff in Hfst. destruct Hfst as (r' & <- & Hr').
    rewrite Forall_forall in Hz. now apply Hz.
Qed.

(** *** The tables of a response *)








(** The tables of the mixed response: the chunks of one key are stacked
    in the order of the response; the integers of a column that pandas
    makes a float column are floats, its nulls are NaN, and the short row
    is filled up. *)
Example decoded_mixed_tables :
  decoded_mixed
  = Tables
      [ (("cpu", [("host", "a")]),
         {| df_index_type := DatetimeIndex;
            df_columns := [("value", DInteger); ("host", DObject)];
            df_rows := [(LTime 10, [CInt 7; CStr "a"])] |});
        (("cpu", [("host", "b")]),
         {| df_index_type := DatetimeIndex;
            df_columns := [("value", DFloat64); ("host", DObject)];
            df_rows := [(LTime 10, [CFloat "1.0"; CStr "b"]);
                        (LTime 20, [CNaN; CStr "b"]);
                        (LTime 30, [CFloat "3.0"; CStr "b"]);
                        (LTime 40, [CNaN; CStr "b"])] |}) ].
Proof. reflexivity. Qed.

Example decoded_chunked_tables :
  decoded_chunked
  = Tables
      [ (("cpu", [("host", "a")]),
         value_frame DatetimeIndex "a" [(LTime 10, [CInt 7])]);
        (("cpu", [("host", "b")]),
         value_frame DatetimeIndex "b"
           [(LTime 10, [CInt 1]); (LTime 20, [CInt 2]); (LTime 30, [CInt 3])]) ].
Proof. reflexivity. Qed.


(** C8.  The tables [make_df] returns are filed under the keys of the
    parsed series; a table whose chunks all have a temporal index, made of
    zero epochs only, comes back with the temporal index dropped and a
    positional index in its place. *)
Theorem zero_epoch_index_dropped (E : env) (resp : response)
  (tag_cache : option (dict (dict (list cell))))
  (wl w : list warning) (df_list : list (key * DataFrame)) (result : decoded) :
  parsing E resp = (wl, Return df_list) ->
  make_df E resp tag_cache = (w, Return result) ->
  exists dfs,
    result = result_of dfs
    /\ (forall k, In k (map fst dfs) <-> In k (map fst df_list))
    /\ forall k df, In (k, df) dfs ->
         Forall (fun c => df_index_type c = DatetimeIndex) (chunks_of k df_list) ->
         Forall (fun r => fst r = LTime 0) (stacked_rows (chunks_of k df_list)) ->
         df_index_type df = RangeIndex
         /\ map fst (df_rows df) = positional (nrows df).
Proof.
  intros Hp H.
  destruct (decoded_tables _ _ _ _ _ _ _ Hp H) as (dfs & Hr & _ & Hkeys & Htab).
  exists dfs. split; [exact Hr | split; [exact Hkeys |]]. intros k df Hin Hdt Hz.
  destruct (Htab k df Hin) as (_ & _ & Hzero). apply Hzero; [| exact Hz].
  apply forallb_forall. rewrite Forall_forall in Hdt.
  intros c Hc. unfold is_datetime_index. now rewrite (Hdt c Hc).
Qed.

Lemma zero_epoch_index_dropped_witness :
  exists df,
    decoded_show = Single df
    /\ df_index_type df = RangeIndex
    /\ map fst (df_rows df) = [LInt 0; LInt 1].
Proof.
  destruct (zero_epoch_index_dropped env_utc response_show None [] []
              parsed_show decoded_show eq_refl eq_refl)
    as (dfs & Hr & _ & Htab).
  destruct dfs as [|[k df] [|? ?]]; try discriminate Hr.
  injection Hr as <-.
  eexists. split; [reflexivity |].
  apply (Htab k _ (or_introl eq_refl)).
  - unfold chunks_of, parsed_show. simpl.
    destruct (key_eqb _ k); repeat constructor.
  - unfold chunks_of, parsed_show. simpl.
    destruct (key_eqb _ k); repeat constructor.
Defined.

(* ================================================================== *)
(** ** Properties of [parse_df]                                       *)
(* ================================================================== *)

(** *** The two delimiter passes of [make_replacements] *)

Lemma has_pair_cons (p : ascii -> ascii -> bool) (a : ascii) (s : string) :
  has_pair p (String a s)
  = match first_char s with
    | Some b => p a b || has_pair p s
    | None => false
    end.
Proof. reflexivity. Qed.

Lemma has_pair_tail (p : ascii -> ascii -> bool) (a : ascii) (s : string) :
  has_pair p (String a s) = false -> has_pair p s = false.
Proof.
  rewrite has_pair_cons. destruct s as [|b s]; [reflexivity |].
  cbn [first_char]. now intros [_ H]%orb_false_iff.
Qed.

(** After the second pass no comma follows a comma. *)
Lemma comma_runs_collapsed (s : string) :
  forall run, has_pair comma_pair (sub_comma_runs "," run s) = false.
Proof.
  induction s as [|c s IH]; intros run.
  - destruct run as [|[|run]]; reflexivity.
  - cbn [sub_comma_runs]. destruct (Ascii.eqb c ",") eqn:Hc; [apply IH |].
    assert (Hs : has_pair comma_pair (String c (sub_comma_runs "," 0 s)) = false).
    { rewrite has_pair_cons. destruct (first_char _); [| reflexivity].
      rewrite IH. unfold comma_pair, is_comma. now rewrite Hc. }
    destruct run as [|[|run]]; cbn [flush_commas append]; try exact Hs;
      rewrite has_pair_cons; cbn [first_char]; rewrite Hs;
      unfold comma_pair, is_comma; rewrite Hc; reflexivity.
Qed.

Lemma prefix_app (a s : string) :
  String.prefix a s = true -> exists r, s = a ++ r.
Proof.
  revert s. induction a as [|x a IH]; intros s H.
  - now exists s.
  - destruct s as [|y s]; [discriminate |]. simpl in H.
    destruct (ascii_dec x y) as [<- | _]; [| discriminate].
    destruct (IH s H) as [r ->]. now exists r.
Qed.

Lemma prefix_cons (a : ascii) (p s : string) :
  String.prefix (String a p) (String a s) = String.prefix p s.
Proof. simpl. now destruct (ascii_dec a a). Qed.

Lemma prefix_nil (s : string) : String.prefix "" s = true.
Proof. now destruct s. Qed.

Lemma first_match_delimiters (s : string) :
  first_match delimiters s
  = if String.prefix ", ," s then Some ", ,"
    else if String.prefix ", " s then Some ", "
    else if String.prefix " ," s then Some " ,"
    else None.
Proof. reflexivity. Qed.

Lemma sub_alts_cons (alts : list string) (repl : string) (c : ascii)
  (rest : string) :
  sub_alts alts repl 0 (String c rest)
  = match first_match alts (String c rest) with
    | Some a =>
        match String.length a with
        | O => repl ++ String c (sub_alts alts repl O rest)
        | S n => repl ++ sub_alts alts repl n rest
        end
    | None => String c (sub_alts alts repl O rest)
    end.
Proof. reflexivity. Qed.

(** The first character the third pass gives is the first character it
    read, or the space it put for a delimiter. *)
Lemma sub_delimiters_first (s : string) (h : ascii) :
  first_char (sub_alts delimiters " " 0 s) = Some h ->
  first_char s = Some h
  \/ (h = " "%char
      /\ (first_char s = Some ","%char \/ first_char s = Some " "%char)).
Proof.
  destruct s as [|c rest]; [discriminate |].
  rewrite sub_alts_cons, first_match_delimiters.
  destruct (String.prefix ", ," (String c rest)) eqn:H1;
    [| destruct (String.prefix ", " (String c rest)) eqn:H2;
       [| destruct (String.prefix " ," (String c rest)) eqn:H3]].
  - apply prefix_app in H1. destruct H1 as [r Hr]. injection Hr as -> _.
    cbn. intros [= <-]. auto.
  - apply prefix_app in H2. destruct H2 as [r Hr]. injection Hr as -> _.
    cbn. intros [= <-]. auto.
  - apply prefix_app in H3. destruct H3 as [r Hr]. injection Hr as -> _.
    cbn. intros [= <-]. auto.
  - cbn. intros [= <-]. auto.
Qed.

Lemma bad_pair_space (h : ascii) : bad_pair " " h = is_comma h.
Proof. reflexivity. Qed.

Lemma dangling_space (t : string) :
  (first_char t = Some ","%char -> False) ->
  dangling t = false -> dangling (String " " t) = false.
Proof.
  intros Hh Ht. unfold dangling in *. rewrite has_pair_cons.
  destruct t as [|b t]; [reflexivity |]. cbn [first_char] in *.
  rewrite Ht, bad_pair_space, orb_false_r. unfold is_comma.
  destruct (Ascii.eqb b ",") eqn:Hb; [| reflexivity].
  apply Ascii.eqb_eq in Hb. subst b. now destruct Hh.
Qed.

Lemma first_char_comma (s : string) :
  first_char s = Some ","%char -> exists r, s = String "," r.
Proof. destruct s as [|c r]; [discriminate |]. intros [= ->]. now exists r. Qed.

(** After the third pass, run on a line without [,,], no comma is next to
    a comma or a space. *)
Lemma delimiters_tidied (n : nat) :
  forall s, (String.length s <= n)%nat ->
            has_pair comma_pair s = false ->
            dangling (sub_alts delimiters " " 0 s) = false.
Proof.
  induction n as [|n IH]; intros s Hlen Hcc.
  - destruct s; [reflexivity | simpl in Hlen; lia].
  - destruct s as [|c rest]; [reflexivity |].
    rewrite sub_alts_cons, first_match_delimiters.
    destruct (String.prefix ", ," (String c rest)) eqn:H1;
      [| destruct (String.prefix ", " (String c rest)) eqn:H2;
         [| destruct (String.prefix " ," (String c rest)) eqn:H3]].
    + apply prefix_app in H1. destruct H1 as [r Hr].
      injection Hr as -> ->. cbn in Hlen. cbn.
      apply dangling_space.
      * intros Hh. destruct (sub_delimiters_first r _ Hh) as [Hr | [[=] _]].
        apply first_char_comma in Hr. destruct Hr as [r' ->].
        cbn in Hcc. discriminate.
      * apply IH; [lia |]. now do 3 apply has_pair_tail in Hcc.
    + apply prefix_app in H2. destruct H2 as [r Hr].
      injection Hr as -> ->. cbn in Hlen. cbn.
      apply dangling_space.
      * intros Hh. destruct (sub_delimiters_first r _ Hh) as [Hr | [[=] _]].
        apply first_char_comma in Hr. destruct Hr as [r' ->].
        cbn [append] in H1. now rewrite !prefix_cons, prefix_nil in H1.
      * apply IH; [lia |]. now do 2 apply has_pair_tail in Hcc.
    + apply prefix_app in H3. destruct H3 as [r Hr].
      injection Hr as -> ->. cbn in Hlen. cbn.
      apply dangling_space.
      * intros Hh. destruct (sub_delimiters_first r _ Hh) as [Hr | [[=] _]].
        apply first_char_comma in Hr. destruct Hr as [r' ->].
        cbn in Hcc. discriminate.
      * apply IH; [lia |]. now do 2 apply has_pair_tail in Hcc.
    + cbn in Hlen.
      assert (Hrest : dangling (sub_alts delimiters " " 0 rest) = false)
        by (apply IH; [lia | now apply has_pair_tail in Hcc]).
      unfold dangling in *. rewrite has_pair_cons.
      destruct (first_char (sub_alts delimiters " " 0 rest)) as [h|] eqn:Hh;
        [| reflexivity].
      rewrite Hrest, orb_false_r.
      destruct (sub_delimiters_first rest h Hh) as [Hr | [-> Hr]].
      * destruct rest as [|d rest']; [discriminate |]. injection Hr as ->.
        rewrite has_pair_cons in Hcc. cbn [first_char] in Hcc.
        apply orb_false_iff in Hcc. destruct Hcc as [Hcc _].
        unfold bad_pair, comma_pair, is_comma, is_space in *.
        destruct (Ascii.eqb c ",") eqn:Hc.
        -- apply Ascii.eqb_eq in Hc. subst c.
           simpl in Hcc. rewrite Hcc. simpl.
           destruct (Ascii.eqb h " ") eqn:Hs; [| reflexivity].
           apply Ascii.eqb_eq in Hs. subst h.
           now rewrite !prefix_cons, prefix_nil in H2.
        -- simpl. destruct (Ascii.eqb c " ") eqn:Hs; [| reflexivity].
           apply Ascii.eqb_eq in Hs. subst c.
           simpl. destruct (Ascii.eqb h ",") eqn:Hh'; [| reflexivity].
           apply Ascii.eqb_eq in Hh'. subst h.
           now rewrite !prefix_cons, prefix_nil in H3.
      * unfold bad_pair, is_comma, is_space. simpl.
        rewrite andb_false_r, orb_false_r, andb_true_r.
        destruct (Ascii.eqb c ",") eqn:Hc; [| reflexivity].
        apply Ascii.eqb_eq in Hc. subst c. exfalso.
        destruct Hr as [Hr | Hr]; destruct rest as [|d rest']; try discriminate;
          injection Hr as ->.
        -- cbn in Hcc. discriminate.
        -- now rewrite !prefix_cons, prefix_nil in H2.
Qed.

(** However a line looks, what [cleanup] makes of it has no dangling
    delimiter. *)
Lemma cleanup_no_dangling (E : env) (df : DataFrame) (line : string) :
  dangling (cleanup E df line) = false.
Proof.
  unfold cleanup, make_replacements. cbn [fold_left re_sub fst snd].
  eapply delimiters_tidied; [apply Nat.le_refl | apply comma_runs_collapsed].
Qed.

(** *** Reading a line from left to right *)

Lemma scan_no_dangling (s : string) :
  forall st st', scan st s = Some st' -> dangling s = false.
Proof.
  unfold dangling. induction s as [|a s IH]; intros st st' H; [reflexivity |].
  cbn [scan] in H. destruct (scan_step st a) as [st1|] eqn:H1; [| discriminate].
  rewrite has_pair_cons. destruct s as [|b s]; [reflexivity |].
  cbn [first_char]. rewrite (IH _ _ H), orb_false_r.
  cbn [scan] in H. destruct (scan_step st1 b) as [st2|] eqn:H2; [| discriminate].
  unfold scan_step in H1, H2. unfold bad_pair.
  destruct (is_comma a), (is_space a), (is_comma b), (is_space b), st;
    simpl in *; try reflexivity; try discriminate;
    injection H1 as <-; discriminate.
Qed.

Lemma scan_app (a b : string) :
  forall st, scan st (a ++ b)
             = match scan st a with Some st' => scan st' b | None => None end.
Proof.
  induction a as [|c a IH]; intros st; simpl; [reflexivity |].
  destruct (scan_step st c); [apply IH | reflexivity].
Qed.

Lemma plain_cons (c : ascii) (s : string) :
  plain (String c s) = true ->
  is_comma c = false /\ is_space c = false /\ plain s = true.
Proof.
  unfold plain. cbn [free_of contains_char]. unfold is_comma, is_space.
  rewrite (Ascii.eqb_sym c ","), (Ascii.eqb_sym c " ").
  destruct (Ascii.eqb "," c), (Ascii.eqb " " c); simpl; auto; discriminate.
Qed.

Lemma plain_app (a b : string) :
  plain (a ++ b) = plain a && plain b.
Proof.
  unfold plain. induction a as [|c a IH]; simpl; [reflexivity |].
  rewrite IH. now rewrite andb_assoc.
Qed.

Lemma scan_plain (s : string) :
  plain s = true ->
  forall st, scan st s = Some (if truthy s then AfterOther else st).
Proof.
  induction s as [|c s IH]; intros Hp st; [reflexivity |].
  apply plain_cons in Hp. destruct Hp as (Hc & Hs & Hp).
  cbn [scan truthy]. unfold scan_step. rewrite Hc, Hs.
  rewrite (IH Hp). now destruct (truthy s).
Qed.

Lemma format_scan (fmt : list piece) :
  forall args w line st st' rest,
    format fmt args = (w, Return line) ->
    scan_fmt st fmt args = Some (st', rest) ->
    scan st line = Some st'.
Proof.
  induction fmt as [|[s|] fmt IH]; intros args w line st st' rest Hf Hs.
  - injection Hf as _ <-. now injection Hs as <- _.
  - cbn [format] in Hf. cbn [scan_fmt] in Hs.
    destruct (format fmt args) as [w1 [r| |]] eqn:Hr; simpl in Hf;
      try discriminate.
    injection Hf as _ <-. rewrite scan_app.
    destruct (scan st s) as [st1|]; [| discriminate].
    exact (IH _ _ _ _ _ _ Hr Hs).
  - cbn [format] in Hf. cbn [scan_fmt] in Hs.
    destruct args as [|a args]; [discriminate |].
    destruct (format fmt args) as [w1 [r| |]] eqn:Hr; simpl in Hf;
      try discriminate.
    injection Hf as _ <-. rewrite scan_app.
    destruct (scan st a) as [st1|]; [| discriminate].
    exact (IH _ _ _ _ _ _ Hr Hs).
Qed.

Lemma scan_fmt_app (f1 f2 : list piece) :
  forall st args,
    scan_fmt st (f1 ++ f2) args
    = match scan_fmt st f1 args with
      | Some (st', args') => scan_fmt st' f2 args'
      | None => None
      end.
Proof.
  induction f1 as [|[s|] f1 IH]; intros st args; simpl; [reflexivity | |].
  - destruct (scan st s); [apply IH | reflexivity].
  - destruct args as [|a args]; [reflexivity |].
    destruct (scan st a); [apply IH | reflexivity].
Qed.

(** A token reads well after anything, and ends on a character that is
    neither comma nor space. *)
Lemma scan_token (fmt : list piece) (v : string) (args : list string)
  (st : last_char) :
  token_ok fmt -> plain v = true ->
  scan_fmt st fmt (v :: args) = Some (AfterOther, args).
Proof.
  intros (head & tail & Hshape & Hne & Hh & Ht) Hv.
  destruct Hshape as [-> | ->]; cbn [scan_fmt];
    rewrite (scan_plain head Hh), Hne, (scan_plain v Hv);
    try rewrite (scan_plain tail Ht);
    destruct (truthy v); try destruct (truthy tail); reflexivity.
Qed.

Lemma scan_join_fmt (entries : list (list piece)) :
  forall vals rest st,
    Forall token_ok entries ->
    Forall (fun v => plain v = true) vals ->
    List.length vals = List.length entries ->
    scan_fmt st (join_fmt "," entries) (vals ++ rest)
    = Some (match entries with [] => st | _ => AfterOther end, rest).
Proof.
  induction entries as [|f entries IH]; intros vals rest st Hok Hv Hlen.
  - destruct vals; [reflexivity | discriminate].
  - destruct vals as [|v vals]; [discriminate |].
    inversion Hok as [|? ? Hf Hok']; subst.
    inversion Hv as [|? ? Hpv Hv']; subst.
    injection Hlen as Hlen.
    destruct entries as [|f' entries].
    + destruct vals; [| discriminate]. cbn [join_fmt app].
      now apply scan_token.
    + cbn [join_fmt]. fold (join_fmt "," (f' :: entries)).
      rewrite <- app_comm_cons, scan_fmt_app, (scan_token f v _ st Hf Hpv).
      cbn [scan_fmt scan scan_step]. cbn.
      exact (IH vals rest AfterComma Hok' Hv' Hlen).
Qed.

(** *** The entries of the row function *)

Lemma plain_translate (s : string) :
  plain s = true -> plain (translate s key_escape) = true.
Proof.
  induction s as [|c s IH]; intros Hp; [reflexivity |].
  destruct (plain_cons _ _ Hp) as (Hc & Hs & Hp').
  unfold is_comma, is_space in Hc, Hs.
  assert (Hc' : Ascii.eqb "," c = false) by now rewrite Ascii.eqb_sym.
  assert (Hs' : Ascii.eqb " " c = false) by now rewrite Ascii.eqb_sym.
  specialize (IH Hp').
  cbn [translate]. unfold key_escape at 1. cbn [table_get].
  rewrite Hc', Hs'.
  destruct (Ascii.eqb backslash c); [now rewrite plain_app, IH |].
  destruct (Ascii.eqb "=" c); [now rewrite plain_app, IH |].
  destruct (Ascii.eqb newline c); [exact IH |].
  unfold plain in *. cbn [free_of contains_char]. now rewrite Hc, Hs, IH.
Qed.

Lemma escape_plain (v : pyval) (w : list warning) (v' : string) :
  plain (py_str v) = true ->
  escape v key_escape = (w, Return v') -> plain v' = true.
Proof.
  intros Hp H. destruct v; simpl in H; try discriminate;
    injection H as _ <-; exact (plain_translate _ Hp).
Qed.

Lemma plain_string_of_uint (u : Decimal.uint) :
  plain (NilEmpty.string_of_uint u) = true.
Proof. induction u; simpl; auto. Qed.

Lemma plain_str_of_int (z : Z) : plain (str_of_int z) = true.
Proof.
  unfold str_of_int, NilZero.string_of_int, NilZero.string_of_uint.
  destruct (Z.to_int z) as [u | u]; destruct u; try reflexivity;
    apply (plain_string_of_uint (_ u)) || apply plain_string_of_uint.
Qed.

Lemma truthy_app_r (a b : string) : truthy b = true -> truthy (a ++ b) = true.
Proof. now destruct a. Qed.

Lemma token_ok_bare (k : string) :
  plain k = true -> token_ok [Lit (k ++ "="); Hole].
Proof.
  intros Hk. exists (k ++ "="), "". repeat split; auto.
  - now apply truthy_app_r.
  - now rewrite plain_app, Hk.
Qed.

Lemma token_ok_tail (k mid tail : string) :
  plain k = true -> plain mid = true -> plain tail = true ->
  token_ok [Lit (k ++ "=" ++ mid); Hole; Lit tail].
Proof.
  intros Hk Hm Ht. exists (k ++ "=" ++ mid), tail. repeat split; auto.
  - apply truthy_app_r. reflexivity.
  - rewrite !plain_app, Hk. simpl. exact Hm.
Qed.

Lemma Forall_list_append {A} (P : A -> Prop) (l : list A) (x : A) :
  Forall P l -> P x -> Forall P (list_append l x).
Proof.
  intros Hl Hx. unfold list_append. apply Forall_app. split; auto.
Qed.

Lemma extra_tags_loop_ok (p : label * list cell) (extra_tags : dict pyval) :
  Forall (fun kv => plain (fst kv) = true /\ plain (py_str (snd kv)) = true)
    extra_tags ->
  forall tags w out,
    Forall (entry_ok p) tags ->
    extra_tags_loop extra_tags tags = (w, Return out) ->
    Forall (entry_ok p) out.
Proof.
  induction 1 as [|[k v] rest [Hk Hv] Hrest IH]; intros tags w out Hok H.
  - now injection H as _ <-.
  - cbn [extra_tags_loop] in H. simpl in Hk, Hv.
    destruct (escape v key_escape) as [w1 [v'| |]] eqn:He; simpl in H;
      try discriminate.
    destruct (extra_tags_loop rest _) as [w2 r] eqn:Hl.
    injection H as _ ->. eapply IH; [| exact Hl].
    apply Forall_list_append; [exact Hok |]. split.
    + now apply token_ok_bare.
    + simpl. intros w' v0 [= _ <-]. exact (escape_plain _ _ _ Hv He).
Qed.

Lemma eval_col_plain (p : label * list cell) (i : nat) :
  Forall (fun c => plain (cell_str c) = true) (snd p) ->
  forall w v, eval_arg p (ACol i) = (w, Return v) -> plain v = true.
Proof.
  intros Hp w v H. cbn [eval_arg] in H.
  destruct (nth_error (snd p) i) as [c|] eqn:Hn; [| discriminate].
  injection H as _ <-. rewrite Forall_forall in Hp.
  apply Hp. eapply nth_error_In. exact Hn.
Qed.

Lemma columns_loop_ok (p : label * list cell) (tag_columns : list string)
  (cols : list (string * dtype)) :
  Forall (fun kv => plain (fst kv) = true) cols ->
  Forall (fun c => plain (cell_str c) = true) (snd p) ->
  forall i tags fields,
    Forall (entry_ok p) tags -> Forall (entry_ok p) fields ->
    Forall (entry_ok p) (fst (columns_loop tag_columns cols i tags fields))
    /\ Forall (entry_ok p) (snd (columns_loop tag_columns cols i tags fields)).
Proof.
  intros Hcols Hp. induction Hcols as [|[k t] cols Hk Hcols IH];
    intros i tags fields Ht Hf; [now split |].
  cbn [columns_loop]. simpl in Hk.
  pose proof (plain_translate k Hk) as Hk'.
  pose proof (eval_col_plain p i Hp) as Hv.
  destruct (existsb _ tag_columns).
  - apply IH; [| exact Hf]. apply Forall_list_append; [exact Ht |].
    split; [now apply token_ok_bare | exact Hv].
  - destruct t; apply IH; try exact Ht;
      (apply Forall_list_append; [exact Hf |]); (split; [| exact Hv]);
      first [ now apply token_ok_bare
            | exact (token_ok_tail _ "" "i" Hk' eq_refl eq_refl)
            | exact (token_ok_tail _ (str1 dquote) (str1 dquote) Hk' eq_refl eq_refl)
            | idtac ].
Qed.

Lemma eval_args_plain (p : label * list cell)
  (entries : list (list piece * argexpr)) (w : list warning)
  (vals : list string) :
  Forall (entry_ok p) entries ->
  mapM (eval_arg p) (map snd entries) = (w, Return vals) ->
  Forall (fun v => plain v = true) vals
  /\ List.length vals = List.length (map fst entries).
Proof.
  intros Hok H. apply mapM_returns in H. revert vals H.
  induction Hok as [|e entries [_ He] Hok IH]; intros vals H;
    inversion H as [|? v ? vals' [w' Hv] Hrest]; subst; [now split |].
  destruct (IH _ Hrest) as [Hp Hl]. split; [| simpl; now rewrite Hl].
  constructor; [exact (He _ _ Hv) | exact Hp].
Qed.

(** The line of a row whose measurement, names and values have no comma
    and no space has no dangling delimiter. *)
Lemma row_function_no_dangling (p : label * list cell) (m : string)
  (tags fields : list (list piece * argexpr)) (w : list warning)
  (line : string) :
  plain m = true ->
  Forall (entry_ok p) tags -> Forall (entry_ok p) fields ->
  row_function
    (Lit m :: Lit (match tags with [] => "" | _ => "," end)
     :: join_fmt "," (map fst tags))
    (join_fmt "," (map fst fields)) tags fields p = (w, Return line) ->
  dangling line = false.
Proof.
  intros Hm Ht Hf H. unfold row_function in H.
  apply bind_returns in H. destruct H as (w1 & tv & w2 & Htv & H).
  apply bind_returns in H. destruct H as (w3 & fv & w4 & Hfv & H).
  apply bind_returns in H. destruct H as (w5 & t & w6 & _ & H).
  destruct (eval_args_plain _ _ _ _ Ht Htv) as [Hpt Hlt].
  destruct (eval_args_plain _ _ _ _ Hf Hfv) as [Hpf Hlf].
  assert (Htok : forall es, Forall (entry_ok p) es -> Forall token_ok (map fst es)).
  { intros es Hes. apply Forall_map. eapply Forall_impl; [| exact Hes].
    now intros e [He _]. }
  assert (Hscan : exists st,
    scan_fmt AtStart
      ((Lit m :: Lit (match tags with [] => "" | _ => "," end)
        :: join_fmt "," (map fst tags))
       ++ Lit " " :: join_fmt "," (map fst fields) ++ [Lit " "; Hole])%list
      (tv ++ fv ++ [str_of_int t])%list = Some (st, [])).
  { cbn [app scan_fmt]. rewrite (scan_plain m Hm).
    assert (Htags : exists st1,
      match scan (if truthy m then AfterOther else AtStart)
                 (match tags with [] => "" | _ => "," end) with
      | Some st' =>
          scan_fmt st' (join_fmt "," (map fst tags) ++ Lit " "
                        :: join_fmt "," (map fst fields) ++ [Lit " "; Hole])%list
            (tv ++ fv ++ [str_of_int t])%list
      | None => None
      end
      = scan_fmt st1 (Lit " " :: join_fmt "," (map fst fields) ++ [Lit " "; Hole])%list
          (fv ++ [str_of_int t])%list
      /\ (st1 = AtStart \/ st1 = AfterOther)).
    { destruct tags as [|e tags].
      - destruct tv; [| discriminate]. cbn [scan map join_fmt app].
        exists (if truthy m then AfterOther else AtStart).
        split; [reflexivity | destruct (truthy m); auto].
      - exists AfterOther. split; [| auto].
        assert (Hc : scan (if truthy m then AfterOther else AtStart) ","
                     = Some AfterComma) by now destruct (truthy m).
        rewrite Hc, scan_fmt_app.
        now rewrite (scan_join_fmt _ tv _ AfterComma (Htok _ Ht) Hpt Hlt). }
    destruct Htags as (st1 & -> & Hst1).
    cbn [scan_fmt].
    assert (Hsp : scan st1 " " = Some AfterSpace)
      by (destruct Hst1 as [-> | ->]; reflexivity).
    rewrite Hsp, scan_fmt_app,
      (scan_join_fmt _ fv _ AfterSpace (Htok _ Hf) Hpf Hlf).
    cbn [scan_fmt].
    assert (Hsp2 : scan (match map fst fields with
                         | [] => AfterSpace
                         | _ => AfterOther
                         end) " " = Some AfterSpace)
      by now destruct (map fst fields).
    rewrite Hsp2, (scan_plain _ (plain_str_of_int t)). eauto. }
  destruct Hscan as [st Hscan].
  exact (scan_no_dangling _ _ _ (format_scan _ _ _ _ _ _ _ H Hscan)).
Qed.

(** *** The lines [parse_df] returns *)

Lemma mapM_post {A B C} (f : A -> py B) (g : B -> C) (l : list A) :
  forall w d,
    mapM (fun a => b <- f a ;; ret (g b)) l = (w, Return d) ->
    exists w' d0, mapM f l = (w', Return d0) /\ d = map g d0.
Proof.
  induction l as [|a l IH]; intros w d H.
  - injection H as _ <-. now exists [], [].
  - cbn [mapM] in H.
    apply bind_returns in H. destruct H as (w1 & c & w2 & Hc & H).
    apply bind_returns in H. destruct H as (w3 & cs & w4 & Hcs & H).
    injection H as _ <-.
    apply bind_returns in Hc. destruct Hc as (w5 & b & w6 & Hb & Hc).
    injection Hc as _ <-.
    destruct (IH _ _ Hcs) as (w' & d0 & Hd0 & ->).
    cbn [mapM]. rewrite Hb, Hd0. simpl. now eexists _, (b :: d0).
Qed.

Lemma mapM_length {A B} (f : A -> py B) (l : list A) (w : list warning)
  (l' : list B) :
  mapM f l = (w, Return l') -> List.length l' = List.length l.
Proof.
  intros H. apply mapM_returns in H. symmetry. exact (Forall2_length H).
Qed.

Lemma no_null_rows (df : DataFrame) :
  existsb (fun b => b) (map row_isnull (df_rows df)) = false ->
  clean_rows df = df_rows df /\ null_rows df = [].
Proof.
  unfold clean_rows, null_rows, itertuples, mask_rows; cbn [df_rows].
  induction (df_rows df) as [|r rows IH]; simpl; [now split |].
  destruct (row_isnull r); simpl; [discriminate |].
  intros H. destruct (IH H) as [-> ->]. now split.
Qed.

Lemma parse_df_returns (E : env) (df : DataFrame) (measurement : pyval)
  (tag_columns : option (list string)) (extra_tags : dict pyval)
  (w : list warning) (out : string) :
  parse_df E df measurement tag_columns extra_tags = (w, Return out) ->
  exists w0 tags0 wc clean wd dirty0,
    extra_tags_loop extra_tags [] = (w0, Return tags0)
    /\ mapM (row_formatter df measurement tag_columns tags0) (clean_rows df)
       = (wc, Return clean)
    /\ mapM (row_formatter df measurement tag_columns tags0) (null_rows df)
       = (wd, Return dirty0)
    /\ out = encode_utf8 (join (str1 newline)
                            (clean ++ map (cleanup E df) dirty0)%list).
Proof.
  intros H. unfold parse_df in H.
  destruct (df_index_type df); try discriminate.
  apply bind_returns in H. destruct H as (w0 & tags0 & w1 & Ht & H).
  exists w0, tags0. unfold row_formatter, tag_column_set.
  destruct (columns_loop _ (df_columns df) 0 tags0 []) as [tags fields].
  destruct (negb _); [discriminate |].
  destruct (existsb (fun b => b) (map row_isnull (df_rows df))) eqn:Hnull.
  - destruct (negb _); [discriminate |].
    apply bind_returns in H. destruct H as (wc & clean & w2 & Hc & H).
    apply bind_returns in H. destruct H as (wd & dirty & w3 & Hd & H).
    injection H as _ <-.
    destruct (mapM_post _ _ _ _ _ Hd) as (wd' & dirty0 & Hd0 & ->).
    exists wc, clean, wd', dirty0. auto.
  - apply bind_returns in H. destruct H as (wc & lines & w2 & Hc & H).
    injection H as _ <-.
    destruct (no_null_rows df Hnull) as [-> ->]. fold (itertuples df).
    exists wc, lines, [], []. rewrite app_nil_r. auto.
Qed.

(** *** The row function returns *)

Lemma holes_app (f g : list piece) :
  holes (f ++ g) = (holes f + holes g)%nat.
Proof.
  induction f as [|[s|] f IH]; simpl; [reflexivity | exact IH | now rewrite IH].
Qed.

Lemma holes_join_fmt (sep : string) (fmts : list (list piece)) :
  Forall (fun f => holes f = 1%nat) fmts ->
  holes (join_fmt sep fmts) = List.length fmts.
Proof.
  induction 1 as [|f fmts Hf Hall IH]; [reflexivity |].
  destruct fmts as [|f' fmts]; [exact Hf |].
  change (join_fmt sep (f :: f' :: fmts))
    with (f ++ Lit sep :: join_fmt sep (f' :: fmts))%list.
  rewrite holes_app. cbn [holes]. rewrite IH, Hf. reflexivity.
Qed.

Lemma format_total (fmt : list piece) :
  forall args, (holes fmt <= List.length args)%nat ->
               exists r, format fmt args = ([], Return r).
Proof.
  induction fmt as [|[s|] fmt IH]; intros args Hlen.
  - now exists "".
  - destruct (IH args Hlen) as (r & Hr). exists (s ++ r).
    cbn [format]. now rewrite Hr.
  - destruct args as [|a args]; [simpl in Hlen; lia |].
    destruct (IH args) as (r & Hr); [simpl in Hlen; lia |].
    exists (a ++ r). cbn [format]. now rewrite Hr.
Qed.

Lemma eval_args_total (p : label * list cell)
  (entries : list (list piece * argexpr)) :
  Forall (entry_fits (List.length (snd p))) entries ->
  exists vals, mapM (eval_arg p) (map snd entries) = ([], Return vals)
               /\ List.length vals = List.length entries.
Proof.
  intros Hfit.
  destruct (mapM_total (eval_arg p) (fun _ _ => True) (map snd entries))
    as (vals & Hm & Hall).
  - intros a Ha. apply in_map_iff in Ha. destruct Ha as (e & <- & He).
    rewrite Forall_forall in Hfit. destruct (Hfit e He) as [_ Hi].
    destruct (snd e) as [text | i]; [now exists text |].
    cbn [eval_arg]. destruct (nth_error (snd p) i) as [c|] eqn:Hn.
    + now exists (cell_str c).
    + apply nth_error_None in Hn. lia.
  - exists vals. split; [exact Hm |].
    rewrite <- (Forall2_length Hall). apply length_map.
Qed.

Lemma entry_holes (n : nat) (entries : list (list piece * argexpr)) :
  Forall (entry_fits n) entries ->
  holes (join_fmt "," (map fst entries)) = List.length entries.
Proof.
  intros H. rewrite holes_join_fmt, length_map; [reflexivity |].
  apply Forall_map. eapply Forall_impl; [| exact H]. now intros e [He _].
Qed.

(** On a row with a timestamp and a cell for every argument the row
    function returns, without a warning. *)
Lemma row_function_total (m sep : string)
  (tags fields : list (list piece * argexpr)) (p : label * list cell) :
  Forall (entry_fits (List.length (snd p))) tags ->
  Forall (entry_fits (List.length (snd p))) fields ->
  (exists t, fst p = LTime t) ->
  exists line,
    row_function (Lit m :: Lit sep :: join_fmt "," (map fst tags))
      (join_fmt "," (map fst fields)) tags fields p = ([], Return line).
Proof.
  intros Ht Hf (t & Hl). unfold row_function.
  destruct (eval_args_total p tags Ht) as (tv & Htv & Hlt).
  destruct (eval_args_total p fields Hf) as (fv & Hfv & Hlf).
  rewrite Htv. cbn [bind]. rewrite Hfv. cbn [bind].
  rewrite Hl. cbn [label_value ret bind].
  destruct (format_total
              ((Lit m :: Lit sep :: join_fmt "," (map fst tags))
               ++ Lit " " :: join_fmt "," (map fst fields) ++ [Lit " "; Hole])%list
              (tv ++ fv ++ [str_of_int t])%list) as (line & Hline).
  - cbn [app holes]. rewrite holes_app. cbn [holes]. rewrite holes_app.
    cbn [holes]. rewrite (entry_holes _ _ Ht), (entry_holes _ _ Hf).
    rewrite !length_app. simpl. lia.
  - exists line. rewrite Hline. reflexivity.
Qed.

Lemma extra_tags_loop_total (items : dict pyval) :
  Forall (fun kv => isinstance_bytes (snd kv) = false) items ->
  forall tags, exists w out, extra_tags_loop items tags = (w, Return out).
Proof.
  induction 1 as [|[k v] items Hv Hall IH]; intros tags.
  - now exists [], tags.
  - cbn [extra_tags_loop]. simpl in Hv.
    assert (He : exists w v', escape v key_escape = (w, Return v')).
    { destruct (isinstance_str v) eqn:Hs.
      - destruct v; try discriminate. rewrite escape_str. eauto.
      - rewrite (escape_other v _ Hs Hv). eauto. }
    destruct He as (w1 & v' & He). rewrite He. cbn [bind].
    destruct (IH (list_append tags ([Lit (k ++ "="); Hole], AConst v')))
      as (w2 & out & Hl).
    rewrite Hl. now exists (w1 ++ w2)%list, out.
Qed.

(** What holds of the entries the first loop starts from, and of every
    entry it can add, holds of the entries it returns. *)
Lemma extra_tags_loop_invariant (Q : list piece * argexpr -> Prop)
  (items : dict pyval) :
  (forall k v w v', In (k, v) items -> escape v key_escape = (w, Return v') ->
                    Q ([Lit (k ++ "="); Hole], AConst v')) ->
  forall tags w out,
    Forall Q tags -> extra_tags_loop items tags = (w, Return out) ->
    Forall Q out.
Proof.
  induction items as [|[k v] items IH]; intros Hadd tags w out Hq H.
  - now injection H as _ <-.
  - cbn [extra_tags_loop] in H.
    apply bind_returns in H. destruct H as (w1 & v' & w2 & He & H).
    eapply IH; [| | exact H].
    + intros k0 v0 w0 v0' Hin. apply Hadd. now right.
    + apply Forall_list_append; [exact Hq |].
      exact (Hadd k v w1 v' (or_introl eq_refl) He).
Qed.

(** The same for the second loop: an entry it adds for the column at
    position [j] has one of three formats and the argument [p[j + 1]]. *)
Lemma columns_loop_invariant (Q : list piece * argexpr -> Prop)
  (tag_columns : list string) (cols : list (string * dtype)) :
  forall i tags fields,
    (forall j k t, nth_error cols j = Some (k, t) ->
       let k' := translate k key_escape in
       Q ([Lit (k' ++ "="); Hole], ACol (i + j))
       /\ Q ([Lit (k' ++ "="); Hole; Lit "i"], ACol (i + j))
       /\ Q ([Lit (k' ++ "=" ++ str1 dquote); Hole; Lit (str1 dquote)],
             ACol (i + j))) ->
    Forall Q tags -> Forall Q fields ->
    Forall Q (fst (columns_loop tag_columns cols i tags fields))
    /\ Forall Q (snd (columns_loop tag_columns cols i tags fields)).
Proof.
  induction cols as [|[k t] cols IH]; intros i tags fields Hadd Ht Hf;
    [now split |].
  cbn [columns_loop].
  destruct (Hadd 0%nat k t eq_refl) as (Q1 & Q2 & Q3).
  rewrite Nat.add_0_r in Q1, Q2, Q3.
  assert (Hnext : forall j k0 t0, nth_error cols j = Some (k0, t0) ->
            let k' := translate k0 key_escape in
            Q ([Lit (k' ++ "="); Hole], ACol (S i + j))
            /\ Q ([Lit (k' ++ "="); Hole; Lit "i"], ACol (S i + j))
            /\ Q ([Lit (k' ++ "=" ++ str1 dquote); Hole; Lit (str1 dquote)],
                  ACol (S i + j))).
  { intros j k0 t0 Hj. replace (S i + j)%nat with (i + S j)%nat by lia.
    exact (Hadd (S j) k0 t0 Hj). }
  destruct (existsb _ tag_columns).
  - apply IH; [exact Hnext | | exact Hf]. now apply Forall_list_append.
  - destruct t; apply IH; try exact Hnext; try exact Ht;
      now apply Forall_list_append.
Qed.

(** *** Lines without a newline *)

Lemma free_of_excludes (bad : string) (c : ascii) (s : string) :
  contains_char c bad = true -> free_of bad s = true ->
  contains_char c s = false.
Proof.
  intros Hc. induction s as [|d s IH]; [reflexivity |].
  cbn [free_of contains_char]. intros H. apply andb_true_iff in H.
  destruct H as [Hd Hs]. rewrite (IH Hs), orb_false_r.
  destruct (Ascii.eqb c d) eqn:Heq; [| reflexivity].
  apply Ascii.eqb_eq in Heq. subst d. now rewrite Hc in Hd.
Qed.

Lemma literal_safe_one_line (s : string) :
  literal_safe s = true -> has_newline s = false.
Proof. apply free_of_excludes. reflexivity. Qed.

Lemma format_one_line (fmt : list piece) :
  forall args w r,
    Forall one_line_piece fmt ->
    Forall (fun a => has_newline a = false) args ->
    format fmt args = (w, Return r) -> has_newline r = false.
Proof.
  induction fmt as [|[s|] fmt IH]; intros args w r Hfmt Hargs H.
  - now injection H as _ <-.
  - cbn [format] in H. inversion Hfmt as [|? ? Hs Hfmt']; subst.
    apply bind_returns in H. destruct H as (w1 & r1 & w2 & Hr & H).
    injection H as _ <-. rewrite has_newline_app.
    simpl in Hs. now rewrite Hs, (IH _ _ _ Hfmt' Hargs Hr).
  - cbn [format] in H. destruct args as [|a args]; [discriminate |].
    inversion Hfmt as [|? ? _ Hfmt']; subst.
    inversion Hargs as [|? ? Ha Hargs']; subst.
    apply bind_returns in H. destruct H as (w1 & r1 & w2 & Hr & H).
    injection H as _ <-. rewrite has_newline_app.
    now rewrite Ha, (IH _ _ _ Hfmt' Hargs' Hr).
Qed.

Lemma join_fmt_one_line (fmts : list (list piece)) :
  Forall (Forall one_line_piece) fmts ->
  Forall one_line_piece (join_fmt "," fmts).
Proof.
  induction 1 as [|f fmts Hf Hall IH]; [constructor |].
  destruct fmts as [|f' fmts]; [exact Hf |].
  change (join_fmt "," (f :: f' :: fmts))
    with (f ++ Lit "," :: join_fmt "," (f' :: fmts))%list.
  apply Forall_app. split; [exact Hf |]. constructor; [reflexivity | exact IH].
Qed.

Lemma eval_args_one_line (p : label * list cell)
  (entries : list (list piece * argexpr)) (w : list warning)
  (vals : list string) :
  Forall (entry_one_line p) entries ->
  mapM (eval_arg p) (map snd entries) = (w, Return vals) ->
  Forall (fun v => has_newline v = false) vals.
Proof.
  intros Hok H. apply mapM_returns in H. revert vals H.
  induction Hok as [|e entries [_ He] Hok IH]; intros vals H;
    inversion H as [|? v ? vals' [w' Hv] Hrest]; subst; constructor.
  - exact (He _ _ Hv).
  - exact (IH _ Hrest).
Qed.

(** The line of a row has no newline when the measurement, the tokens
    and the values have none. *)
Lemma row_function_one_line (p : label * list cell) (m sep : string)
  (tags fields : list (list piece * argexpr)) (w : list warning)
  (line : string) :
  has_newline m = false -> has_newline sep = false ->
  Forall (entry_one_line p) tags -> Forall (entry_one_line p) fields ->
  row_function (Lit m :: Lit sep :: join_fmt "," (map fst tags))
    (join_fmt "," (map fst fields)) tags fields p = (w, Return line) ->
  has_newline line = false.
Proof.
  intros Hm Hsep Ht Hf H. unfold row_function in H.
  apply bind_returns in H. destruct H as (w1 & tv & w2 & Htv & H).
  apply bind_returns in H. destruct H as (w3 & fv & w4 & Hfv & H).
  apply bind_returns in H. destruct H as (w5 & t & w6 & _ & H).
  assert (Hfmt : forall es, Forall (entry_one_line p) es ->
                            Forall one_line_piece (join_fmt "," (map fst es))).
  { intros es Hes. apply join_fmt_one_line, Forall_map.
    eapply Forall_impl; [| exact Hes]. now intros e [He _]. }
  eapply format_one_line; [| | exact H].
  - cbn [app]. constructor; [exact Hm |]. constructor; [exact Hsep |].
    apply Forall_app. split; [exact (Hfmt _ Ht) |].
    constructor; [reflexivity |].
    apply Forall_app. split; [exact (Hfmt _ Hf) |]. now repeat constructor.
  - apply Forall_app. split; [exact (eval_args_one_line _ _ _ _ Ht Htv) |].
    apply Forall_app. split; [exact (eval_args_one_line _ _ _ _ Hf Hfv) |].
    constructor; [apply str_of_int_no_newline | constructor].
Qed.

Lemma has_newline_cons (c : ascii) (s : string) :
  has_newline (String c s) = Ascii.eqb newline c || has_newline s.
Proof. reflexivity. Qed.

Lemma sub_alts_one_line (alts : list string) (repl : string) :
  has_newline repl = false ->
  forall s skip, has_newline s = false ->
                 has_newline (sub_alts alts repl skip s) = false.
Proof.
  intros Hrepl. induction s as [|c s IH]; intros skip Hs.
  - cbn [sub_alts]. destruct skip; [| reflexivity].
    now destruct (first_match alts "").
  - rewrite has_newline_cons in Hs. apply orb_false_iff in Hs.
    destruct Hs as [Hc Hs]. cbn [sub_alts].
    destruct skip as [|k]; [| now apply IH].
    destruct (first_match alts (String c s)) as [a|].
    + destruct (String.length a).
      * now rewrite has_newline_app, Hrepl, has_newline_cons, Hc, IH.
      * now rewrite has_newline_app, Hrepl, IH.
    + now rewrite has_newline_cons, Hc, IH.
Qed.

Lemma sub_comma_runs_one_line (repl : string) :
  has_newline repl = false ->
  forall s run, has_newline s = false ->
                has_newline (sub_comma_runs repl run s) = false.
Proof.
  intros Hrepl.
  assert (Hflush : forall run, has_newline (flush_commas repl run) = false)
    by (intros [|[|run]]; [reflexivity | reflexivity | exact Hrepl]).
  induction s as [|c s IH]; intros run Hs; [apply Hflush |].
  rewrite has_newline_cons in Hs. apply orb_false_iff in Hs.
  destruct Hs as [Hc Hs]. cbn [sub_comma_runs].
  destruct (Ascii.eqb c ","); [now apply IH |].
  now rewrite has_newline_app, Hflush, has_newline_cons, Hc, IH.
Qed.

Lemma cleanup_one_line (E : env) (df : DataFrame) (line : string) :
  has_newline line = false -> has_newline (cleanup E df line) = false.
Proof.
  intros H. unfold cleanup, make_replacements. cbn [fold_left re_sub fst snd].
  apply sub_alts_one_line; [reflexivity |].
  apply sub_comma_runs_one_line; [reflexivity |].
  now apply sub_alts_one_line.
Qed.

(** *** The lines of the payload *)

Lemma encode_utf8_app (a b : string) :
  encode_utf8 (a ++ b) = encode_utf8 a ++ encode_utf8 b.
Proof.
  induction a as [|c a IH]; [reflexivity |].
  cbn [append encode_utf8]. rewrite IH.
  now destruct (nat_of_ascii c <? 128)%nat.
Qed.

Lemma encode_utf8_join (l : list string) :
  encode_utf8 (join (str1 newline) l)
  = join (str1 newline) (map encode_utf8 l).
Proof.
  unfold join. induction l as [|x l IH]; [reflexivity |].
  destruct l as [|y l]; [reflexivity |].
  change (String.concat (str1 newline) (x :: y :: l))
    with (x ++ str1 newline ++ String.concat (str1 newline) (y :: l)).
  rewrite !encode_utf8_app, IH. reflexivity.
Qed.

Lemma encode_utf8_one_line (s : string) :
  has_newline s = false -> has_newline (encode_utf8 s) = false.
Proof.
  induction s as [|c s IH]; [reflexivity |].
  rewrite has_newline_cons. intros H. apply orb_false_iff in H.
  destruct H as [Hc Hs]. cbn [encode_utf8].
  destruct (nat_of_ascii c <? 128)%nat.
  - now rewrite has_newline_cons, Hc, IH.
  - rewrite !has_newline_cons, (IH Hs), !orb_false_r.
    clear. destruct c as [[] [] [] [] [] [] [] []]; reflexivity.
Qed.

Lemma split_one_line (s : string) :
  has_newline s = false ->
  split newline s = [s]
  /\ forall rest, split newline (s ++ String newline rest)
                  = s :: split newline rest.
Proof.
  induction s as [|c s IH]; intros H.
  - split; [reflexivity |]. intros rest. reflexivity.
  - rewrite has_newline_cons in H. apply orb_false_iff in H.
    destruct H as [Hc Hs]. destruct (IH Hs) as [H1 H2].
    split; [| intros rest]; cbn [append split]; rewrite Hc.
    + now rewrite H1.
    + now rewrite H2.
Qed.

(** Lines without a newline, joined by newlines, are what [split] gives
    back. *)
Lemma split_join (l : list string) :
  l <> [] -> Forall (fun s => has_newline s = false) l ->
  split newline (join (str1 newline) l) = l.
Proof.
  unfold join. intros Hne Hall. induction Hall as [|x l Hx Hall IH];
    [congruence |].
  destruct l as [|y l]; [exact (proj1 (split_one_line x Hx)) |].
  change (String.concat (str1 newline) (x :: y :: l))
    with (x ++ String newline (String.concat (str1 newline) (y :: l))).
  rewrite (proj2 (split_one_line x Hx)), IH; [reflexivity | discriminate].
Qed.

Lemma null_rows_any (df : DataFrame) :
  existsb (fun b => b) (map row_isnull (df_rows df)) = true ->
  null_rows df <> [].
Proof.
  unfold null_rows, itertuples, mask_rows; cbn [df_rows].
  induction (df_rows df) as [|r rows IH]; simpl; [discriminate |].
  destruct (row_isnull r); simpl; [discriminate | exact IH].
Qed.

Lemma mapM_post_total {A B C} (f : A -> py B) (g : B -> C) (l : list A)
  (d0 : list B) :
  mapM f l = ([], Return d0) ->
  mapM (fun a => b <- f a ;; ret (g b)) l = ([], Return (map g d0)).
Proof.
  revert d0. induction l as [|a l IH]; intros d0 H.
  - now injection H as <-.
  - cbn [mapM] in H |- *.
    apply bind_returns_app in H. destruct H as (w1 & b & w2 & Hb & H & Hw).
    apply bind_returns_app in H. destruct H as (w3 & bs & w4 & Hbs & H & ->).
    injection H as <- <-. rewrite app_nil_r in Hw.
    symmetry in Hw. apply app_eq_nil in Hw. destruct Hw as [-> ->].
    rewrite Hb. cbn [bind ret app]. rewrite (IH _ Hbs). reflexivity.
Qed.

(** The entries of the row function of a table whose names compile, on a
    row [p] of the table. *)
Lemma row_formatter_entries (df : DataFrame) (measurement : pyval)
  (tag_columns : option (list string)) (extra_tags : dict pyval)
  (w0 : list warning) (tags0 : list (list piece * argexpr))
  (p : label * list cell) :
  names_compile df measurement extra_tags = true ->
  extra_tags_loop extra_tags [] = (w0, Return tags0) ->
  List.length (snd p) = List.length (df_columns df) ->
  let entries :=
    columns_loop (tag_column_set df tag_columns) (df_columns df) O tags0 [] in
  (Forall (entry_fits (List.length (snd p))) (fst entries)
   /\ Forall (entry_fits (List.length (snd p))) (snd entries))
  /\ (Forall (fun c => has_newline (cell_str c) = false) (snd p) ->
      Forall (entry_one_line p) (fst entries)
      /\ Forall (entry_one_line p) (snd entries)).
Proof.
  intros Hsafe Ht Hlen entries. unfold names_compile in Hsafe.
  apply andb_true_iff in Hsafe. destruct Hsafe as [Hsafe _].
  apply andb_true_iff in Hsafe. destruct Hsafe as [Hsafe _].
  apply andb_true_iff in Hsafe. destruct Hsafe as [_ Hkeys].
  rewrite forallb_forall in Hkeys.
  assert (Hkey : In key_escape escape_tables) by (simpl; auto).
  split.
  - apply columns_loop_invariant; [| | constructor].
    + intros j k t Hj. simpl.
      assert (Hlt : (j < List.length (snd p))%nat)
        by (rewrite Hlen; apply nth_error_Some; congruence).
      repeat split; auto.
    + eapply (extra_tags_loop_invariant _ extra_tags); [| constructor | exact Ht].
      intros k v w v' _ _. now split.
  - intros Hcells. apply columns_loop_invariant; [| | constructor].
    + intros j k t _. simpl.
      assert (Hk : has_newline (translate k key_escape ++ "=") = false)
        by now rewrite has_newline_app, translate_no_newline.
      assert (Hq : has_newline (translate k key_escape ++ "=" ++ str1 dquote)
                   = false)
        by now rewrite has_newline_app, translate_no_newline.
      assert (Hv : forall w v, eval_arg p (ACol j) = (w, Return v) ->
                               has_newline v = false).
      { intros w v H. cbn [eval_arg] in H.
        destruct (nth_error (snd p) j) as [c|] eqn:Hn; [| discriminate].
        injection H as _ <-. rewrite Forall_forall in Hcells.
        apply Hcells. eapply nth_error_In. exact Hn. }
      repeat split; try exact Hv; repeat constructor; assumption.
    + eapply (extra_tags_loop_invariant _ extra_tags); [| constructor | exact Ht].
      intros k v w v' Hin He. split.
      * constructor; [| now repeat constructor]. simpl.
        pose proof (literal_safe_one_line _ (Hkeys (k, v) Hin)) as Hk.
        cbn [fst] in Hk. now rewrite has_newline_app, Hk.
      * simpl. intros w' v0 [= _ <-].
        exact (escape_returns_no_newline _ _ _ _ Hkey He).
Qed.

(** Under the hypotheses spelled out in C6 below, [parse_df] returns the
    lines of the clean rows followed by the cleaned lines of the rows
    with nulls, each rendered by the row function on its row. *)
Lemma parse_df_total (E : env) (df : DataFrame) (measurement : pyval)
  (tag_columns : option (list string)) (extra_tags : dict pyval) :
  well_formed df ->
  names_compile df measurement extra_tags = true ->
  (null_rows df <> [] -> names_match df = true) ->
  Forall (fun kv => isinstance_bytes (snd kv) = false) extra_tags ->
  exists w tags0 clean dirty0,
    extra_tags_loop extra_tags [] = (w, Return tags0)
    /\ parse_df E df measurement tag_columns extra_tags
       = (w, Return (encode_utf8 (join (str1 newline)
                                    (clean ++ map (cleanup E df) dirty0)%list)))
    /\ Forall2 (fun p line =>
                  row_formatter df measurement tag_columns tags0 p
                  = ([], Return line))
         (clean_rows df) clean
    /\ Forall2 (fun p line =>
                  row_formatter df measurement tag_columns tags0 p
                  = ([], Return line))
         (null_rows df) dirty0.
Proof.
  intros [Hindex Hrows] Hsafe Hregex Hbytes.
  destruct (extra_tags_loop_total extra_tags Hbytes []) as (w & tags0 & Ht).
  rewrite Forall_forall in Hrows.
  assert (Hrow : forall p, In p (df_rows df) ->
            exists line, row_formatter df measurement tag_columns tags0 p
                         = ([], Return line)).
  { intros p Hp. destruct (Hrows p Hp) as [Hl Hlen].
    destruct (row_formatter_entries df measurement tag_columns extra_tags
                w tags0 p Hsafe Ht Hlen) as [[Hf1 Hf2] _].
    unfold row_formatter.
    destruct (columns_loop _ (df_columns df) 0 tags0 []) as [tags fields].
    now apply row_function_total. }
  destruct (mapM_total (row_formatter df measurement tag_columns tags0)
              (fun p line => row_formatter df measurement tag_columns tags0 p
                             = ([], Return line)) (clean_rows df))
    as (clean & Hc & Hclean).
  { intros p Hp. apply filter_In in Hp. destruct Hp as [Hp _].
    destruct (Hrow p Hp) as (line & Hline). now exists line. }
  destruct (mapM_total (row_formatter df measurement tag_columns tags0)
              (fun p line => row_formatter df measurement tag_columns tags0 p
                             = ([], Return line)) (null_rows df))
    as (dirty0 & Hd & Hdirty).
  { intros p Hp. apply filter_In in Hp. destruct Hp as [Hp _].
    destruct (Hrow p Hp) as (line & Hline). now exists line. }
  exists w, tags0, clean, dirty0.
  split; [exact Ht | split; [| split; [exact Hclean | exact Hdirty]]].
  unfold parse_df. rewrite Hindex, Ht. cbn [bind].
  unfold row_formatter, tag_column_set in Hc, Hd.
  destruct (columns_loop _ (df_columns df) 0 tags0 []) as [tags fields].
  unfold names_compile in Hsafe. rewrite Hsafe. cbn [negb].
  destruct (existsb (fun b => b) (map row_isnull (df_rows df))) eqn:Hnull.
  - unfold names_match in Hregex. rewrite (Hregex (null_rows_any df Hnull)).
    cbn [negb]. unfold clean_rows in Hc. rewrite Hc. cbn [bind].
    unfold null_rows in Hd. rewrite (mapM_post_total _ _ _ _ Hd).
    cbn [bind ret app]. now rewrite !app_nil_r.
  - destruct (no_null_rows df Hnull) as [Hcl Hnl].
    rewrite Hcl in Hc. unfold itertuples. rewrite Hc. cbn [bind ret app].
    rewrite Hnl in Hd. injection Hd as <-. cbn [map].
    now rewrite !app_nil_r.
Qed.

(** C6 (as amended).  Take a table under a [DatetimeIndex], every row
    labelled by a timestamp and holding one cell per column; a
    measurement, extra tags and column names that stand for themselves in
    the source of the row function (no quote, brace, backslash, CR or
    NUL; no double quote in an extra-tag value; no newline in the
    measurement and the extra-tag names); column names without regular
    expression metacharacters if a row has a null; extra-tag values that
    are not [bytes].  Then [parse_df] returns, and what it returns is the
    UTF-8 encoding of the lines of the rows without nulls, each what the
    row function renders for its row, followed by the lines of the rows
    with nulls, each what the clean-up makes of the rendering of its row,
    joined by newlines.  A line of a row with nulls has no [,,] and no
    comma next to a space, whatever the table holds.  A line of a row
    without nulls is rendered as it is, and has none when the
    measurement, the names and the values have no comma and no space.
    When no cell has a newline in its text, no line has one, and the
    texts between the newlines of the payload of a table with rows are
    those lines, encoded: one for each row. *)
Theorem parse_df_lines (E : env) (df : DataFrame) (measurement : pyval)
  (tag_columns : option (list string)) (extra_tags : dict pyval) :
  well_formed df ->
  names_compile df measurement extra_tags = true ->
  (null_rows df <> [] -> names_match df = true) ->
  Forall (fun kv => isinstance_bytes (snd kv) = false) extra_tags ->
  exists w tags0 clean dirty,
    extra_tags_loop extra_tags [] = (w, Return tags0)
    /\ parse_df E df measurement tag_columns extra_tags
       = (w, Return (encode_utf8 (join (str1 newline) (clean ++ dirty)%list)))
    /\ Forall2 (fun p line =>
                  row_formatter df measurement tag_columns tags0 p
                  = ([], Return line))
         (clean_rows df) clean
    /\ Forall2 (fun p line =>
                  exists raw,
                    row_formatter df measurement tag_columns tags0 p
                    = ([], Return raw)
                    /\ line = cleanup E df raw)
         (null_rows df) dirty
    /\ Forall (fun line => dangling line = false) dirty
    /\ (plain_inputs df measurement extra_tags ->
        Forall (fun line => dangling line = false) clean)
    /\ (one_line_cells df ->
        Forall (fun line => has_newline line = false) (clean ++ dirty)%list
        /\ (df_rows df <> [] ->
            split newline
              (encode_utf8 (join (str1 newline) (clean ++ dirty)%list))
            = map encode_utf8 (clean ++ dirty)%list)).
Proof.
  intros Hwf Hsafe Hregex Hbytes.
  destruct (parse_df_total E df measurement tag_columns extra_tags
              Hwf Hsafe Hregex Hbytes)
    as (w & tags0 & clean & dirty0 & Ht & Hout & Hclean & Hdirty).
  destruct Hwf as [Hindex Hrows]. rewrite Forall_forall in Hrows.
  exists w, tags0, clean, (map (cleanup E df) dirty0).
  split; [exact Ht |].
  split; [exact Hout | split; [exact Hclean | split; [| split; [| split]]]].
  - apply Forall2_map_r. eapply Forall2_impl; [| exact Hdirty].
    intros p raw Hraw. now exists raw.
  - apply Forall_map, Forall_forall. intros line _. apply cleanup_no_dangling.
  - intros (Hm & Hx & Hcols & Hcells).
    apply Forall_forall. intros line Hin.
    destruct (Forall2_in_r _ _ _ Hclean _ Hin) as (p & Hp & Hline).
    rewrite Forall_forall in Hcells. specialize (Hcells p Hp).
    assert (Htags0 : Forall (entry_ok p) tags0)
      by exact (extra_tags_loop_ok p _ Hx [] _ _ (Forall_nil _) Ht).
    unfold row_formatter in Hline.
    pose proof (columns_loop_ok p (tag_column_set df tag_columns) _ Hcols
                  Hcells 0%nat tags0 [] Htags0 (Forall_nil _)) as [Hok1 Hok2].
    destruct (columns_loop _ (df_columns df) 0 tags0 []) as [tags fields].
    exact (row_function_no_dangling _ _ _ _ _ _ Hm Hok1 Hok2 Hline).
  - intros Hcells. unfold one_line_cells in Hcells.
    rewrite Forall_forall in Hcells.
    assert (Hone : forall p line, In p (df_rows df) ->
              row_formatter df measurement tag_columns tags0 p
              = ([], Return line) -> has_newline line = false).
    { intros p line Hp Hline. destruct (Hrows p Hp) as [_ Hlen].
      destruct (row_formatter_entries df measurement tag_columns extra_tags
                  w tags0 p Hsafe Ht Hlen) as [_ Hl].
      destruct (Hl (Hcells p Hp)) as [Hl1 Hl2].
      unfold row_formatter in Hline.
      destruct (columns_loop _ (df_columns df) 0 tags0 []) as [tags fields].
      eapply row_function_one_line; [| | exact Hl1 | exact Hl2 | exact Hline].
      - unfold names_compile in Hsafe.
        apply andb_true_iff in Hsafe. destruct Hsafe as [Hsafe _].
        apply andb_true_iff in Hsafe. destruct Hsafe as [Hsafe _].
        apply andb_true_iff in Hsafe. destruct Hsafe as [Hm _].
        exact (literal_safe_one_line _ Hm).
      - now destruct tags. }
    assert (Hlines : Forall (fun line => has_newline line = false)
                       (clean ++ map (cleanup E df) dirty0)%list).
    { apply Forall_app. split.
      - apply Forall_forall. intros line Hin.
        destruct (Forall2_in_r _ _ _ Hclean _ Hin) as (p & Hp & Hline).
        apply filter_In in Hp. exact (Hone p line (proj1 Hp) Hline).
      - apply Forall_map, Forall_forall. intros raw Hin.
        destruct (Forall2_in_r _ _ _ Hdirty _ Hin) as (p & Hp & Hline).
        apply filter_In in Hp. apply cleanup_one_line.
        exact (Hone p raw (proj1 Hp) Hline). }
    split; [exact Hlines |]. intros Hne.
    rewrite encode_utf8_join. apply split_join.
    + intros He. apply map_eq_nil, app_eq_nil in He. destruct He as [-> He].
      apply map_eq_nil in He. subst dirty0.
      inversion Hclean as [Hc0 |]; inversion Hdirty as [Hd0 |].
      apply Hne. unfold clean_rows, null_rows, itertuples, mask_rows in Hc0, Hd0.
      cbn [df_rows] in Hc0, Hd0.
      destruct (df_rows df) as [|r rows]; [reflexivity |].
      simpl in Hc0, Hd0. destruct (row_isnull r); discriminate.
    + apply Forall_map. eapply Forall_impl; [| exact Hlines].
      intros line. apply encode_utf8_one_line.
Qed.

Lemma parse_df_lines_witness :
  exists w tags0 clean dirty,
    extra_tags_loop [("dc", PStr "x")] [] = (w, Return tags0)
    /\ parse_df env_utc frame_nulls (PStr "cpu") None [("dc", PStr "x")]
       = (w, Return (encode_utf8 (join (str1 newline) (clean ++ dirty)%list)))
    /\ List.length clean = 2%nat
    /\ List.length dirty = 2%nat
    /\ Forall (fun line => dangling line = false) (clean ++ dirty)%list
    /\ split newline (encode_utf8 (join (str1 newline) (clean ++ dirty)%list))
       = map encode_utf8 (clean ++ dirty)%list.
Proof.
  destruct (parse_df_lines env_utc frame_nulls (PStr "cpu") None
              [("dc", PStr "x")])
    as (w & tags0 & clean & dirty & Ht & Hout & Hc & Hd & Hdirty & Hclean
        & Hsplit).
  - split; [reflexivity |]. repeat constructor; eexists; reflexivity.
  - reflexivity.
  - reflexivity.
  - repeat constructor.
  - exists w, tags0, clean, dirty.
    split; [exact Ht | split; [exact Hout |]].
    split; [symmetry; exact (Forall2_length Hc) |].
    split; [symmetry; exact (Forall2_length Hd) |].
    split.
    + apply Forall_app. split; [| exact Hdirty].
      apply Hclean. unfold plain_inputs. simpl. repeat constructor.
    + apply Hsplit; [| discriminate]. repeat constructor.
Defined.

(** C6 (as stated) fails: the values of a row without nulls are put in
    the line as they are, so a tag value that ends with a comma leaves
    that comma before the space that opens the fields. *)
Lemma parse_df_unescaped_tag_value :
  parse_df env_utc frame_comma_tag (PStr "cpu") (Some ["host"]) []
  = ([], Return (encode_utf8 (join (str1 newline) ["cpu,host=a, value=1i 1"])))
  /\ null_rows frame_comma_tag = []
  /\ dangling "cpu,host=a, value=1i 1" = true.
Proof. repeat split. Qed.

(** A newline in a value is put in the line as it is: the payload of one
    row then has two texts between its newlines. *)
Example parse_df_newline_in_value :
  parse_df env_utc frame_newline (PStr "cpu") None []
  = ([], Return ("cpu note=" ++ str1 dquote ++ "a" ++ str1 newline ++ "b"
                 ++ str1 dquote ++ " 1"))
  /\ List.length (df_rows frame_newline) = 1%nat
  /\ split newline ("cpu note=" ++ str1 dquote ++ "a" ++ str1 newline ++ "b"
                    ++ str1 dquote ++ " 1")
     = ["cpu note=" ++ str1 dquote ++ "a"; "b" ++ str1 dquote ++ " 1"].
Proof. repeat split. Qed.

Example encoded_nulls_lines :
  encoded_nulls
  = join (str1 newline)
      [ "cpu,dc=x,host=a load=0.5,count=1i,note=" ++ str1 dquote ++ "x" ++ str1 dquote ++ " 1";
        "cpu,dc=x,host=a load=1.5,count=3i,note=" ++ str1 dquote ++ "z" ++ str1 dquote ++ " 3";
        "cpu,dc=x count=2i,note=" ++ str1 dquote ++ "y" ++ str1 dquote ++ " 2";
        "cpu,dc=x,host=a load=2.5,count=4i 4" ].
Proof. reflexivity. Qed.

(* ================================================================== *)
(** ** Further properties of the escaper and the point encoder        *)
(* ================================================================== *)

(** X1.  Whatever the value, and under each of the four tables, the text
    [escape] returns has no newline in it: on the text path and on the
    conversion path alike. *)
Theorem escape_output_has_no_newline (v : pyval) (t : table)
  (w : list warning) (s : string) :
  In t escape_tables ->
  escape v t = (w, Return s) -> has_newline s = false.
Proof. apply escape_returns_no_newline. Qed.

Lemma escape_output_has_no_newline_witness :
  has_newline (translate ("a b" ++ str1 newline ++ "c") measurement_escape)
  = false.
Proof.
  apply (escape_output_has_no_newline
           (PStr ("a b" ++ str1 newline ++ "c")) measurement_escape []);
    [simpl; auto | reflexivity].
Defined.

(** A table whose entries put a backslash before the character, the
    backslash included, and delete nothing but the newline. *)
Lemma unescape_translate (t : table) :
  table_get t backslash = Some (esc backslash) ->
  (forall c r, table_get t c = Some r ->
               r = esc c \/ (c = newline /\ r = "")) ->
  forall s, has_newline s = false -> unescape false (translate s t) = s.
Proof.
  intros Hb Hent. unfold has_newline.
  induction s as [|c s IH]; intros Hs; [reflexivity |].
  cbn [contains_char] in Hs. apply orb_false_iff in Hs. destruct Hs as [Hc Hs].
  cbn [translate]. destruct (table_get t c) as [r|] eqn:Hr.
  - destruct (Hent c r Hr) as [-> | [-> _]].
    + cbn. rewrite ?Ascii.eqb_refl. now rewrite (IH Hs).
    + now rewrite Ascii.eqb_refl in Hc.
  - cbn [unescape].
    destruct (Ascii.eqb c backslash) eqn:Heq.
    + apply Ascii.eqb_eq in Heq. subst c. congruence.
    + now rewrite (IH Hs).
Qed.

Lemma unescape_escaped (s : string) (t : table) :
  In t escape_tables -> has_newline s = false ->
  unescape false (translate s t) = s.
Proof.
  intros Hin. apply unescape_translate.
  - destruct Hin as [<- | [<- | [<- | [<- | []]]]]; reflexivity.
  - apply table_entries.
    destruct Hin as [<- | [<- | [<- | [<- | []]]]];
      repeat first [ apply Forall_nil
                   | apply Forall_cons; [simpl; first [now left | now right] |] ].
Qed.

(** X2.  Under each of the four tables [escape] keeps two texts without
    newline apart: when the texts differ, so do the escaped texts.  Nothing
    but the newline is lost. *)
Theorem escaping_is_injective (s s' : string) (t : table) :
  In t escape_tables ->
  has_newline s = false -> has_newline s' = false ->
  s <> s' -> escape (PStr s) t <> escape (PStr s') t.
Proof.
  intros Hin Hs Hs' Hne Heq. apply Hne.
  rewrite !escape_str in Heq. injection Heq as Heq.
  rewrite <- (unescape_escaped s t Hin Hs), <- (unescape_escaped s' t Hin Hs').
  now rewrite Heq.
Qed.

Lemma escaping_is_injective_witness :
  escape (PStr "a,b") key_escape
  <> escape (PStr ("a" ++ str1 backslash ++ ",b")) key_escape.
Proof.
  apply (escaping_is_injective "a,b" ("a" ++ str1 backslash ++ ",b") key_escape);
    simpl; auto; discriminate.
Defined.

(** X3.  [make_line] returns no line for a point that has no measurement
    when the caller gives none either, nor for a point without a [fields]
    key: the missing fields are not forgiven the way missing tags are. *)
Theorem make_line_needs_measurement_and_fields (E : env) (p : point)
  (measurement : option pyval) (extra_tags : dict pyval) :
  (p_measurement p = None /\ measurement = None) \/ p_fields p = None ->
  forall w line, make_line E p measurement extra_tags <> (w, Return line).
Proof.
  intros Hmiss w line H. unfold make_line in H.
  destruct (_parse_tags p extra_tags) as [w1 [tags| |]]; simpl in H;
    try discriminate.
  destruct Hmiss as [[Hm ->] | Hf].
  - unfold _parse_measurement in H. rewrite Hm in H.
    destruct (truthy tags); simpl in H; discriminate.
  - unfold _parse_fields in H. rewrite Hf in H.
    destruct (truthy tags);
      destruct (_parse_measurement p measurement) as [w2 [m| |]];
      simpl in H; discriminate.
Qed.

Lemma make_line_needs_measurement_and_fields_witness :
  ~ exists w line, make_line env_utc point_bare None [] = (w, Return line).
Proof.
  intros (w & line & H).
  apply (make_line_needs_measurement_and_fields env_utc point_bare None []
           (or_introl (conj eq_refl eq_refl)) w line H).
Defined.

Lemma truthy_app_l (a b : string) : truthy a = true -> truthy (a ++ b) = true.
Proof. now destruct a. Qed.

Lemma field_tokens_nonempty (kv : string * pyval) :
  Forall (fun tok => truthy tok = true) (field_tokens kv).
Proof.
  destruct kv as [k v]. unfold field_tokens; simpl.
  destruct v; repeat constructor; now apply truthy_app_r.
Qed.

Lemma join_nonempty (sep x : string) (l : list string) :
  truthy x = true -> truthy (join sep (x :: l)) = true.
Proof.
  intros Hx. unfold join. cbn [String.concat].
  destruct l; [exact Hx | now apply truthy_app_l].
Qed.

Lemma no_field_tokens (fields : dict pyval) :
  flat_map field_tokens fields = [] <-> Forall (fun kv => snd kv = PNone) fields.
Proof.
  induction fields as [|[k v] fields IH]; simpl.
  - split; constructor.
  - split.
    + intros H. apply app_eq_nil in H. destruct H as [Hv Hrest].
      constructor; [| now apply IH].
      destruct v; try discriminate Hv. reflexivity.
    + intros H. inversion H as [|? ? Hv Hrest]; subst. simpl in Hv. subst v.
      simpl. now apply IH.
Qed.

(** X4.  The field segment is empty exactly when every field of the
    point is null; [_parse_fields] raises nothing for such a point, and
    the line gets an empty field segment. *)
Theorem parse_fields_empty_iff_all_null (p : point) (fields : dict pyval) :
  p_fields p = Some fields ->
  (_parse_fields p = ([], Return "")
   <-> Forall (fun kv => snd kv = PNone) fields).
Proof.
  intros Hf. unfold _parse_fields. rewrite Hf, fields_loop_tokens.
  cbn [bind ret app]. rewrite <- no_field_tokens.
  pose proof (fun kv => field_tokens_nonempty kv) as Hne.
  assert (Hall : Forall (fun tok => truthy tok = true)
                   (flat_map field_tokens fields)).
  { clear Hf. induction fields as [|kv fields IH]; simpl; [constructor |].
    apply Forall_app. split; [apply Hne | exact IH]. }
  destruct (flat_map field_tokens fields) as [|tok toks].
  - split; reflexivity.
  - inversion Hall as [|? ? Htok _]; subst.
    pose proof (join_nonempty "," tok toks Htok) as Hj.
    split; [| discriminate].
    intros H. assert (Heq : join "," (tok :: toks) = "") by congruence.
    rewrite Heq in Hj. discriminate.
Qed.

Lemma parse_fields_empty_iff_all_null_witness :
  _parse_fields point_all_null = ([], Return "")
  /\ make_line env_utc point_all_null None [] = ([], Return "cpu  ").
Proof.
  split; [| reflexivity].
  apply (parse_fields_empty_iff_all_null point_all_null
           [("value", PNone); ("count", PNone)] eq_refl).
  repeat constructor.
Defined.

(** *** A line is one line *)

Lemma hex_digit_no_newline (n : nat) : Ascii.eqb newline (hex_digit n) = false.
Proof.
  unfold hex_digit.
  do 16 (destruct n as [|n]; [reflexivity |]).
  simpl. now destruct n.
Qed.

Lemma bytes_repr_body_no_newline (quote : ascii) (raw : string) :
  Ascii.eqb newline quote = false ->
  has_newline (bytes_repr_body quote raw) = false.
Proof.
  intros Hq. induction raw as [|c raw IH]; [reflexivity |].
  cbn [bytes_repr_body]. rewrite has_newline_app, IH, orb_false_r.
  destruct (Ascii.eqb c quote || Ascii.eqb c backslash) eqn:H1.
  - unfold has_newline, esc, str1. cbn [contains_char].
    apply orb_true_iff in H1. destruct H1 as [H1 | H1];
      apply Ascii.eqb_eq in H1; subst c; now rewrite ?Hq.
  - destruct (Ascii.eqb c "009"); [reflexivity |].
    destruct (Ascii.eqb c newline) eqn:H2; [reflexivity |].
    destruct (Ascii.eqb c "013"); [reflexivity |].
    destruct ((nat_of_ascii c <? 32)%nat || (127 <=? nat_of_ascii c)%nat).
    + unfold has_newline, str1. cbn [append contains_char].
      now rewrite !hex_digit_no_newline.
    + unfold has_newline, str1. cbn [contains_char].
      now rewrite Ascii.eqb_sym, H2.
Qed.

Lemma bytes_repr_no_newline (raw : string) : has_newline (bytes_repr raw) = false.
Proof.
  unfold bytes_repr.
  destruct (contains_char "'" raw && negb (contains_char dquote raw));
    cbn [append str1]; unfold has_newline; cbn [contains_char];
    rewrite contains_char_app; fold (has_newline (bytes_repr_body dquote raw));
    fold (has_newline (bytes_repr_body "'" raw));
    now rewrite bytes_repr_body_no_newline.
Qed.

Lemma tags_loop_no_newline (items : list (string * pyval)) :
  forall output out r,
    Forall (fun s => has_newline s = false) output ->
    tags_loop items output = (out, r) ->
    Forall (fun s => has_newline s = false) out.
Proof.
  assert (Hkey : In key_escape escape_tables) by (simpl; auto).
  assert (Htag : In tag_escape escape_tables) by (simpl; auto).
  induction items as [|[k v] items IH]; intros output out r Hout H.
  - now injection H as <- _.
  - cbn [tags_loop] in H. rewrite escape_str in H.
    destruct (escape v tag_escape) as [w2 [v'| |]] eqn:He;
      try (now injection H as <- _).
    destruct (tags_loop items _) as [out' [w3 r']] eqn:Hl.
    injection H as <- _. eapply IH; [| exact Hl].
    destruct (negb (truthy v')); [exact Hout |].
    apply Forall_list_append; [exact Hout |].
    rewrite !has_newline_app, (translate_no_newline k _ Hkey),
      (escape_returns_no_newline _ _ _ _ Htag He). reflexivity.
Qed.

Lemma parse_tags_no_newline (p : point) (extra_tags : dict pyval)
  (w : list warning) (tags : string) :
  _parse_tags p extra_tags = (w, Return tags) -> has_newline tags = false.
Proof.
  unfold _parse_tags. intros H.
  destruct (p_tags p) as [t|].
  - destruct (tags_loop (dict_merge t extra_tags) []) as [out [w1 r]] eqn:Hl.
    pose proof (tags_loop_no_newline _ _ _ _ (Forall_nil _) Hl) as Hout.
    assert (Hj : has_newline (match out with [] => "" | _ => join "," out end)
                 = false)
      by (destruct out; [reflexivity | now apply has_newline_join]).
    destruct r as [u | [] |]; try discriminate; now injection H as _ <-.
  - simpl in H. now injection H as _ <-.
Qed.

Lemma parse_measurement_no_newline (p : point) (measurement : option pyval)
  (w : list warning) (m : string) :
  _parse_measurement p measurement = (w, Return m) -> has_newline m = false.
Proof.
  assert (Hin : In measurement_escape escape_tables) by (simpl; auto).
  unfold _parse_measurement. intros H.
  destruct (p_measurement p) as [v|].
  - destruct (escape v measurement_escape) as [w1 [s| e |]] eqn:He;
      simpl in H.
    + injection H as _ <-. exact (escape_returns_no_newline _ _ _ _ Hin He).
    + destruct v; simpl in He; try discriminate. injection He as _ <-.
      simpl in H. discriminate.
    + discriminate.
  - simpl in H. destruct measurement as [v|]; [| discriminate].
    destruct (escape v measurement_escape) as [w1 r] eqn:He.
    injection H as _ ->. exact (escape_returns_no_newline _ _ _ _ Hin He).
Qed.

Lemma field_tokens_no_newline (kv : string * pyval) :
  match snd kv with PFloat text => has_newline text = false | _ => True end ->
  Forall (fun s => has_newline s = false) (field_tokens kv).
Proof.
  assert (Hkey : In key_escape escape_tables) by (simpl; auto).
  assert (Hstr : In str_escape escape_tables) by (simpl; auto).
  destruct kv as [k v]. unfold field_tokens. cbn [fst snd]. intros Hv.
  destruct v as [|b|z|text|s|raw]; repeat constructor;
    rewrite !has_newline_app, (translate_no_newline k _ Hkey); cbn [orb].
  - now destruct b.
  - now rewrite str_of_int_no_newline.
  - exact Hv.
  - now rewrite (translate_no_newline s _ Hstr).
  - apply bytes_repr_no_newline.
Qed.

Lemma all_field_tokens_no_newline (fields : dict pyval) :
  Forall (fun kv => match snd kv with
                    | PFloat text => has_newline text = false
                    | _ => True
                    end) fields ->
  Forall (fun s => has_newline s = false) (flat_map field_tokens fields).
Proof.
  induction 1 as [|kv fields Hkv _ IH]; simpl; [constructor |].
  apply Forall_app. split; [now apply field_tokens_no_newline | exact IH].
Qed.

(** X5.  The line [make_line] returns has no newline in it, whatever the
    measurement, the tags, the keys and the text, integer, boolean, null
    and bytes fields are; of a float field only its own text must have
    none. *)
Theorem make_line_is_one_line (E : env) (p : point)
  (measurement : option pyval) (extra_tags : dict pyval)
  (w : list warning) (line : string) :
  (forall fields, p_fields p = Some fields ->
     Forall (fun kv => match snd kv with
                       | PFloat text => has_newline text = false
                       | _ => True
                       end) fields) ->
  make_line E p measurement extra_tags = (w, Return line) ->
  has_newline line = false.
Proof.
  intros Hfloat H. unfold make_line in H.
  apply bind_returns in H. destruct H as (w1 & tags & w2 & Ht & H).
  pose proof (parse_tags_no_newline _ _ _ _ Ht) as Htags.
  assert (Hrest : exists m f t wm wf wt,
            _parse_measurement p measurement = (wm, Return m)
            /\ _parse_fields p = (wf, Return f)
            /\ _parse_timestamp E p = (wt, Return t)
            /\ (line = m ++ "," ++ tags ++ " " ++ f ++ " " ++ py_str t
                \/ line = m ++ " " ++ f ++ " " ++ py_str t)).
  { destruct (truthy tags);
      apply bind_returns in H; destruct H as (wm & m & w3 & Hm & H);
      apply bind_returns in H; destruct H as (wf & f & w4 & Hf & H);
      apply bind_returns in H; destruct H as (wt & t & w5 & Hts & H);
      injection H as _ <-; exists m, f, t, wm, wf, wt; auto. }
  destruct Hrest as (m & f & t & wm & wf & wt & Hm & Hf & Hts & Hline).
  pose proof (parse_measurement_no_newline _ _ _ _ Hm) as Hmn.
  assert (Hfn : has_newline f = false).
  { unfold _parse_fields in Hf. destruct (p_fields p) as [fields|] eqn:Hpf;
      [| discriminate].
    rewrite fields_loop_tokens in Hf. cbn [bind ret app] in Hf.
    injection Hf as _ <-. apply has_newline_join; [reflexivity |].
    exact (all_field_tokens_no_newline fields (Hfloat fields eq_refl)). }
  assert (Htn : has_newline (py_str t) = false).
  { unfold _parse_timestamp in Hts. destruct (p_time p) as [dt|].
    - destruct (pd_available E).
      + apply bind_returns in Hts. destruct Hts as (? & v & ? & _ & Hts).
        injection Hts as _ <-. apply str_of_int_no_newline.
      + apply bind_returns in Hts. destruct Hts as (? & d & ? & _ & Hts).
        destruct (dt_tzinfo d); injection Hts as _ <-;
          apply str_of_int_no_newline.
    - now injection Hts as _ <-. }
  destruct Hline as [-> | ->]; rewrite !has_newline_app, Hmn, Hfn, Htn, ?Htags;
    reflexivity.
Qed.

Lemma make_line_is_one_line_witness :
  has_newline "cpu count=3i " = false.
Proof.
  apply (make_line_is_one_line env_utc point_count None [] [] "cpu count=3i ");
    [| reflexivity].
  intros fields [= <-]. repeat constructor.
Defined.

(** *** The merge of the point's tags and the extra tags *)

Section Merge.

Context {V : Type}.

#[local] Abbreviation put :=
  (fun (d : dict V) (kv : string * V) => dict_set (fst kv) (snd kv) d).

Lemma dict_get_set (k k' : string) (v : V) (d : dict V) :
  dict_get k (dict_set k' v d)
  = if String.eqb k' k then Some v else dict_get k d.
Proof.
  induction d as [|[k0 v0] d IH]; simpl.
  - reflexivity.
  - destruct (String.eqb k0 k') eqn:H0; simpl.
    + apply String.eqb_eq in H0. subst k0. now destruct (String.eqb k' k).
    + destruct (String.eqb k0 k) eqn:H1; [| exact IH].
      apply String.eqb_eq in H1. subst k0. now rewrite String.eqb_sym, H0.
Qed.

Lemma dict_get_absent (k : string) (d : dict V) :
  ~ In k (map fst d) -> dict_get k d = None.
Proof.
  induction d as [|[k0 v0] d IH]; simpl; intros Hn; [reflexivity |].
  destruct (String.eqb k0 k) eqn:H0.
  - apply String.eqb_eq in H0. tauto.
  - apply IH. tauto.
Qed.

Lemma dict_get_fold (k : string) (l : dict V) :
  NoDup (map fst l) ->
  forall acc,
    dict_get k (fold_left put l acc)
    = match dict_get k l with
      | Some v => Some v
      | None => dict_get k acc
      end.
Proof.
  induction l as [|[k1 v1] l IH]; simpl; intros Hnd acc; [reflexivity |].
  inversion Hnd as [|? ? Hnot Hnd']; subst.
  rewrite (IH Hnd'), dict_get_set.
  destruct (String.eqb k1 k) eqn:H1; [| reflexivity].
  apply String.eqb_eq in H1. subst k1. now rewrite (dict_get_absent k l Hnot).
Qed.

Lemma dict_set_keys (k : string) (v : V) (d : dict V) :
  map fst (dict_set k v d)
  = if existsb (String.eqb k) (map fst d) then map fst d
    else (map fst d ++ [k])%list.
Proof.
  induction d as [|[k0 v0] d IH]; simpl; [reflexivity |].
  rewrite (String.eqb_sym k k0).
  destruct (String.eqb k0 k); simpl; [reflexivity |].
  rewrite IH. now destruct (existsb _ _).
Qed.

Lemma filter_new_keys (k : string) (seen keys : list string) :
  ~ In k keys ->
  filter (fun x => negb (existsb (String.eqb x) (seen ++ [k]))) keys
  = filter (fun x => negb (existsb (String.eqb x) seen)) keys.
Proof.
  intros Hn. apply filter_ext_in. intros x Hx.
  rewrite existsb_app. simpl. rewrite orb_false_r.
  destruct (String.eqb x k) eqn:Hxk; [| now rewrite orb_false_r].
  apply String.eqb_eq in Hxk. subst x. contradiction.
Qed.

Lemma fold_put_keys (l : dict V) :
  NoDup (map fst l) ->
  forall acc,
    map fst (fold_left put l acc)
    = (map fst acc
       ++ filter (fun x => negb (existsb (String.eqb x) (map fst acc)))
            (map fst l))%list.
Proof.
  induction l as [|[k1 v1] l IH]; simpl; intros Hnd acc.
  - now rewrite app_nil_r.
  - inversion Hnd as [|? ? Hnot Hnd']; subst.
    rewrite (IH Hnd'), dict_set_keys.
    destruct (existsb (String.eqb k1) (map fst acc)) eqn:Hex; simpl.
    + reflexivity.
    + rewrite <- app_assoc. simpl. now rewrite filter_new_keys.
Qed.

(** X6.  In [{**tags, **extra_tags}] an extra tag takes the place of the
    point's tag of the same key, where that tag stood, and the other
    extra tags follow the point's tags in their own order. *)
Theorem merged_tags (a b : dict V) :
  NoDup (map fst a) -> NoDup (map fst b) ->
  (forall k, dict_get k (dict_merge a b)
             = match dict_get k b with
               | Some v => Some v
               | None => dict_get k a
               end)
  /\ map fst (dict_merge a b)
     = (map fst a
        ++ filter (fun x => negb (existsb (String.eqb x) (map fst a)))
             (map fst b))%list.
Proof.
  intros Ha Hb. unfold dict_merge. rewrite fold_left_app. split.
  - intros k. rewrite (dict_get_fold k b Hb), (dict_get_fold k a Ha).
    simpl. now destruct (dict_get k a).
  - rewrite (fold_put_keys b Hb), (fold_put_keys a Ha). simpl.
    assert (Hid : forall l : list string, filter (fun _ => true) l = l)
      by (induction l as [|x l IH]; simpl; congruence).
    now rewrite Hid.
Qed.

End Merge.

Lemma merged_tags_witness :
  (forall k, dict_get k (dict_merge [("host", PStr "a"); ("dc", PStr "x")]
                           [("rack", PInt 1); ("host", PStr "b")])
             = match dict_get k [("rack", PInt 1); ("host", PStr "b")] with
               | Some v => Some v
               | None => dict_get k [("host", PStr "a"); ("dc", PStr "x")]
               end)
  /\ map fst (dict_merge [("host", PStr "a"); ("dc", PStr "x")]
                [("rack", PInt 1); ("host", PStr "b")])
     = ["host"; "dc"; "rack"].
Proof.
  apply (merged_tags [("host", PStr "a"); ("dc", PStr "x")]
           [("rack", PInt 1); ("host", PStr "b")]);
    repeat constructor; simpl; intuition discriminate.
Defined.

(** *** Timestamps without pandas *)

Lemma int_of_us_seconds (i us : Z) :
  0 <= us < 1000000 ->
  int_of_us (i * 1000000 + us)
  = if ((0 <=? i) || (us =? 0))%Z then i else i + 1.
Proof.
  intros Hus. unfold int_of_us.
  destruct (0 <=? i)%Z eqn:Hi; simpl.
  - apply Z.leb_le in Hi. rewrite Z.quot_div_nonneg by lia.
    symmetry. apply (Z.div_unique _ _ _ us); lia.
  - apply Z.leb_gt in Hi. destruct (us =? 0)%Z eqn:Hz.
    + apply Z.eqb_eq in Hz. subst us. rewrite Z.add_0_r.
      now rewrite Z.quot_mul by lia.
    + apply Z.eqb_neq in Hz.
      replace (i * 1000000 + us) with (- ((- i - 1) * 1000000 + (1000000 - us)))
        by lia.
      rewrite Z.quot_opp_l by lia. rewrite Z.quot_div_nonneg by lia.
      rewrite <- (Z.div_unique _ 1000000 (- i - 1) (1000000 - us)); lia.
Qed.

Lemma parse_timestamp_without_pandas (E : env) (p : point) (d : datetime) :
  pd_available E = false ->
  p_time p = Some (TDatetime d) ->
  on_standard_time E d ->
  0 <= dt_microsecond d < 1000000 ->
  _parse_timestamp E p
  = ([], Return (PInt ((if ((0 <=? utc_seconds d)
                            || (dt_microsecond d =? 0))%Z
                        then utc_seconds d else utc_seconds d + 1)
                       * 1000000000 + dt_microsecond d * 1000))).
Proof.
  intros Hpd Ht Hstd Hus.
  unfold _parse_timestamp, timestamp_us, utc_seconds, on_standard_time in *.
  rewrite Ht, Hpd. cbn [bind ret app].
  destruct (dt_tzinfo d) as [off|] eqn:Hz.
  - cbn [bind ret app dt_tzinfo]. rewrite ?Hz.
    rewrite (int_of_us_seconds _ _ Hus). reflexivity.
  - cbn [bind ret app dt_tzinfo]. rewrite ?Hz, (Hstd eq_refl).
    replace ((dt_wall d - - time_timezone E) * 1000000 + dt_microsecond d
             - time_timezone E * 1000000)
      with ((dt_wall d - 0) * 1000000 + dt_microsecond d) by lia.
    rewrite (int_of_us_seconds _ _ Hus). reflexivity.
Qed.

(** X7.  Without pandas, a timestamp at or after the epoch, or on a whole
    second, is encoded as the nanoseconds of its UTC reading, as pandas
    encodes it: when the value carries a zone, and for a naive value when
    the local clock is on standard time. *)
Theorem timestamp_without_pandas_is_utc (E : env) (p : point) (d : datetime) :
  pd_available E = false ->
  p_time p = Some (TDatetime d) ->
  on_standard_time E d ->
  float_exact E d ->
  0 <= utc_seconds d \/ dt_microsecond d = 0 ->
  _parse_timestamp E p = ([], Return (PInt (utc_nanoseconds d))).
Proof.
  intros Hpd Ht Hstd (_ & _ & Hus) Hpos.
  rewrite (parse_timestamp_without_pandas E p d Hpd Ht Hstd Hus).
  assert (Hc : ((0 <=? utc_seconds d) || (dt_microsecond d =? 0))%Z = true).
  { destruct Hpos as [H | H].
    - apply Z.leb_le in H. now rewrite H.
    - apply Z.eqb_eq in H. rewrite H. apply orb_true_r. }
  rewrite Hc. reflexivity.
Qed.

Lemma timestamp_without_pandas_is_utc_witness :
  _parse_timestamp env_cet (point_at midwinter)
  = ([], Return (PInt 1609459200250000000)).
Proof.
  apply (timestamp_without_pandas_is_utc env_cet (point_at midwinter) midwinter).
  - reflexivity.
  - reflexivity.
  - intros _. reflexivity.
  - unfold float_exact, utc_seconds. simpl. lia.
  - left. unfold utc_seconds. simpl. lia.
Defined.

(** X8.  Without pandas, a timestamp before the epoch that is not on a
    whole second is encoded one second late: [int] cuts the negative
    number of seconds towards zero, and the microseconds are added on
    top.  This holds when the value carries a zone, and for a naive value
    when the local clock is on standard time, within the range where the
    float of [timestamp()] is exact to the microsecond. *)
Theorem timestamp_before_epoch_one_second_late (E : env) (p : point)
  (d : datetime) :
  pd_available E = false ->
  p_time p = Some (TDatetime d) ->
  on_standard_time E d ->
  float_exact E d ->
  utc_seconds d < 0 -> dt_microsecond d <> 0 ->
  _parse_timestamp E p
  = ([], Return (PInt (utc_nanoseconds d + 1000000000))).
Proof.
  intros Hpd Ht Hstd (_ & _ & Hus) Hneg Hfrac.
  rewrite (parse_timestamp_without_pandas E p d Hpd Ht Hstd Hus).
  assert (Hc : ((0 <=? utc_seconds d) || (dt_microsecond d =? 0))%Z = false).
  { apply orb_false_iff. split; [apply Z.leb_gt | apply Z.eqb_neq]; assumption. }
  rewrite Hc. unfold utc_nanoseconds, utc_seconds. do 3 f_equal. lia.
Qed.

Lemma timestamp_before_epoch_one_second_late_witness :
  _parse_timestamp env_cet (point_at before_epoch)
  = ([], Return (PInt 500000000))
  /\ utc_nanoseconds before_epoch = -500000000.
Proof.
  split; [| reflexivity].
  apply (timestamp_before_epoch_one_second_late env_cet (point_at before_epoch)
           before_epoch).
  - reflexivity.
  - reflexivity.
  - intros H. discriminate H.
  - unfold float_exact, utc_seconds. simpl. lia.
  - reflexivity.
  - discriminate.
Defined.

(* ================================================================== *)
(** ** Further properties of [parse_data]                             *)
(* ================================================================== *)

Lemma mapM_app {A B} (f : A -> py B) (xs ys : list A) :
  mapM f (xs ++ ys)
  = (a <- mapM f xs ;; b <- mapM f ys ;; ret (a ++ b)%list).
Proof.
  induction xs as [|x xs IH]; simpl.
  - destruct (mapM f ys) as [w [b| |]]; simpl; now rewrite ?app_nil_r.
  - rewrite IH. destruct (f x) as [w1 [c| |]]; simpl; try reflexivity.
    destruct (mapM f xs) as [w2 [a| |]]; simpl; try reflexivity.
    destruct (mapM f ys) as [w3 [b| |]]; simpl;
      now rewrite ?app_nil_r, <- ?app_assoc.
Qed.

Lemma join_app (sep : string) (xs ys : list string) :
  xs <> [] -> ys <> [] ->
  join sep (xs ++ ys) = join sep xs ++ sep ++ join sep ys.
Proof.
  intros Hx Hy. unfold join. induction xs as [|x xs IH]; [congruence |].
  destruct xs as [|x' xs].
  - destruct ys as [|y ys]; [congruence | reflexivity].
  - change (String.concat sep ((x :: x' :: xs) ++ ys))
      with (x ++ sep ++ String.concat sep ((x' :: xs) ++ ys)).
    rewrite IH by discriminate.
    change (String.concat sep (x :: x' :: xs))
      with (x ++ sep ++ String.concat sep (x' :: xs)).
    now rewrite !append_assoc.
Qed.

(** X9.  An iterable of one element is encoded as the element is, and an
    iterable of two iterables that are not empty as the one iterable of
    all their elements: warnings, error and bytes are the same. *)
Theorem parse_data_nesting (E : env) (measurement : option pyval)
  (tag_columns : option (list string)) (extra_tags : dict pyval)
  (d : data) (xs ys : list data) :
  xs <> [] -> ys <> [] ->
  parse_data E (DIter [d]) measurement tag_columns extra_tags
  = parse_data E d measurement tag_columns extra_tags
  /\ parse_data E (DIter [DIter xs; DIter ys]) measurement tag_columns extra_tags
     = parse_data E (DIter (xs ++ ys)) measurement tag_columns extra_tags.
Proof.
  intros Hx Hy. split.
  - rewrite parse_data_iter. cbn [mapM].
    destruct (parse_data E d measurement tag_columns extra_tags)
      as [w [b| |]]; simpl; now rewrite ?app_nil_r.
  - rewrite (parse_data_iter E [DIter xs; DIter ys]). cbn [mapM].
    rewrite !parse_data_iter, mapM_app.
    set (g := fun i => parse_data E i measurement tag_columns extra_tags).
    destruct (mapM g xs) as [w1 [a| |]] eqn:Ha; simpl; try reflexivity.
    destruct (mapM g ys) as [w2 [b| |]] eqn:Hb; simpl;
      rewrite ?app_nil_r; try reflexivity.
    rewrite join_app.
    + reflexivity.
    + apply mapM_length in Ha. destruct a, xs; simpl in *; congruence.
    + apply mapM_length in Hb. destruct b, ys; simpl in *; congruence.
Qed.

Lemma parse_data_nesting_witness :
  parse_data env_utc (DIter [DDict point_count]) None None []
  = ([], Return "cpu count=3i ")
  /\ parse_data env_utc
       (DIter [DIter [DStr "a b=1i"]; DIter [DDict point_count; DBytes "x y=2i"]])
       None None []
     = parse_data env_utc
         (DIter [DStr "a b=1i"; DDict point_count; DBytes "x y=2i"])
         None None [].
Proof.
  apply (parse_data_nesting env_utc None None [] (DDict point_count)
           [DStr "a b=1i"] [DDict point_count; DBytes "x y=2i"]);
    discriminate.
Defined.

(* ================================================================== *)
(** ** Further properties of [make_df]                                *)
(* ================================================================== *)

Lemma malformed_not_parsed (E : env) (s : series) (w : list warning)
  (kd : key * DataFrame) :
  malformed s -> parse_series E s <> (w, Return kd).
Proof.
  intros Hbad H. unfold parse_series in H.
  apply bind_returns in H. destruct H as (w1 & name & w2 & Hn & H).
  apply bind_returns in H. destruct H as (w3 & df & w4 & Hm & _).
  unfold maker in Hm.
  apply bind_returns in Hm. destruct Hm as (w5 & values & w6 & Hv & Hm).
  apply bind_returns in Hm. destruct Hm as (w7 & columns & w8 & Hc & _).
  destruct Hbad as [Hb | [Hb | Hb]].
  - rewrite Hb in Hn. discriminate.
  - rewrite Hb in Hc. discriminate.
  - rewrite Hb in Hv. discriminate.
Qed.

(** X10.  [make_df] returns nothing for a response without a [results]
    key, nor for one that holds a series without [name], [columns] or
    [values]: no table is returned for the series that could be read. *)
Theorem make_df_rejects_malformed (E : env) (resp : response)
  (tag_cache : option (dict (dict (list cell)))) :
  r_results resp = None
  \/ (exists s, In s (series_of resp) /\ malformed s) ->
  forall w result, make_df E resp tag_cache <> (w, Return result).
Proof.
  intros Hbad w result H.
  destruct (make_df_parsed _ _ _ _ _ H) as (wl & df_list & Hp).
  destruct Hbad as [Hr | (s & Hin & Hs)].
  - unfold parsing in Hp. rewrite Hr in Hp. discriminate.
  - apply parsing_series, mapM_returns in Hp.
    destruct (Forall2_in_l _ _ _ Hp s Hin) as (kd & _ & w' & Hkd).
    exact (malformed_not_parsed E s w' kd Hs Hkd).
Qed.

Lemma make_df_rejects_malformed_witness :
  ~ exists w result,
      make_df env_utc response_malformed None = (w, Return result).
Proof.
  intros (w & result & H).
  apply (make_df_rejects_malformed env_utc response_malformed None) in H;
    [exact H |].
  right. eexists. split; [right; left; reflexivity |].
  right. right. reflexivity.
Defined.

Lemma cast_cell_total (d : dtype) (c : cell) :
  within_float c -> exists c', cast_cell d c = ([], Return c').
Proof.
  unfold within_float, cast_cell. intros Hc.
  destruct d, c; try (eexists; reflexivity).
  - assert (Hi : in_int64 z = true)
      by (unfold in_int64, iNaT, int64_max; lia).
    rewrite Hi. eexists; reflexivity.
  - assert (Hf : float_holds z = true) by (unfold float_holds; lia).
    rewrite Hf. eexists; reflexivity.
Qed.

Lemma cast_row_total (dtypes : list dtype) (row : list cell) :
  Forall within_float row -> exists row', cast_row dtypes row = ([], Return row').
Proof.
  intros Hrow. unfold cast_row.
  destruct (mapM_total (fun dc => cast_cell (fst dc) (snd dc))
              (fun _ _ => True) (combine dtypes row)) as (row' & Hm & _);
    [| now exists row'].
  intros [d c] Hin. cbn [fst snd].
  destruct (cast_cell_total d c) as (c' & Hc).
  - rewrite Forall_forall in Hrow. apply Hrow. eapply in_combine_r, Hin.
  - now exists c'.
Qed.

(** [pd.DataFrame] returns when the rows fit the names and the integers
    are such as a float column holds. *)
Lemma pd_DataFrame_total (values : list (list cell)) (columns : list string) :
  fits values columns -> Forall (Forall within_float) values ->
  exists df, pd_DataFrame values columns = ([], Return df).
Proof.
  intros Hfit Hsmall. unfold pd_DataFrame.
  destruct values as [|v0 values'] eqn:Hv; [eexists; reflexivity |].
  rewrite <- Hv in *. destruct Hfit as [He | Hmax]; [congruence |].
  rewrite Hmax, Nat.eqb_refl.
  set (dtypes := map _ (seq 0 (List.length columns))).
  destruct (mapM_total (cast_row dtypes) (fun _ _ => True)
              (map (pad_row (List.length columns)) values))
    as (rows & Hm & _).
  - intros r Hin. apply in_map_iff in Hin. destruct Hin as (v & <- & Hin).
    destruct (cast_row_total dtypes (pad_row (List.length columns) v))
      as (row' & Hr); [| now exists row'].
    unfold pad_row. apply Forall_app. split.
    + rewrite Forall_forall in Hsmall. now apply Hsmall.
    + apply Forall_forall. intros c Hc. apply repeat_spec in Hc. now subst c.
  - rewrite Hm. eexists; reflexivity.
Qed.

(** X11.  A series without a [time] column, whose rows fit its columns
    (there are no rows, or the longest row has one cell per column) and
    whose integers a float holds as they are, becomes a table with the
    declared columns and nothing else, a positional index, and the rows of
    the series in their order, a short row filled up with nulls and each
    cell as it is or as pandas converts it (an integer to the float of
    the same value, a null to NaN): the tags of the series are not made
    columns of it. *)
Theorem maker_without_time (E : env) (s : series)
  (values : list (list cell)) (columns : list string) :
  s_values s = Some values -> s_columns s = Some columns ->
  ~ In "time" columns ->
  fits values columns ->
  Forall (Forall within_float) values ->
  exists df,
    maker E s = ([], Return df)
    /\ map fst (df_columns df) = columns
    /\ map fst (df_rows df) = positional (List.length values)
    /\ (values <> [] -> df_index_type df = RangeIndex)
    /\ Forall2 (fun v r =>
                  Forall2 converted (pad_row (List.length columns) v) r)
         values (map snd (df_rows df)).
Proof.
  intros Hv Hc Htime Hfit Hsmall.
  destruct (pd_DataFrame_total values columns Hfit Hsmall) as (df & Hd).
  exists df. unfold maker. rewrite Hv, Hc. cbn [bind ret app]. rewrite Hd.
  cbn [bind ret app]. rewrite (index_of_absent _ _ Htime).
  destruct (pd_DataFrame_returns _ _ _ _ Hd) as (_ & _ & Hn & Hl & Hr & Ht).
  auto.
Qed.

Lemma maker_without_time_witness :
  exists df,
    maker env_utc series_ragged = ([], Return df)
    /\ map fst (df_columns df) = ["name"; "shards"]
    /\ map fst (df_rows df) = [LInt 0; LInt 1]
    /\ map snd (df_rows df) = [[CStr "db0"; CFloat "2.0"]; [CStr "db1"; CNaN]].
Proof.
  destruct (maker_without_time env_utc series_ragged
              [[CStr "db0"; CInt 2]; [CStr "db1"]] ["name"; "shards"]
              eq_refl eq_refl) as (df & Hm & Hn & Hl & _).
  - simpl. intros [H | [H | []]]; discriminate H.
  - now right.
  - repeat constructor; simpl; lia.
  - exists df. split; [exact Hm | split; [exact Hn | split; [exact Hl |]]].
    assert (Hd : maker env_utc series_ragged
                 = ([], Return {| df_index_type := RangeIndex;
                                  df_columns := [("name", DObject);
                                                 ("shards", DFloat64)];
                                  df_rows := [(LInt 0, [CStr "db0"; CFloat "2.0"]);
                                              (LInt 1, [CStr "db1"; CNaN])] |}))
      by reflexivity.
    rewrite Hd in Hm. now injection Hm as <-.
Defined.

(** *** Tables with a time column *)

(** X12.  A series with a [time] column becomes a table with a temporal
    index: its labels are the times of the rows, in their order, and each
    tag of the series is a column that holds the tag value in every row,
    also when a column of that name came with the data. *)
Theorem maker_with_time (E : env) (s : series) (values : list (list cell))
  (columns : list string) (i : nat) (w : list warning) (df : DataFrame) :
  s_values s = Some values -> s_columns s = Some columns ->
  index_of "time" columns = Some i ->
  NoDup (map fst (tags_of s)) ->
  maker E s = (w, Return df) ->
  df_index_type df = DatetimeIndex
  /\ Forall2 (fun l row => exists w',
                to_datetime_utc E (nth i row CNaN) = (w', Return l))
       (map fst (df_rows df)) values
  /\ forall k v, In (k, v) (tags_of s) -> constant_column k (CStr v) df.
Proof.
  intros Hv Hc Hi Hnd H.
  destruct (maker_time_labels _ _ _ _ _ _ _ Hv Hc Hi H)
    as (Ht & Hl & df1 & Hrect1 & ->).
  split; [exact Ht | split; [exact Hl |]].
  exact (proj1 (set_tags_constant _ Hnd df1 Hrect1)).
Qed.

Lemma maker_with_time_witness :
  exists df,
    maker env_utc series_tagged = ([], Return df)
    /\ map fst (df_rows df) = [LTime 10; LTime 20]
    /\ constant_column "host" (CStr "a") df
    /\ constant_column "value" (CStr "shadow") df.
Proof.
  eexists. split; [reflexivity |]. split; [reflexivity |].
  match goal with
  | |- constant_column _ _ ?d /\ _ =>
      assert (Hm : maker env_utc series_tagged = ([], Return d)) by reflexivity;
      assert (Hnd : NoDup (map fst (tags_of series_tagged)))
        by (repeat constructor; simpl; intuition discriminate);
      destruct (maker_with_time env_utc series_tagged _ _ 0 [] d
                  eq_refl eq_refl eq_refl Hnd Hm) as (_ & _ & Htags)
  end.
  split; apply Htags; simpl; auto.
Defined.

Lemma list_sum_pointwise {A} (f g : A -> nat) (l : list A) :
  list_sum (map (fun a => f a + g a)%nat l)
  = (list_sum (map f l) + list_sum (map g l))%nat.
Proof. induction l as [|a l IH]; simpl; [reflexivity | rewrite IH; lia]. Qed.

Lemma list_sum_zero {A} (f : A -> nat) (l : list A) :
  (forall a, In a l -> f a = 0%nat) -> list_sum (map f l) = 0%nat.
Proof.
  induction l as [|a l IH]; intros H; simpl; [reflexivity |].
  rewrite (H a (or_introl eq_refl)), IH; [reflexivity |].
  intros b Hb. apply H. now right.
Qed.

Lemma list_sum_single_key (a : key) (n : nat) (keys : list key) :
  NoDup keys -> In a keys ->
  list_sum (map (fun k => if key_eqb a k then n else 0%nat) keys) = n.
Proof.
  induction 1 as [|k keys Hk Hnd IH]; intros Hin; [contradiction |].
  simpl. destruct Hin as [-> | Hin].
  - rewrite key_eqb_refl, list_sum_zero; [lia |].
    intros b Hb. rewrite (proj2 (key_eqb_neq a b)); [reflexivity |].
    intros ->. contradiction.
  - rewrite (proj2 (key_eqb_neq a k)), (IH Hin); [reflexivity |].
    intros ->. contradiction.
Qed.

(** Filing the tables under their keys loses none and repeats none. *)
Lemma chunks_partition (keys : list key) (df_list : list (key * DataFrame)) :
  NoDup keys -> (forall x, In x df_list -> In (fst x) keys) ->
  list_sum (map (fun k => list_sum (map nrows (chunks_of k df_list))) keys)
  = list_sum (map (fun x => nrows (snd x)) df_list).
Proof.
  intros Hnd. induction df_list as [|x l IH]; intros Hin.
  - apply list_sum_zero. reflexivity.
  - rewrite (map_ext _ (fun k => ((if key_eqb (fst x) k then nrows (snd x) else 0)
                                  + list_sum (map nrows (chunks_of k l)))%nat)).
    + rewrite list_sum_pointwise, list_sum_single_key, IH; auto.
      * intros y Hy. apply Hin. now right.
      * apply Hin. now left.
    + intros k. unfold chunks_of. cbn [filter].
      now destruct (key_eqb (fst x) k).
Qed.

Lemma parsed_rows (E : env) (l : list series)
  (df_list : list (key * DataFrame)) :
  Forall2 (fun s kd => exists w, parse_series E s = (w, Return kd)) l df_list ->
  list_sum (map (fun x => nrows (snd x)) df_list)
  = list_sum (map (fun s => List.length (match s_values s with
                                         | Some v => v
                                         | None => []
                                         end)) l).
Proof.
  induction 1 as [|s kd l df_list (w & Hs) Hall IH]; [reflexivity |].
  simpl. rewrite IH. f_equal.
  unfold parse_series in Hs.
  apply bind_returns in Hs. destruct Hs as (w1 & name & w2 & _ & Hs).
  apply bind_returns in Hs. destruct Hs as (w3 & df & w4 & Hm & Hs).
  injection Hs as _ <-. simpl.
  destruct (maker_nrows _ _ _ _ Hm) as (values & -> & ->). reflexivity.
Qed.

(** X13.  Decoding keeps every row: the tables [make_df] returns hold, in
    all, as many rows as the [values] of the series of the response. *)
Theorem decode_keeps_every_row (E : env) (resp : response)
  (tag_cache : option (dict (dict (list cell))))
  (w : list warning) (result : decoded) :
  make_df E resp tag_cache = (w, Return result) ->
  total_rows result = response_rows resp.
Proof.
  intros H.
  destruct (make_df_parsed _ _ _ _ _ H) as (wl & df_list & Hp).
  destruct (decoded_tables _ _ _ _ _ _ _ Hp H)
    as (dfs & -> & Hasc & Hkeys & Htab).
  unfold total_rows, response_rows.
  replace (tables_of (result_of dfs)) with (map snd dfs)
    by (now destruct dfs as [|[k d] [|? ?]]).
  rewrite <- (parsed_rows E _ df_list)
    by (exact (mapM_returns _ _ _ _ (parsing_series _ _ _ _ Hp))).
  rewrite <- (chunks_partition (map fst dfs)).
  - rewrite !map_map. f_equal. apply map_ext_in. intros [k df] Hin.
    destruct (Htab k df Hin) as [Hn _]. exact Hn.
  - now apply ascending_NoDup.
  - intros x Hx. apply Hkeys. now apply in_map.
Qed.

Lemma decode_keeps_every_row_witness :
  total_rows decoded_chunked = response_rows response_chunked.
Proof.
  exact (decode_keeps_every_row env_utc response_chunked None []
           decoded_chunked eq_refl).
Defined.

Lemma parse_series_key (E : env) (s : series) (w : list warning)
  (kd : key * DataFrame) :
  parse_series E s = (w, Return kd) ->
  exists n, s_name s = Some n /\ fst kd = (n, tags_of s).
Proof.
  unfold parse_series. intros H.
  apply bind_returns in H. destruct H as (w1 & name & w2 & Hn & H).
  apply bind_returns in H. destruct H as (w3 & df & w4 & _ & H).
  injection H as _ <-. exists name. split; [| reflexivity].
  destruct (s_name s); [| discriminate]. now injection Hn as _ <-.
Qed.

Lemma parsed_keys (E : env) (resp : response) (wl : list warning)
  (df_list : list (key * DataFrame)) :
  parsing E resp = (wl, Return df_list) ->
  Forall2 (fun s kd => exists n, s_name s = Some n /\ fst kd = (n, tags_of s))
    (series_of resp) df_list.
Proof.
  intros Hp. apply parsing_series, mapM_returns in Hp.
  induction Hp as [|s kd l l' (w & Hs) Hall IH]; constructor; [| exact IH].
  exact (parse_series_key _ _ _ _ Hs).
Qed.

Lemma NoDup_one_value {A} (a : A) (l : list A) :
  NoDup l -> (forall x, In x l -> x = a) -> l = [] \/ l = [a].
Proof.
  intros Hnd Hall. destruct l as [|x [|y l]]; [now left | right | exfalso].
  - now rewrite (Hall x (or_introl eq_refl)).
  - inversion Hnd as [|? ? Hx _]. subst. apply Hx. left.
    rewrite (Hall x), (Hall y); simpl; auto.
Qed.

(** X14.  What [make_df] returns depends on the keys of the series only:
    the empty dict exactly when the response has no series, and a bare
    table exactly when it has series and they all have one name and one
    tag mapping, the items in one order. *)
Theorem decode_result_shape (E : env) (resp : response)
  (tag_cache : option (dict (dict (list cell))))
  (w : list warning) (result : decoded) :
  make_df E resp tag_cache = (w, Return result) ->
  (result = Tables [] <-> series_of resp = [])
  /\ ((exists df, result = Single df)
      <-> series_of resp <> []
          /\ forall s s', In s (series_of resp) -> In s' (series_of resp) ->
                          same_key s s').
Proof.
  intros H.
  destruct (make_df_parsed _ _ _ _ _ H) as (wl & df_list & Hp).
  destruct (decoded_tables _ _ _ _ _ _ _ Hp H)
    as (dfs & -> & Hasc & Hkeys & _).
  pose proof (parsed_keys _ _ _ _ Hp) as Hser.
  apply ascending_NoDup in Hasc.
  assert (Hempty : dfs = [] <-> series_of resp = []).
  { split; intros He.
    - destruct Hser as [|s kd l l' _ _]; [reflexivity | exfalso].
      subst dfs. apply (proj2 (Hkeys (fst kd))). now left.
    - rewrite He in Hser. inversion Hser as [Hl |]. subst.
      destruct dfs as [|[k d] dfs]; [reflexivity | exfalso].
      apply (proj1 (Hkeys k)). now left. }
  split.
  - rewrite <- Hempty. destruct dfs as [|[k d] [|? ?]]; simpl;
      split; intros He; try reflexivity; discriminate.
  - split.
    + intros (df & Hr).
      destruct dfs as [|[k d] [|? ?]]; try discriminate.
      split; [intros He; now apply Hempty in He |].
      assert (Hk : forall s, In s (series_of resp) ->
                             exists n, s_name s = Some n /\ k = (n, tags_of s)).
      { intros s Hs.
        destruct (Forall2_in_l _ _ _ Hser _ Hs) as (kd & Hin & n & Hn & Hkd).
        exists n. split; [exact Hn |]. rewrite <- Hkd.
        destruct (proj2 (Hkeys (fst kd)) (in_map fst _ _ Hin)) as [Hq | []].
        exact Hq. }
      intros s s' Hs Hs'.
      destruct (Hk s Hs) as (n & Hn & Hkn), (Hk s' Hs') as (n' & Hn' & Hkn').
      rewrite Hkn in Hkn'. injection Hkn' as <- Ht.
      split; [now rewrite Hn, Hn' | exact Ht].
    + intros (Hne & Hsame).
      destruct (series_of resp) as [|s0 l] eqn:Hl; [contradiction |].
      inversion Hser as [|? kd0 ? l' (n0 & Hn0 & Hk0) Hrest]; subst.
      assert (Hall : forall k, In k (map fst dfs) -> k = fst kd0).
      { intros k Hk. apply Hkeys in Hk. apply in_map_iff in Hk.
        destruct Hk as (kd & <- & Hin).
        destruct (Forall2_in_r _ _ _ Hser _ Hin) as (s & Hs & n & Hn & Hkd).
        destruct (Hsame s s0 Hs (or_introl eq_refl)) as [Hnn Htt].
        etransitivity; [exact Hkd |]. symmetry.
        etransitivity; [exact Hk0 |]. rewrite <- Htt. f_equal. congruence. }
      destruct (NoDup_one_value _ _ Hasc Hall) as [He | He].
      * destruct dfs; [| discriminate].
        now destruct (proj1 Hempty eq_refl).
      * destruct dfs as [|[k d] [|? ?]]; try discriminate.
        now exists d.
Qed.

Lemma decode_result_shape_witness :
  (decoded_show = Tables [] <-> series_of response_show = [])
  /\ ((exists df, decoded_show = Single df)
      <-> series_of response_show <> []
          /\ forall s s', In s (series_of response_show) ->
                          In s' (series_of response_show) -> same_key s s').
Proof.
  exact (decode_result_shape env_utc response_show None [] decoded_show eq_refl).
Defined.

Lemma sub_alts_no_match (alts : list string) (repl s : string) :
  occurs alts s = false -> sub_alts alts repl 0 s = s.
Proof.
  induction s as [|c s IH]; cbn [occurs sub_alts].
  - now destruct (first_match alts "").
  - destruct (first_match alts (String c s)); [discriminate |].
    cbn [orb]. intros H. now rewrite (IH H).
Qed.

Lemma comma_runs_no_pair (repl s : string) :
  has_pair comma_pair s = false ->
  sub_comma_runs repl 0 s = s
  /\ (first_char s <> Some ","%char ->
      sub_comma_runs repl 1 s = String "," s).
Proof.
  induction s as [|c s IH]; intros H; [now split |].
  pose proof (has_pair_tail _ _ _ H) as Ht.
  destruct (IH Ht) as [IH0 IH1]. cbn [sub_comma_runs].
  destruct (Ascii.eqb c ",") eqn:Hc.
  - apply Ascii.eqb_eq in Hc. subst c. split.
    + rewrite IH1; [reflexivity |]. intros Hf.
      rewrite has_pair_cons, Hf in H. discriminate.
    + intros Hf. now elim Hf.
  - cbn [flush_commas append]. now rewrite IH0.
Qed.

Lemma dangling_no_comma_pair (s : string) :
  dangling s = false -> has_pair comma_pair s = false.
Proof.
  unfold dangling. induction s as [|a s IH]; [reflexivity |].
  intros H. pose proof (has_pair_tail _ _ _ H) as Ht.
  rewrite has_pair_cons in *. destruct (first_char s) as [b|]; [| reflexivity].
  apply orb_false_iff in H. destruct H as [Hab _].
  rewrite (IH Ht), orb_false_r. unfold bad_pair in Hab. unfold comma_pair.
  destruct (is_comma a); [| reflexivity]. cbn in Hab |- *.
  now destruct (is_comma b).
Qed.

Lemma prefix_step (a b : ascii) (p s : string) :
  String.prefix (String a p) (String b s) = Ascii.eqb a b && String.prefix p s.
Proof.
  cbn [String.prefix]. destruct (ascii_dec a b) as [-> | Hn].
  - now rewrite Ascii.eqb_refl.
  - now rewrite (proj2 (Ascii.eqb_neq a b) Hn).
Qed.

Lemma dangling_no_delimiter (s : string) :
  dangling s = false -> occurs delimiters s = false.
Proof.
  unfold dangling. induction s as [|a s IH]; [reflexivity |].
  intros H. pose proof (has_pair_tail _ _ _ H) as Ht.
  cbn [occurs]. rewrite (IH Ht), orb_false_r.
  rewrite has_pair_cons in H. rewrite first_match_delimiters.
  destruct s as [|b s]; cbn [first_char] in H.
  - rewrite !prefix_step. cbn [String.prefix]. rewrite !andb_false_r.
    reflexivity.
  - apply orb_false_iff in H. destruct H as [Hab _].
    unfold bad_pair, is_comma, is_space in Hab.
    rewrite !prefix_step, !prefix_nil, !andb_true_r.
    rewrite (Ascii.eqb_sym "," a), (Ascii.eqb_sym " " a),
      (Ascii.eqb_sym "," b), (Ascii.eqb_sym " " b).
    destruct (Ascii.eqb a ","), (Ascii.eqb a " "), (Ascii.eqb b ","),
      (Ascii.eqb b " "); cbn in Hab |- *; try discriminate; reflexivity.
Qed.

(** X15.  The clean-up of the line of a row with nulls changes a line
    only where there is something to clean: a line in which no text of a
    null cell occurs and no delimiter dangles comes out as it went in.
    The column names are regular expressions for themselves, as they are
    wherever [parse_df] is modelled. *)
Theorem cleanup_leaves_clean_lines (E : env) (df : DataFrame) (line : string) :
  forallb (fun kv => regex_safe (fst kv)) (df_columns df) = true ->
  occurs (nan_tokens E df) line = false ->
  dangling line = false ->
  cleanup E df line = line.
Proof.
  intros _ Hnan Hd. unfold cleanup, nan_tokens, make_replacements in *.
  cbn [fold_left re_sub fst snd].
  rewrite (sub_alts_no_match _ _ _ Hnan).
  rewrite (proj1 (comma_runs_no_pair _ _ (dangling_no_comma_pair _ Hd))).
  apply sub_alts_no_match. now apply dangling_no_delimiter.
Qed.

Lemma cleanup_leaves_clean_lines_witness :
  cleanup env_utc frame_nulls "cpu,dc=x count=2i 2" = "cpu,dc=x count=2i 2".
Proof.
  exact (cleanup_leaves_clean_lines env_utc frame_nulls "cpu,dc=x count=2i 2"
           eq_refl eq_refl eq_refl).
Defined.

Lemma prefix_append (m r : string) : String.prefix m (m ++ r) = true.
Proof.
  induction m as [|c m IH]; [apply prefix_nil |].
  cbn [append]. now rewrite prefix_cons.
Qed.

Lemma row_function_prefix (m : string) (fmt_0 fmt_1 : list piece)
  (tags fields : list (list piece * argexpr)) (p : label * list cell)
  (w : list warning) (line : string) :
  row_function (Lit m :: fmt_0) fmt_1 tags fields p = (w, Return line) ->
  String.prefix m line = true.
Proof.
  unfold row_function. intros H.
  apply bind_returns in H. destruct H as (w1 & tv & w2 & _ & H).
  apply bind_returns in H. destruct H as (w3 & fv & w4 & _ & H).
  apply bind_returns in H. destruct H as (w5 & t & w6 & _ & H).
  cbn [app format] in H.
  apply bind_returns in H. destruct H as (w7 & r & w8 & _ & H).
  injection H as _ <-. apply prefix_append.
Qed.

(** X16.  Under the hypotheses of C6 (a table under a [DatetimeIndex]
    with a timestamp and one cell per column in every row; a measurement,
    extra tags and column names that stand for themselves in the source
    of the row function; column names without regular expression
    metacharacters if a row has a null; no [bytes] among the extra-tag
    values) [parse_df] writes the measurement as it is given, without
    escaping it, a comma or a space in it included: the line of every row
    without nulls starts with the text of the measurement. *)
Theorem parse_df_measurement_verbatim (E : env) (df : DataFrame)
  (measurement : pyval) (tag_columns : option (list string))
  (extra_tags : dict pyval) :
  well_formed df ->
  names_compile df measurement extra_tags = true ->
  (null_rows df <> [] -> names_match df = true) ->
  Forall (fun kv => isinstance_bytes (snd kv) = false) extra_tags ->
  exists w tags0 clean dirty,
    parse_df E df measurement tag_columns extra_tags
    = (w, Return (encode_utf8 (join (str1 newline) (clean ++ dirty)%list)))
    /\ Forall2 (fun p line =>
                  row_formatter df measurement tag_columns tags0 p
                  = ([], Return line)
                  /\ String.prefix (py_str measurement) line = true)
         (clean_rows df) clean
    /\ List.length dirty = List.length (null_rows df).
Proof.
  intros Hwf Hsafe Hregex Hbytes.
  destruct (parse_df_total E df measurement tag_columns extra_tags
              Hwf Hsafe Hregex Hbytes)
    as (w & tags0 & clean & dirty0 & _ & Hout & Hclean & Hdirty).
  exists w, tags0, clean, (map (cleanup E df) dirty0).
  split; [exact Hout | split].
  - eapply Forall2_impl; [| exact Hclean]. intros p line Hline.
    split; [exact Hline |]. unfold row_formatter in Hline.
    destruct (columns_loop _ (df_columns df) 0 tags0 []) as [tags fields].
    exact (row_function_prefix _ _ _ _ _ _ _ _ Hline).
  - rewrite length_map. symmetry. exact (Forall2_length Hdirty).
Qed.

Lemma parse_df_measurement_verbatim_witness :
  exists w tags0 clean dirty,
    parse_df env_utc frame_comma_tag (PStr "cpu load") None []
    = (w, Return (encode_utf8 (join (str1 newline) (clean ++ dirty)%list)))
    /\ Forall2 (fun p line =>
                  row_formatter frame_comma_tag (PStr "cpu load") None tags0 p
                  = ([], Return line)
                  /\ String.prefix "cpu load" line = true)
         (clean_rows frame_comma_tag) clean
    /\ List.length dirty = List.length (null_rows frame_comma_tag).
Proof.
  apply (parse_df_measurement_verbatim env_utc frame_comma_tag
           (PStr "cpu load") None []).
  - split; [reflexivity |]. repeat constructor; eexists; reflexivity.
  - reflexivity.
  - intros _. reflexivity.
  - constructor.
Defined.

(** X17.  A tag cache that names none of the series of the response
    changes nothing: [make_df] returns what it returns without a cache,
    warnings and errors included. *)
Theorem unrelated_tag_cache_is_ignored (E : env) (resp : response)
  (cache : dict (dict (list cell))) :
  (forall s n, In s (series_of resp) -> s_name s = Some n ->
               dict_get n cache = None) ->
  make_df E resp (Some cache) = make_df E resp None.
Proof.
  intros Hnames. unfold make_df. destruct (negb (pd_available E)); [reflexivity |].
  destruct (parsing E resp) as [wl [df_list| |]] eqn:Hp; try reflexivity.
  cbn [bind].
  destruct (concatenation E df_list) as [wc [dfs0| |]] eqn:Hc; try reflexivity.
  destruct (concatenation_spec _ _ _ _ Hc) as (_ & Hstack).
  cbn [bind].
  replace (post_processing (Some cache) dfs0) with (post_processing None dfs0);
    [reflexivity |].
  unfold post_processing. apply mapM_ext_in. intros [k d] Hin.
  destruct cache as [|c cache]; [reflexivity |].
  cbn [fst snd]. destruct (drop_zero_index d) as [w [df| |]]; try reflexivity.
  cbn [bind].
  replace (dict_get (fst k) (c :: cache)) with (@None (dict (list cell)));
    [reflexivity |].
  symmetry.
  destruct (group_sorted_spec df_list) as (_ & _ & Hkeys).
  assert (Hk : In k (map fst df_list)).
  { apply Hkeys.
    assert (Hmap : map fst dfs0 = map fst (group_sorted df_list))
      by (apply (Forall2_keys _ _ _ Hstack); now intros a b [? _]).
    rewrite <- Hmap. exact (in_map fst _ _ Hin). }
  apply in_map_iff in Hk. destruct Hk as (kd & <- & Hkd).
  destruct (Forall2_in_r _ _ _ (parsed_keys _ _ _ _ Hp) _ Hkd)
    as (s & Hs & n & Hn & Hfst).
  destruct kd as [[n' t'] d']. cbn [fst] in Hfst |- *.
  injection Hfst as -> _. exact (Hnames s n Hs Hn).
Qed.

Lemma unrelated_tag_cache_is_ignored_witness :
  make_df env_utc response_chunked (Some [("mem", [("host", [CStr "a"])])])
  = make_df env_utc response_chunked None.
Proof.
  apply (unrelated_tag_cache_is_ignored env_utc response_chunked).
  intros s n [<- | [<- | [<- | []]]] [= <-]; reflexivity.
Defined.

(** X18.  A batch is encoded as a whole or not at all: when an element
    raises, and the elements before it are encoded, [parse_data] raises
    the error of that element for the batch, whatever follows it. *)
Theorem parse_data_batch_fails_as_a_whole (E : env)
  (measurement : option pyval) (tag_columns : option (list string))
  (extra_tags : dict pyval) (xs ys : list data) (i : data)
  (w : list warning) (e : exn) :
  Forall (fun x => exists w' b,
            parse_data E x measurement tag_columns extra_tags = (w', Return b))
    xs ->
  parse_data E i measurement tag_columns extra_tags = (w, Raise e) ->
  exists w',
    parse_data E (DIter (xs ++ i :: ys)%list) measurement tag_columns extra_tags
    = (w', Raise e).
Proof.
  intros Hxs Hi. rewrite parse_data_iter.
  assert (Hm : exists w',
             mapM (fun x => parse_data E x measurement tag_columns extra_tags)
               (xs ++ i :: ys)%list = (w', Raise e)).
  { induction Hxs as [|x xs (wx & b & Hx) _ (w' & IH)].
    - exists w. cbn [app mapM]. now rewrite Hi.
    - exists (wx ++ w')%list. cbn [app mapM]. rewrite Hx. cbn [bind].
      now rewrite IH. }
  destruct Hm as (w' & ->). now exists w'.
Qed.

Lemma parse_data_batch_fails_as_a_whole_witness :
  exists w',
    parse_data env_utc (DIter [DStr "a b=1i"; DOther; DStr "c d=2i"])
      None None []
    = (w', Raise UnsupportedInputType).
Proof.
  apply (parse_data_batch_fails_as_a_whole env_utc None None []
           [DStr "a b=1i"] [DStr "c d=2i"] DOther []).
  - repeat constructor. now exists [], "a b=1i".
  - reflexivity.
Defined.
